(** * Verification of selected properties of the reva storage services

    The development embeds, function by function, the parts of the
    repository that the properties below talk about:

    - [Upload]       : [upload/store.go], the pre-commit step of an upload
                       ([CreateNodeForUpload], [initNewNode],
                       [updateExistingNode]);
    - [Decomposedfs] : the postprocessing consumer and [GetQuota] of the
                       decomposed filesystem;
    - [AppProvider]  : [handleNew] of the HTTP app provider;
    - [ShareJSON]    : [get]/[GetShare] of the JSON share manager;
    - [AppProviderMore], [ShareJSONMore], [References] : the other
                       handlers of the app provider, the other operations
                       of the share manager, and [CreateReference] of the
                       decomposed filesystem.

    Go strings are byte strings ([string]), Go maps are [gmap]s, fixed
    width integers are [Z] with the wrap-around written out. *)

From Stdlib Require Import ZArith String Ascii List Bool Lia DecimalString.
From stdpp Require Import gmap strings list.

Local Open Scope string_scope.
Local Open Scope Z_scope.

(** ** Pieces of the Go standard library used by the sources *)

Module Go.

(** [uint64(x)] and [int64(x)] conversions. *)
Definition to_uint64 (z : Z) : Z := z mod 2 ^ 64.
Definition to_int64 (z : Z) : Z := (z + 2 ^ 63) mod 2 ^ 64 - 2 ^ 63.

Definition is_uint64 (z : Z) : Prop := 0 <= z < 2 ^ 64.
Definition is_int64 (z : Z) : Prop := - 2 ^ 63 <= z < 2 ^ 63.

(** [strconv.FormatInt(z, 10)]. *)
Definition FormatInt (z : Z) : string := NilZero.string_of_int (Z.to_int z).

(** Reading a key of a [map[string]string]: a missing key reads as [""]. *)
Definition map_get (m : gmap string string) (k : string) : string :=
  default "" (m !! k).

Definition digit_of (c : ascii) : option Z :=
  let n := Z.of_N (N_of_ascii c) in
  if (48 <=? n) && (n <=? 57) then Some (n - 48) else None.

Fixpoint parse_digits (acc : Z) (s : string) : option Z :=
  match s with
  | EmptyString => Some acc
  | String c s' =>
      match digit_of c with
      | None => None
      | Some d =>
          let acc' := acc * 10 + d in
          if acc' <? 2 ^ 64 then parse_digits acc' s' else None
      end
  end.

(** [strconv.ParseUint(s, 10, 64)]: decimal digits only, not empty, and
    the value has to fit 64 bits; [None] stands for the error result. *)
Definition ParseUint (s : string) : option Z :=
  match s with
  | EmptyString => None
  | _ => parse_digits 0 s
  end.

(** [strings.Split(s, sep)] for a one byte separator. *)
Fixpoint split_acc (sep : ascii) (cur : string) (s : string) : list string :=
  match s with
  | EmptyString => [cur]
  | String c s' =>
      if Ascii.eqb c sep then cur :: split_acc sep "" s'
      else split_acc sep (cur ++ String c "") s'
  end.

Definition Split (s : string) (sep : ascii) : list string := split_acc sep "" s.

(** [strings.HasPrefix(s, prefix)]. *)
Definition HasPrefix (s p : string) : bool := String.prefix p s.

(** [path.Split(p)]: splits immediately after the final slash. *)
Fixpoint path_Split (p : string) : string * string :=
  match p with
  | EmptyString => ("", "")
  | String c p' =>
      let '(d, f) := path_Split p' in
      if negb (String.eqb d "") then (String c d, f)
      else if Ascii.eqb c "/" then (String c "", f)
      else ("", String c f)
  end.

End Go.

(** ** upload/store.go *)

Module Upload.
Import Go.

(** [time.Time] as an instant in nanoseconds. *)
Definition Time := Z.

(** The calls that leave the package and can fail for reasons of their
    own (I/O, other services). *)
Inductive Op :=
| OpReadSpaceRoot | OpCheckLock | OpOpenLockfile | OpMetadataLock
| OpMkdirAll | OpOpenExcl | OpCheckQuota | OpGetMTime | OpCalculateEtag
| OpCreate | OpCopyMetadata | OpChtimes | OpSetXattrs | OpPersist.

Inductive Error :=
| Aborted (msg : string)         (* errtypes.Aborted *)
| InternalError (msg : string)   (* errtypes.InternalError *)
| Failed (op : Op).              (* the error a collaborator returned *)

(** [node.PathLookup] and the other packages the store is built on:
    path composition, time formatting, etag computation and the names
    of the extended attributes ([prefixes]). *)
Class Lookup := {
  InternalPath : string -> string -> string;
  LockfilePath : string -> string;
  FormatRFC3339Nano : Time -> string;
  ParseRFC3339Nano : string -> option Time;
  CalculateEtag : string -> Time -> option string;
  RevisionIDDelimiter : string;
  ProcessingStatus : string;
  IDAttr : string;
  MTimeAttr : string;
  TypeAttr : string;
  ParentidAttr : string;
  NameAttr : string;
  BlobIDAttr : string;
  BlobsizeAttr : string;
  StatusPrefix : string;
  ChecksumPrefix : string;
}.

(** [node.Node], the fields the store touches. *)
Record Node := {
  SpaceID : string;
  ID : string;
  ParentID : string;
  Name : string;
  Blobsize : Z;
  BlobID : string;
}.

(** [OcisSession]: the accessors of the session that the store reads.
    [sMTime = None] is the zero time. The mutable [info.MetaData] lives
    in the [State]. *)
Record Session := {
  sID : string;
  sSpaceID : string;
  sNodeID : string;
  sNodeParentID : string;
  sFilename : string;
  sSize : Z;
  sNodeExists : bool;
  sMTime : option Time;
  sHeaderIfMatch : string;
  sHeaderIfNoneMatch : string;
  sHeaderIfUnmodifiedSince : string;
}.

(** What the collaborators answer during one call. [fails] tells which
    of the calls into the file system and the other packages return an
    error. [old_*] is the node [node.ReadNode] hands back for the existing
    target (its error result is dropped by the caller), [old_MTime = None]
    is a failing [GetMTime]. *)
Record Env := {
  now : Time;
  fails : Op -> bool;
  old_ID : string;
  old_Blobsize : Z;
  old_MTime : option Time;
  (* node.CheckQuota(ctx, spaceRoot, overwrite, oldSize, newSize) succeeds *)
  quota_ok : bool -> Z -> Z -> bool;
}.

Record File := {
  xattrs : gmap string string;
  modtime : Time;
}.

Inductive LockEvent :=
| Acquired (lockfile : string)
| Released (lockfile : string).

Record State := {
  files : gmap string File;              (* node files by internal path *)
  held : list string;                    (* lock files held by this process *)
  locklog : list LockEvent;              (* history of lock operations *)
  MetaData : gmap string string;         (* session.info.MetaData *)
  persisted : option (gmap string string);  (* what Persist wrote *)
}.

Definition set_files (f : gmap string File) (st : State) : State :=
  {| files := f; held := held st; locklog := locklog st;
     MetaData := MetaData st; persisted := persisted st |}.

Definition set_MetaData (k v : string) (st : State) : State :=
  {| files := files st; held := held st; locklog := locklog st;
     MetaData := <[k := v]> (MetaData st); persisted := persisted st |}.

Fixpoint remove_first (p : string) (l : list string) : list string :=
  match l with
  | [] => []
  | q :: l' => if String.eqb p q then l' else q :: remove_first p l'
  end.

(** Modelled from the spec: the metadata backend is not part of the
    sources; a lock on a path is exclusive and is held from its acquisition
    until its unlock handle is called. *)
Definition acquire (p : string) (st : State) : State :=
  {| files := files st; held := p :: held st;
     locklog := locklog st ++ [Acquired p];
     MetaData := MetaData st; persisted := persisted st |}.

Definition release (p : string) (st : State) : State :=
  {| files := files st; held := remove_first p (held st);
     locklog := locklog st ++ [Released p];
     MetaData := MetaData st; persisted := persisted st |}.

(** The file operations leave the locks and the session metadata alone. *)
Definition only_files (st st' : State) : Prop :=
  held st' = held st /\ locklog st' = locklog st /\ MetaData st' = MetaData st.

(** What the two helpers hand to the deferred unlock: either no lock was
    taken, or exactly the lock of the target is held on top. *)
Definition lock_taken (st : State) (unlock : option string) (st' : State) : Prop :=
  match unlock with
  | None => held st' = held st /\ locklog st' = locklog st
  | Some p => held st' = p :: held st /\ locklog st' = (locklog st ++ [Acquired p])%list
  end.

Section Store.
Context `{Lookup}.
Variable disableVersioning : bool.
Variable env : Env.

Definition n_InternalPath (n : Node) : string :=
  InternalPath (SpaceID n) (ID n).

(** [os.Create(p)]: the empty path cannot be opened; an existing file is
    truncated and keeps its attributes. *)
Definition os_Create (p : string) (st : State) : option State :=
  if String.eqb p "" then None
  else if fails env OpCreate then None
  else
    let f := match files st !! p with
             | Some f => {| xattrs := xattrs f; modtime := now env |}
             | None => {| xattrs := ∅; modtime := now env |}
             end in
    Some (set_files (<[p := f]> (files st)) st).

(** [os.OpenFile(p, O_CREATE|O_EXCL, 0600)]. *)
Definition os_OpenExcl (p : string) (st : State) : option State :=
  if fails env OpOpenExcl then None
  else match files st !! p with
       | Some _ => None
       | None =>
           Some (set_files (<[p := {| xattrs := ∅; modtime := now env |}]> (files st)) st)
       end.

(** [os.Chtimes(p, t, t)]. *)
Definition os_Chtimes (p : string) (t : Time) (st : State) : option State :=
  if fails env OpChtimes then None
  else match files st !! p with
       | None => None
       | Some f =>
           Some (set_files (<[p := {| xattrs := xattrs f; modtime := t |}]> (files st)) st)
       end.

(** The filter handed to [CopyMetadataWithSourceLock]. *)
Definition version_attr (attributeName : string) : bool :=
  HasPrefix attributeName ChecksumPrefix
  || String.eqb attributeName TypeAttr
  || String.eqb attributeName BlobIDAttr
  || String.eqb attributeName BlobsizeAttr
  || String.eqb attributeName MTimeAttr.

(** Modelled from the spec: [lu.CopyMetadataWithSourceLock(ctx, src, dst,
    filter, f, true)] is not part of the sources; it copies to [dst] the
    attributes of [src] for which the filter holds. *)
Definition CopyMetadataWithSourceLock (src dst : string) (st : State) : option State :=
  if fails env OpCopyMetadata then None
  else match files st !! src, files st !! dst with
       | Some s, Some d =>
           let copied := filter (fun kv => version_attr (fst kv) = true) (xattrs s) in
           Some (set_files
                   (<[dst := {| xattrs := copied ∪ xattrs d; modtime := modtime d |}]> (files st))
                   st)
       | _, _ => None
       end.

(** Modelled from the spec: [n.SetXattrsWithContext(ctx, attrs, false)] is
    not part of the sources; it writes the attributes to the node file. *)
Definition SetXattrs (n : Node) (attrs : gmap string string) (st : State) : option State :=
  if fails env OpSetXattrs then None
  else match files st !! n_InternalPath n with
       | None => None
       | Some f =>
           Some (set_files
                   (<[n_InternalPath n := {| xattrs := attrs ∪ xattrs f; modtime := modtime f |}]> (files st))
                   st)
       end.

(** Modelled from the spec: [session.Persist(ctx)] is not part of the
    sources; it writes the session record. *)
Definition Persist (st : State) : option State :=
  if fails env OpPersist then None
  else Some {| files := files st; held := held st; locklog := locklog st;
               MetaData := MetaData st; persisted := Some (MetaData st) |}.

(** The result of [initNewNode] and [updateExistingNode]: the unlock
    function (the lock file it releases, [None] for [nil]) and the
    error ([None] for [nil]). *)
Definition Locked : Type := option string * option Error.

Definition initNewNode (sess : Session) (n : Node) (fsize : Z)
    (st : State) : Locked * State :=
  if fails env OpMkdirAll then ((None, Some (Failed OpMkdirAll)), st)
  else if fails env OpMetadataLock then ((None, Some (Failed OpMetadataLock)), st)
  else
    let unlock := Some (LockfilePath (n_InternalPath n)) in
    let st := acquire (LockfilePath (n_InternalPath n)) st in
    match os_OpenExcl (n_InternalPath n) st with
    | None => ((unlock, Some (Failed OpOpenExcl)), st)
    | Some st =>
        if negb (quota_ok env false 0 fsize)
        then ((unlock, Some (Failed OpCheckQuota)), st)
        else
          let st := set_MetaData "sizeDiff" (FormatInt (to_int64 fsize)) st in
          ((unlock, None), st)
    end.

(** The three client preconditions of [updateExistingNode], each giving
    the error it returns ([None]: the check passes). *)
Definition check_if_match (sess : Session) (oldNodeEtag : string) : option Error :=
  if negb (String.eqb (sHeaderIfMatch sess) "")
     && negb (String.eqb (sHeaderIfMatch sess) oldNodeEtag)
  then Some (Aborted "etag mismatch")
  else None.

Definition check_if_none_match (sess : Session) (oldNodeEtag : string) : option Error :=
  if negb (String.eqb (sHeaderIfNoneMatch sess) "") then
    if String.eqb (sHeaderIfNoneMatch sess) "*"
    then Some (Aborted "etag mismatch, resource exists")
    else if existsb (fun ifNoneMatchTag => String.eqb ifNoneMatchTag oldNodeEtag)
                    (Split (sHeaderIfNoneMatch sess) ",")
    then Some (Aborted "etag mismatch")
    else None
  else None.

Definition check_if_unmodified_since (sess : Session) (oldNodeMtime : Time)
    : option Error :=
  if negb (String.eqb (sHeaderIfUnmodifiedSince sess) "") then
    match ParseRFC3339Nano (sHeaderIfUnmodifiedSince sess) with
    | None => Some (InternalError "failed to parse if-unmodified-since time")
    | Some ifUnmodifiedSince =>
        (* oldNodeMtime.After(ifUnmodifiedSince) *)
        if ifUnmodifiedSince <? oldNodeMtime
        then Some (Aborted "if-unmodified-since mismatch")
        else None
    end
  else None.

Definition check_preconditions (sess : Session) (oldNodeEtag : string)
    (oldNodeMtime : Time) : option Error :=
  match check_if_match sess oldNodeEtag with
  | Some e => Some e
  | None =>
      match check_if_none_match sess oldNodeEtag with
      | Some e => Some e
      | None => check_if_unmodified_since sess oldNodeMtime
      end
  end.

(** A violated client precondition, as the specification words it: the
    session violates a precondition against the current etag and mtime of
    the target when if-match is set and differs from the etag, when
    if-none-match is [*] or lists the etag, or when if-unmodified-since is
    set and the mtime is later than it. *)
Definition precondition_violated (sess : Session) (etag : string) (mtime : Time) : bool :=
  (negb (String.eqb (sHeaderIfMatch sess) "")
   && negb (String.eqb (sHeaderIfMatch sess) etag))
  || String.eqb (sHeaderIfNoneMatch sess) "*"
  || (negb (String.eqb (sHeaderIfNoneMatch sess) "")
      && existsb (String.eqb etag) (Split (sHeaderIfNoneMatch sess) ","))
  || (negb (String.eqb (sHeaderIfUnmodifiedSince sess) "")
      && match ParseRFC3339Nano (sHeaderIfUnmodifiedSince sess) with
         | Some t => t <? mtime
         | None => false
         end).

Definition updateExistingNode (sess : Session) (n : Node) (spaceID : string)
    (fsize : Z) (st : State) : Locked * State :=
  let targetPath := n_InternalPath n in
  if fails env OpOpenLockfile then ((None, Some (Failed OpOpenLockfile)), st)
  else
    let unlock := Some (LockfilePath targetPath) in
    let st := acquire (LockfilePath targetPath) st in
    if negb (quota_ok env true (to_uint64 (old_Blobsize env)) fsize)
    then ((unlock, Some (Failed OpCheckQuota)), st)
    else
      match old_MTime env with
      | None => ((unlock, Some (Failed OpGetMTime)), st)
      | Some oldNodeMtime =>
          match CalculateEtag (old_ID env) oldNodeMtime with
          | None => ((unlock, Some (Failed OpCalculateEtag)), st)
          | Some oldNodeEtag =>
              match check_preconditions sess oldNodeEtag oldNodeMtime with
              | Some e => ((unlock, Some e), st)
              | None =>
                  (* the statements after the versioning block *)
                  let record (versionPath : string) (st : State) : Locked * State :=
                    let st := set_MetaData "sizeDiff"
                                (FormatInt (to_int64 (to_int64 fsize - old_Blobsize env))) st in
                    let st := set_MetaData "versionsPath" versionPath st in
                    (* keep mtime from previous version *)
                    match os_Chtimes (map_get (MetaData st) "versionsPath")
                            oldNodeMtime st with
                    | None =>
                        ((unlock,
                          Some (InternalError "failed to change mtime of version node")), st)
                    | Some st => ((unlock, None), st)
                    end in
                  if negb disableVersioning then
                    let versionPath :=
                      InternalPath spaceID
                        (ID n ++ RevisionIDDelimiter ++ FormatRFC3339Nano oldNodeMtime) in
                    (* create version node *)
                    match os_Create (map_get (MetaData st) "versionsPath") st with
                    | None => ((unlock, Some (Failed OpCreate)), st)
                    | Some st =>
                        (* copy blob metadata to version node *)
                        match CopyMetadataWithSourceLock targetPath
                                (map_get (MetaData st) "versionsPath") st with
                        | None => ((unlock, Some (Failed OpCopyMetadata)), st)
                        | Some st => record versionPath st
                        end
                    end
                  else record (n_InternalPath n) st
              end
          end
      end.

(** The deferred function of [CreateNodeForUpload]. Closing the lock
    file drops the lock also when the call reports an error, which is
    only logged. *)
Definition run_unlock (unlock : option string) (st : State) : State :=
  match unlock with
  | None => st
  | Some p => release p st
  end.

(** The technical attributes written over [initAttrs]. *)
Definition technical_attrs (sess : Session) (n : Node) (initAttrs : gmap string string)
    : gmap string string :=
  let mtime := match sMTime sess with
               | Some t => t
               | None => now env
               end in
  <[StatusPrefix := ProcessingStatus ++ sID sess]>
  (<[BlobsizeAttr := FormatInt (Blobsize n)]>
  (<[BlobIDAttr := BlobID n]>
  (<[NameAttr := Name n]>
  (<[ParentidAttr := ParentID n]>
  (<[TypeAttr := FormatInt 1]>
  (<[MTimeAttr := FormatRFC3339Nano mtime]>
  (<[IDAttr := ID n]> initAttrs))))))).

Definition new_node (sess : Session) : Node :=
  {| SpaceID := sSpaceID sess; ID := sNodeID sess;
     ParentID := sNodeParentID sess; Name := sFilename sess;
     Blobsize := sSize sess; BlobID := sID sess |}.

(** [CreateNodeForUpload]. The id cache entry written for a new target
    only logs when it fails and is left out; the deferred unlock runs
    after the body, whatever the body returns. *)
Definition CreateNodeForUpload (sess : Session) (initAttrs : gmap string string)
    (st : State) : (Error + Node) * State :=
  let n := new_node sess in
  if fails env OpReadSpaceRoot then (inl (Failed OpReadSpaceRoot), st)
  else if fails env OpCheckLock then (inl (Failed OpCheckLock), st)
  else
    let '((unlock, err), st) :=
      if sNodeExists sess
      then updateExistingNode sess n (sSpaceID sess) (to_uint64 (sSize sess)) st
      else initNewNode sess n (to_uint64 (sSize sess)) st in
    let '(res, st) :=
      match err with
      | Some e => (inl e, st)
      | None =>
          match SetXattrs n (technical_attrs sess n initAttrs) st with
          | None => (inl (Failed OpSetXattrs), st)
          | Some st =>
              match Persist st with
              | None => (inl (Failed OpPersist), st)
              | Some st => (inr n, st)
              end
          end
      end in
    (res, run_unlock unlock st).

End Store.
End Upload.

(** ** decomposedfs: the postprocessing consumer and GetQuota *)

Module Decomposedfs.
Import Go.

Record ResourceId := {
  StorageId : string;
  SpaceId : string;
  OpaqueId : string;
}.

Record Reference := {
  ResourceID : option ResourceId;
  Path : string;
}.

Definition User := string.

(** [events.PostprocessingFinished]. *)
Record PostprocessingFinished := {
  UploadID : string;
  Outcome : string;
  ExecutingUser : User;
}.

(** [events.VirusscanFinished]. *)
Record VirusscanFinished := {
  vUploadID : string;
  vResourceID : option ResourceId;
  vOutcome : string;
  vErrorMsg : string;
  vDescription : string;
  vScandate : Z;
  vExecutingUser : User;
}.

(** [events.UploadReady]. *)
Record UploadReady := {
  rUploadID : string;
  rFailed : bool;
  rExecutingUser : User;
  rFileRef : Reference;
}.

Inductive Event :=
| EvPostprocessingFinished (ev : PostprocessingFinished)
| EvVirusscanFinished (ev : VirusscanFinished)
| EvOther.

(** The outcome constants of package [events]; an outcome is a string.
    Modelled from the spec: the package is not part of the sources, the
    event description gives the outcomes continue, abort and delete. *)
Definition PPOutcomeContinue : string := "continue".
Definition PPOutcomeAbort : string := "abort".
Definition PPOutcomeDelete : string := "delete".

Record Node := {
  SpaceID : string;
  ID : string;
  ParentID : string;
}.

(** [upload.Upload]: [Info.Storage], [Info.MetaData] and the [Node] field
    the consumer assigns. *)
Record Upload := {
  InfoID : string;
  InfoStorage : gmap string string;
  InfoMetaData : gmap string string;
  upNode : option Node;
}.

Definition with_Node (up : Upload) (n : Node) : Upload :=
  {| InfoID := InfoID up; InfoStorage := InfoStorage up;
     InfoMetaData := InfoMetaData up; upNode := Some n |}.

(** [provider.FileVersion]: key and mtime (uint64). *)
Record FileVersion := {
  Key : string;
  Mtime : Z;
}.

(** The calls of the consumer that change the storage, in the order they
    are issued. *)
Inductive Call :=
| CFinalize (uploadID : string)
| CPropagate (n : Node)
| CRemoveStat (u : User) (id : ResourceId)
| CCleanup (uploadID : string) (failed keepUpload : bool)
| CPublish (ev : UploadReady)
| CDelete (ref : Reference)
| CPurgeRecycleItem (ref : Reference) (key path : string)
| CRestoreRevision (ref : Reference) (key : string)
| CDeleteRevision (ref : Reference) (key : string)
| CSetScanData (n : Node) (description : string) (scandate : Z).

(** The packages the consumer calls into, over a storage state [W].
    A [bool] result is [true] when the call returns no error, an
    [option] result is [None] when it returns an error. *)
Class Services (W : Type) := {
  upload_Get : string -> W -> option Upload;
  Finalize : Upload -> W -> bool * W;
  ReadNode : string -> string -> W -> option Node;
  SetTMTime : Node -> W -> W;
  Propagate : Node -> W -> bool * W;
  RemoveStat : User -> ResourceId -> W -> W;
  Cleanup : Upload -> bool -> bool -> W -> W;
  Publish : UploadReady -> W -> bool * W;
  RelativePath : string -> string -> string;
  NodeFromResource : User -> Reference -> W -> option Node;
  ListRevisions : User -> Reference -> W -> list FileVersion * bool;
  Delete : User -> Reference -> W -> bool * W;
  PurgeRecycleItem : User -> Reference -> string -> string -> W -> bool * W;
  RestoreRevision : User -> Reference -> string -> W -> bool * W;
  DeleteRevision : User -> Reference -> string -> W -> bool * W;
  SetScanData : Node -> string -> Z -> W -> bool * W;
}.

Section Consumer.
Context {W : Type} `{Services W}.

(** The state of one consumer: the storage, the calls issued so far,
    the [UploadReady] events that went out and the error log. *)
Record St := {
  world : W;
  calls : list Call;
  published : list UploadReady;
  log : list string;
}.

Definition logf (msg : string) (st : St) : St :=
  {| world := world st; calls := calls st;
     published := published st; log := log st ++ [msg] |}.

Definition step (c : Call) (w : W) (st : St) : St :=
  {| world := w; calls := calls st ++ [c];
     published := published st; log := log st |}.

Definition emit (ev : UploadReady) (st : St) : St :=
  {| world := world st; calls := calls st;
     published := published st ++ [ev]; log := log st |}.

(** [switch ev.Outcome] of the [PostprocessingFinished] case: the flags
    [failed] and [keepUpload]. *)
Definition outcome_flags (ev : PostprocessingFinished) (up : Upload) (st : St)
    : bool * bool * St :=
  if String.eqb (Outcome ev) PPOutcomeAbort then (true, true, st)
  else if String.eqb (Outcome ev) PPOutcomeContinue then
    let '(ok, w) := Finalize up (world st) in
    let st := step (CFinalize (UploadID ev)) w st in
    if ok then (false, false, st)
    else (true, true, logf "could not finalize upload" st)
  else if String.eqb (Outcome ev) PPOutcomeDelete then (true, false, st)
  else
    (* default: log, then fall through to the abort case *)
    (true, true, logf "unknown postprocessing outcome - aborting" st).

Definition upload_ready (ev : PostprocessingFinished) (up : Upload) (failed : bool)
    : UploadReady :=
  {| rUploadID := UploadID ev;
     rFailed := failed;
     rExecutingUser := ExecutingUser ev;
     rFileRef :=
       {| ResourceID :=
            Some {| StorageId := map_get (InfoMetaData up) "providerID";
                    SpaceId := map_get (InfoStorage up) "SpaceRoot";
                    OpaqueId := map_get (InfoStorage up) "SpaceRoot" |};
          Path := RelativePath (map_get (InfoMetaData up) "dir")
                               (map_get (InfoMetaData up) "filename") |} |}.

(** The part of [postprocessingFinished] behind the outcome switch. *)
Definition conclude (ev : PostprocessingFinished) (up : Upload)
    (failed keepUpload : bool) (st : St) : St :=
  match ReadNode (map_get (InfoStorage up) "SpaceRoot")
                 (map_get (InfoStorage up) "NodeId") (world st) with
  | None => logf "could not read node" st
  | Some n =>
      let up := with_Node up n in
      let st :=
        match ReadNode (map_get (InfoStorage up) "SpaceRoot") (ParentID n)
                       (world st) with
        | None => logf "could not read parent" st
        | Some p =>
            let '(ok, w) := Propagate p (SetTMTime p (world st)) in
            let st := step (CPropagate p) w st in
            if ok then st else logf "could not propagate etag change" st
        end in
      let rid := {| StorageId := ""; SpaceId := SpaceID n; OpaqueId := ID n |} in
      let st := step (CRemoveStat (ExecutingUser ev) rid)
                     (RemoveStat (ExecutingUser ev) rid (world st)) st in
      let st := step (CCleanup (UploadID ev) failed keepUpload)
                     (Cleanup up failed keepUpload (world st)) st in
      let ready := upload_ready ev up failed in
      let '(ok, w) := Publish ready (world st) in
      let st := step (CPublish ready) w st in
      if ok then emit ready st
      else logf "Failed to publish UploadReady event" st
  end.

Definition postprocessingFinished (ev : PostprocessingFinished) (st : St) : St :=
  match upload_Get (UploadID ev) (world st) with
  | None => logf "Failed to get upload" st
  | Some up =>
      let '(failed, keepUpload, st) := outcome_flags ev up st in
      conclude ev up failed keepUpload st
  end.

(** One round of the loop that fills the map [versions] and finds the
    greatest mtime [nv] of the on-demand scan. *)
Definition remember_step (acc : gmap Z string * Z) (v : FileVersion)
    : gmap Z string * Z :=
  let '(versions, nv) := acc in
  (<[Mtime v := Key v]> versions, if nv <? Mtime v then Mtime v else nv).

Definition remember (revs : list FileVersion) : gmap Z string * Z :=
  fold_left remember_step revs (∅, 0).

(** What the loop over the revisions has established after the revisions
    [seen]. *)
Definition remembered (seen : list FileVersion) (acc : gmap Z string * Z) : Prop :=
  (forall m k, fst acc !! m = Some k ->
               exists v, In v seen /\ Mtime v = m /\ Key v = k) /\
  (forall v, In v seen -> is_Some (fst acc !! Mtime v)) /\
  (forall v, In v seen -> Mtime v <= snd acc) /\
  (snd acc = 0 \/ exists v, In v seen /\ Mtime v = snd acc).

Definition version_key (versions : gmap Z string) (nv : Z) : string :=
  default "" (versions !! nv).

(** The loop that deletes the revisions that were not there before. *)
Definition delete_new (u : User) (ref : Reference) (versions : gmap Z string)
    (revs : list FileVersion) (st : St) : St :=
  fold_left
    (fun st v =>
       match versions !! Mtime v with
       | Some _ => st
       | None =>
           let '(ok, w) := DeleteRevision u ref (Key v) (world st) in
           let st := step (CDeleteRevision ref (Key v)) w st in
           if ok then st else logf "Failed to delete revision" st
       end)
    revs st.

Definition remove_stat (ev : VirusscanFinished) (n : Node) (st : St) : St :=
  let rid := {| StorageId := ""; SpaceId := SpaceID n; OpaqueId := ID n |} in
  step (CRemoveStat (vExecutingUser ev) rid)
       (RemoveStat (vExecutingUser ev) rid (world st)) st.

(** The branch [ev.Outcome == events.PPOutcomeDelete] of an on-demand
    scan. *)
Definition delete_infected (ev : VirusscanFinished) (ref : Reference) (n : Node)
    (st : St) : St :=
  let u := vExecutingUser ev in
  (* check if there a previous versions existing *)
  let '(revs, ok) := ListRevisions u ref (world st) in
  if (length revs =? 0)%nat then
    let st := if ok then st
              else logf "Failed to list revisions. Fallback to delete file" st in
    (* no versions -> trash file *)
    let '(ok, w) := Delete u ref (world st) in
    let st := step (CDelete ref) w st in
    if negb ok then logf "Failed to delete infected resource" st
    else
      (* now purge it from the recycle bin *)
      let spaceRef :=
        {| ResourceID := Some {| StorageId := ""; SpaceId := SpaceID n;
                                 OpaqueId := SpaceID n |};
           Path := "" |} in
      let '(ok, w) := PurgeRecycleItem u spaceRef (ID n) "/" (world st) in
      let st := step (CPurgeRecycleItem spaceRef (ID n) "/") w st in
      let st := if ok then st
                else logf "Failed to purge infected resource from trash" st in
      remove_stat ev n st
  else
    (* we have versions - find the newest *)
    let '(versions, nv) := remember revs in
    (* restore newest version *)
    let '(ok, w) := RestoreRevision u ref (version_key versions nv) (world st) in
    let st := step (CRestoreRevision ref (version_key versions nv)) w st in
    if negb ok then logf "Failed to restore revision" st
    else
      (* now find infected version *)
      let '(revs, ok) := ListRevisions u ref (world st) in
      let st := if ok then st
                else logf "Error listing revisions after restore" st in
      let st := delete_new u ref versions revs st in
      remove_stat ev n st.

Definition set_scan_data (ev : VirusscanFinished) (n : Node) (st : St) : St :=
  let '(ok, w) := SetScanData n (vDescription ev) (vScandate ev) (world st) in
  let st := step (CSetScanData n (vDescription ev) (vScandate ev)) w st in
  if negb ok then logf "Failed to set scan results" st
  else remove_stat ev n st.

Definition virusscanFinished (ev : VirusscanFinished) (st : St) : St :=
  if negb (String.eqb (vErrorMsg ev) "") then
    (* scan failed somehow *)
    st
  else if String.eqb (vUploadID ev) "" then
    (* uploadid is empty -> this was an on-demand scan *)
    let ref := {| ResourceID := vResourceID ev; Path := "" |} in
    match NodeFromResource (vExecutingUser ev) ref (world st) with
    | None => logf "Failed to get node after scan" st
    | Some n =>
        if String.eqb (vOutcome ev) PPOutcomeDelete
        then delete_infected ev ref n st
        else set_scan_data ev n st
    end
  else
    (* uploadid is not empty -> this is an async upload *)
    match upload_Get (vUploadID ev) (world st) with
    | None => logf "Failed to get upload" st
    | Some up =>
        match ReadNode (map_get (InfoStorage up) "SpaceRoot")
                       (map_get (InfoStorage up) "NodeId") (world st) with
        | None => logf "Failed to get node after scan" st
        | Some n => set_scan_data ev n st
        end
    end.

(** One iteration of the loop of [Postprocessing]. *)
Definition handle (event : Event) (st : St) : St :=
  match event with
  | EvPostprocessingFinished ev => postprocessingFinished ev st
  | EvVirusscanFinished ev => virusscanFinished ev st
  | EvOther => logf "Unknown event" st
  end.

(** [Postprocessing] on the events a channel delivers. *)
Definition Postprocessing (ch : list Event) (st : St) : St :=
  fold_left (fun st event => handle event st) ch st.

(** The event with the same upload and user and the outcome abort. *)
Definition as_abort (ev : PostprocessingFinished) : PostprocessingFinished :=
  {| UploadID := UploadID ev; Outcome := PPOutcomeAbort;
     ExecutingUser := ExecutingUser ev |}.

(** Two consumer states that differ in the error log only. *)
Definition same_effects (st st' : St) : Prop :=
  world st = world st' /\ calls st = calls st' /\ published st = published st'.

End Consumer.

Arguments St : clear implicits.

(** *** GetQuota *)

Inductive QuotaError :=
| BadRequest (msg : string)
| NotFound (msg : string)
| QInternalError (msg : string)
| PermissionDenied (msg : string)
| LookupFailed            (* the error of NodeFromResource *)
| ResourceInfoFailed      (* the error of AsResourceInfo *)
| AvailableSizeFailed     (* the error of GetAvailableSize *)
| ParseFailed.            (* the error of strconv.ParseUint *)

(** [typespb.OpaqueEntry]. *)
Record OpaqueEntry := {
  Decoder : string;
  Value : string;
}.

(** [provider.ResourceInfo]: the size (uint64) and the opaque map, [None]
    when [Opaque] or its [Map] is nil. *)
Record ResourceInfo := {
  Size : Z;
  Opaque : option (gmap string OpaqueEntry);
}.

(** The node [NodeFromResource] resolves. *)
Record QuotaNode := {
  qExists : bool;
  qID : string;
  qParentID : string;
  qName : string;
}.

(** The answers of the collaborators of one [GetQuota] call. *)
Record QuotaEnv := {
  lookup_node : option QuotaNode;         (* fs.lu.NodeFromResource *)
  permissions : option bool;              (* AssemblePermissions: rp.GetQuota *)
  canListAllSpaces : bool;
  resource_info : option ResourceInfo;    (* n.AsResourceInfo *)
  available_size : option Z;              (* node.GetAvailableSize, uint64 *)
}.

Section Quota.
(** The quota values of package [node] that are not numbers of bytes,
    and [filepath.Join]. *)
Variables QuotaUncalculated QuotaUnknown QuotaUnlimited : string.
Variable filepath_Join : string -> string -> string.

Definition quota_string (ri : ResourceInfo) : string :=
  match Opaque ri with
  | Some m =>
      match m !! "quota" with
      | Some entry =>
          if String.eqb (Decoder entry) "plain" then Value entry else QuotaUnknown
      | None => QuotaUnknown
      end
  | None => QuotaUnknown
  end.

(** [GetQuota]: [ref] is [None] for a nil reference; the result is
    [(total, inUse, remaining)]. *)
Definition GetQuota (env : QuotaEnv) (ref : option Reference)
    : QuotaError + (Z * Z * Z) :=
  match ref with
  | None => inl (BadRequest "no space given")
  | Some _ =>
      match lookup_node env with
      | None => inl LookupFailed
      | Some n =>
          if negb (qExists n) then inl (NotFound (filepath_Join (qParentID n) (qName n)))
          else
            match permissions env with
            | None => inl (QInternalError "")
            | Some rpGetQuota =>
                if negb rpGetQuota && negb (canListAllSpaces env)
                then inl (PermissionDenied (qID n))
                else
                  match resource_info env with
                  | None => inl ResourceInfoFailed
                  | Some ri =>
                      let quotaStr := quota_string ri in
                      match available_size env with
                      | None => inl AvailableSizeFailed
                      | Some remaining =>
                          if String.eqb quotaStr QuotaUncalculated
                             || String.eqb quotaStr QuotaUnknown
                          then
                            (* best we can do is return current total *)
                            inr (0, Size ri, remaining)
                          else if String.eqb quotaStr QuotaUnlimited
                          then inr (0, Size ri, remaining)
                          else
                            match ParseUint quotaStr with
                            | None => inl ParseFailed
                            | Some total =>
                                if total <=? remaining then
                                  (* Prevent overflowing *)
                                  if total <=? Size ri
                                  then inr (total, Size ri, 0)
                                  else inr (total, Size ri, to_uint64 (total - Size ri))
                                else inr (total, Size ri, remaining)
                            end
                      end
                  end
            end
      end
  end.
End Quota.
End Decomposedfs.

(** ** http/services/appprovider: handleNew *)

Module AppProvider.
Import Go.

Inductive AppError :=
| appErrorNotFound
| appErrorAlreadyExists
| appErrorUnimplemented
| appErrorInvalidParameter
| appErrorServerError.

Inductive Code := CODE_OK | CODE_NOT_FOUND | CODE_OTHER.
Inductive ResourceType := RESOURCE_TYPE_FILE | RESOURCE_TYPE_CONTAINER | RESOURCE_TYPE_OTHER.

Record ResourceId := {
  StorageId : string;
  OpaqueId : string;
}.

(** [provider.Reference]: a resource id or a path. *)
Inductive Reference :=
| ByResourceId (id : ResourceId)
| ByPath (path : string).

(** [provider.StatResponse]: the status code and the info. *)
Record StatResponse := {
  StatusCode : Code;
  InfoType : ResourceType;
  InfoPath : string;
  InfoId : ResourceId;
}.

Record FileUploadProtocol := {
  Protocol : string;
  UploadEndpoint : string;
  Token : string;
}.

Record InitiateFileUploadResponse := {
  uStatusCode : Code;
  Protocols : list FileUploadProtocol;
}.

(** The calls that leave the handler. *)
Inductive Call :=
| CStat (ref : Reference)
| CInitiateFileUpload (ref : Reference)
| CHttpPut (endpoint token : string).

(** What the handler writes. *)
Inductive Response :=
| Error (code : AppError) (msg : string)
| Json (file_id : string).

(** The gateway and the data gateway as seen from the handler. Every
    answer may depend on the calls made before; [None] is an error
    result. *)
Class Gateway := {
  GetGatewayServiceClient : bool;
  Stat : list Call -> Reference -> option StatResponse;
  InitiateFileUpload : list Call -> Reference -> option InitiateFileUploadResponse;
  NewRequest : string -> bool;
  HttpPut : list Call -> string -> string -> option Z;
  OwnCloudResourceIDUnwrap : string -> option ResourceId;
  OwnCloudResourceIDWrap : ResourceId -> string;
  path_Join : string -> string -> string;
  MakeRelativePath : string -> string;
}.

(** [r.URL.Query()]: [Get] reads the first value of a key, [""] if there
    is none. *)
Record Request := {
  Query : gmap string string;
}.

Definition StatusOK : Z := 200.
Definition StatusForbidden : Z := 403.

Section Handler.
Context `{Gateway}.

(** The loop over [createRes.Protocols]: the last [simple] protocol. *)
Definition simple_endpoint (ps : list FileUploadProtocol) : string * string :=
  fold_left
    (fun '(ep, token) p =>
       if String.eqb (Protocol p) "simple" then (UploadEndpoint p, Token p)
       else (ep, token))
    ps ("", "").

(** The end of [handleNew]: the HTTP PUT with an empty body and the
    stat of the created file. *)
Definition upload_empty (fileRef : Reference) (createRes : InitiateFileUploadResponse)
    (t3 : list Call) : Response * list Call :=
  let '(ep, token) := simple_endpoint (Protocols createRes) in
  if negb (NewRequest ep)
  then (Error appErrorServerError "failed to create the file", t3)
  else
    let t4 := (t3 ++ [CHttpPut ep token])%list in
    match HttpPut t3 ep token with
    | None => (Error appErrorServerError "failed to create the file", t4)
    | Some status =>
        if negb (status =? StatusForbidden) && negb (status =? StatusOK)
        then (Error appErrorServerError "failed to create the file", t4)
        else
          (* Stat the newly created file *)
          let t5 := (t4 ++ [CStat fileRef])%list in
          match Stat t4 fileRef with
          | None => (Error appErrorServerError "statting the created file failed", t5)
          | Some statRes =>
              match StatusCode statRes with
              | CODE_OK =>
                  match InfoType statRes with
                  | RESOURCE_TYPE_FILE =>
                      (Json (OwnCloudResourceIDWrap (InfoId statRes)), t5)
                  | _ =>
                      (Error appErrorInvalidParameter
                             "the given file id does not point to a file", t5)
                  end
              | _ => (Error appErrorServerError "statting the created file failed", t5)
              end
          end
    end.

Definition handleNew (r : Request) : Response * list Call :=
  if negb GetGatewayServiceClient
  then (Error appErrorServerError "error getting grpc gateway client", [])
  else if negb (String.eqb (map_get (Query r) "template") "")
  then (Error appErrorUnimplemented "template is not implemented", [])
  else
    let parentContainerID := map_get (Query r) "parent_container_id" in
    if String.eqb parentContainerID ""
    then (Error appErrorInvalidParameter "missing parent container ID", [])
    else
      match OwnCloudResourceIDUnwrap parentContainerID with
      | None => (Error appErrorInvalidParameter "invalid parent container ID", [])
      | Some parentContainerRef =>
          let filename := map_get (Query r) "filename" in
          if String.eqb filename ""
          then (Error appErrorInvalidParameter "missing filename", [])
          else
            let '(dirPart, filePart) := path_Split filename in
            if negb (String.eqb dirPart "") || negb (String.eqb filePart filename)
            then (Error appErrorInvalidParameter
                        "the filename must not contain a path segment", [])
            else
              let t1 := [CStat (ByResourceId parentContainerRef)] in
              match Stat [] (ByResourceId parentContainerRef) with
              | None => (Error appErrorServerError "error sending a grpc stat request", t1)
              | Some parentContainer =>
                  match StatusCode parentContainer with
                  | CODE_OK =>
                      match InfoType parentContainer with
                      | RESOURCE_TYPE_CONTAINER =>
                          let fileRef :=
                            ByPath (path_Join (InfoPath parentContainer)
                                              (MakeRelativePath filename)) in
                          let t2 := (t1 ++ [CStat fileRef])%list in
                          match Stat t1 fileRef with
                          | None => (Error appErrorServerError "failed to stat the file", t2)
                          | Some statFileRes =>
                              match StatusCode statFileRes with
                              | CODE_OK =>
                                  (Error appErrorAlreadyExists "the file already exists", t2)
                              | CODE_OTHER =>
                                  (Error appErrorServerError
                                         "statting the file returned unexpected status code", t2)
                              | CODE_NOT_FOUND =>
                                  (* Create empty file via storageprovider *)
                                  let t3 := (t2 ++ [CInitiateFileUpload fileRef])%list in
                                  match InitiateFileUpload t2 fileRef with
                                  | None =>
                                      (Error appErrorServerError
                                             "error calling InitiateFileUpload", t3)
                                  | Some createRes =>
                                      match uStatusCode createRes with
                                      | CODE_OK =>
                                          upload_empty fileRef createRes t3
                                      | _ =>
                                          (Error appErrorServerError
                                                 "error calling InitiateFileUpload", t3)
                                      end
                                  end
                              end
                          end
                      | _ =>
                          (Error appErrorInvalidParameter
                                 "the parent container id does not point to a container", t1)
                      end
                  | _ =>
                      (Error appErrorNotFound
                             "the parent container is not accessible or does not exist", t1)
                  end
              end
      end.
End Handler.
End AppProvider.

(** ** share/manager/json: get and GetShare *)

Module ShareJSON.

Record UserId := {
  Idp : string;
  uOpaqueId : string;
}.

Record User := {
  Id : UserId;
  Groups : list string;
}.

Inductive Grantee :=
| GranteeUser (id : UserId)
| GranteeGroup (group : string).

Record ResourceId := {
  StorageId : string;
  OpaqueId : string;
}.

(** [collaboration.Share]; [sId] is [Id.OpaqueId]. *)
Record Share := {
  sId : string;
  sResourceId : ResourceId;
  sGrantee : Grantee;
  sOwner : UserId;
  sCreator : UserId;
}.

Record ShareKey := {
  kOwner : UserId;
  kResourceId : ResourceId;
  kGrantee : Grantee;
}.

(** [collaboration.ShareReference]: the id, the key, or neither. *)
Inductive ShareReference :=
| RefId (id : string)
| RefKey (key : ShareKey)
| RefUnset.

(** The error types of package [errtypes] the manager returns. *)
Inductive Error :=
| NotFound (msg : string)
| AlreadyExists (msg : string)
| Other (msg : string).

(** Packages [utils] and [share] and the printers of the protocol
    messages. *)
Class Helpers := {
  UserEqual : UserId -> UserId -> bool;
  ResourceIDEqual : ResourceId -> ResourceId -> bool;
  GranteeEqual : Grantee -> Grantee -> bool;
  IsCreatedByUser : Share -> User -> bool;
  IsGrantedToUser : Share -> User -> bool;
  ref_String : ShareReference -> string;
  id_String : string -> string;
  key_String : ShareKey -> string;
}.

Section Manager.
Context `{Helpers}.

Fixpoint getByID (shares : list Share) (id : string) : Error + Share :=
  match shares with
  | [] => inl (NotFound (id_String id))
  | s :: shares' =>
      if String.eqb (sId s) id then inr s else getByID shares' id
  end.

Fixpoint getByKey (shares : list Share) (key : ShareKey) : Error + Share :=
  match shares with
  | [] => inl (NotFound (key_String key))
  | s :: shares' =>
      if (UserEqual (kOwner key) (sOwner s) || UserEqual (kOwner key) (sCreator s))
         && ResourceIDEqual (kResourceId key) (sResourceId s)
         && GranteeEqual (kGrantee key) (sGrantee s)
      then inr s
      else getByKey shares' key
  end.

(** The [switch] at the head of [get]. *)
Definition resolve (shares : list Share) (ref : ShareReference) : Error + Share :=
  match ref with
  | RefId id => getByID shares id
  | RefKey key => getByKey shares key
  | RefUnset => inl (NotFound (ref_String ref))
  end.

Definition get (shares : list Share) (user : User) (ref : ShareReference)
    : Error + Share :=
  match resolve shares ref with
  | inl err => inl err
  | inr s =>
      (* check if we are the owner *)
      if IsCreatedByUser s user then inr s
      (* or the grantee *)
      else if IsGrantedToUser s user then inr s
      (* we return not found to not disclose information *)
      else inl (NotFound (ref_String ref))
  end.

Definition GetShare (shares : list Share) (user : User) (ref : ShareReference)
    : Error + Share :=
  match get shares user ref with
  | inl err => inl err
  | inr share => inr share
  end.
End Manager.
End ShareJSON.

(** ** Concrete collaborators

    Small instances of the interfaces above, on which the embedded
    functions run. *)

Module UploadModel.
Import Go Upload.

(** Paths as the on-disk layout composes them; time stamps are printed as
    their count of nanoseconds. *)
#[export] Instance lookup : Lookup := {|
  InternalPath spaceID nodeID := "/spaces/" ++ spaceID ++ "/nodes/" ++ nodeID;
  LockfilePath p := p ++ ".mlock";
  FormatRFC3339Nano t := FormatInt t;
  ParseRFC3339Nano s := ParseUint s;
  CalculateEtag id mtime := Some (id ++ ":" ++ FormatInt mtime);
  RevisionIDDelimiter := ".REV.";
  ProcessingStatus := "processing:";
  IDAttr := "user.ocis.id";
  MTimeAttr := "user.ocis.mtime";
  TypeAttr := "user.ocis.type";
  ParentidAttr := "user.ocis.parentid";
  NameAttr := "user.ocis.name";
  BlobIDAttr := "user.ocis.blobid";
  BlobsizeAttr := "user.ocis.blobsize";
  StatusPrefix := "user.ocis.nodestatus";
  ChecksumPrefix := "user.ocis.cs.";
|}.

(** No call fails, the existing target has 5 bytes and mtime 1000. *)
Definition quiet : Env := {|
  now := 2000;
  fails := fun _ => false;
  old_ID := "n1";
  old_Blobsize := 5;
  old_MTime := Some 1000;
  quota_ok := fun _ _ _ => true;
|}.

(** As [quiet], with a quota that is used up. *)
Definition quota_exceeded : Env := {|
  now := 2000;
  fails := fun _ => false;
  old_ID := "n1";
  old_Blobsize := 5;
  old_MTime := Some 1000;
  quota_ok := fun _ _ _ => false;
|}.

(** An upload of 8 bytes to the node [n1] of space [s1]. *)
Definition session (exists_ : bool) (ifMatch ifNoneMatch ifUnmodifiedSince : string)
    : Session := {|
  sID := "u1";
  sSpaceID := "s1";
  sNodeID := "n1";
  sNodeParentID := "p1";
  sFilename := "a.txt";
  sSize := 8;
  sNodeExists := exists_;
  sMTime := None;
  sHeaderIfMatch := ifMatch;
  sHeaderIfNoneMatch := ifNoneMatch;
  sHeaderIfUnmodifiedSince := ifUnmodifiedSince;
|}.

Definition live_file : File := {|
  xattrs := {[ "user.ocis.blobid" := "b0"; "user.ocis.blobsize" := "5";
               "user.ocis.mtime" := "1000"; "user.ocis.name" := "a.txt" ]};
  modtime := 1000;
|}.

(** A store that holds the live node [n1] and a fresh session. *)
Definition existing : State := {|
  files := {[ "/spaces/s1/nodes/n1" := live_file ]};
  held := [];
  locklog := [];
  MetaData := ∅;
  persisted := None;
|}.

(** An empty store and a fresh session. *)
Definition empty : State := {|
  files := ∅;
  held := [];
  locklog := [];
  MetaData := ∅;
  persisted := None;
|}.

End UploadModel.

Module DecomposedfsModel.
Import Go Decomposedfs.

(** Modelled from the spec: the upload package, the tree and the revision
    store are not part of the sources. A store keeps the persisted upload
    sessions by id, the attributes of the live nodes and the attributes a
    running upload saved in the version node (both by node id), the
    revisions and the mtime of every node, and the trash. *)
Record Store := {
  sessions : gmap string Upload;
  attrs : gmap string (gmap string string);
  saved : gmap string (gmap string string);
  revisions : gmap string (list FileVersion);
  mtimes : gmap string Z;
  trash : list string;
}.

Definition node_of (ref : Reference) : string :=
  match ResourceID ref with
  | Some rid => OpaqueId rid
  | None => ""
  end.

(** Modelled from the spec: cleanup deletes the session unless the upload
    is kept, restores the prior attributes from the version node when the
    node metadata is reverted and the target existed before, and removes
    the processing status. *)
Definition sim_Cleanup (up : Upload) (failed keepUpload : bool) (w : Store) : Store :=
  let nid := map_get (InfoStorage up) "NodeId" in
  let reverted :=
    if failed then
      match saved w !! nid with
      | Some old => <[nid := old ∪ default ∅ (attrs w !! nid)]> (attrs w)
      | None => attrs w
      end
    else attrs w in
  {| sessions := if keepUpload then sessions w else delete (InfoID up) (sessions w);
     attrs := alter (delete "status") nid reverted;
     saved := saved w;
     revisions := revisions w;
     mtimes := mtimes w;
     trash := trash w |}.

(** Modelled from the spec: restoring a revision makes it the live state
    and keeps the replaced state as a new revision named after the mtime
    it had. *)
Definition sim_RestoreRevision (ref : Reference) (key : string) (w : Store)
    : bool * Store :=
  let nid := node_of ref in
  let revs := default [] (revisions w !! nid) in
  match find (fun v => String.eqb (Key v) key) revs with
  | None => (false, w)
  | Some v =>
      let cur := default 0 (mtimes w !! nid) in
      let replaced := {| Key := nid ++ ".REV." ++ FormatInt cur; Mtime := cur |} in
      (true,
       {| sessions := sessions w; attrs := attrs w; saved := saved w;
          revisions := <[nid := (revs ++ [replaced])%list]> (revisions w);
          mtimes := <[nid := Mtime v]> (mtimes w);
          trash := trash w |})
  end.

Definition sim_DeleteRevision (ref : Reference) (key : string) (w : Store)
    : bool * Store :=
  let nid := node_of ref in
  let revs := default [] (revisions w !! nid) in
  (true,
   {| sessions := sessions w; attrs := attrs w; saved := saved w;
      revisions :=
        <[nid := List.filter (fun v => negb (String.eqb (Key v) key)) revs]> (revisions w);
      mtimes := mtimes w;
      trash := trash w |}).

Definition sim_Delete (ref : Reference) (w : Store) : bool * Store :=
  (true,
   {| sessions := sessions w; attrs := delete (node_of ref) (attrs w); saved := saved w;
      revisions := revisions w; mtimes := mtimes w;
      trash := node_of ref :: trash w |}).

Definition sim_Purge (key : string) (w : Store) : bool * Store :=
  (true,
   {| sessions := sessions w; attrs := attrs w; saved := saved w;
      revisions := revisions w; mtimes := mtimes w;
      trash := List.filter (fun k => negb (String.eqb k key)) (trash w) |}).

Definition sim_SetScanData (n : Node) (description : string) (w : Store) : bool * Store :=
  (true,
   {| sessions := sessions w;
      attrs := <[ID n := <["scan" := description]> (default ∅ (attrs w !! ID n))]> (attrs w);
      saved := saved w; revisions := revisions w; mtimes := mtimes w;
      trash := trash w |}).

(** Modelled from the spec: [get] loads the persisted session, finalize
    and propagation succeed, every event is published. *)
#[export] Instance services : Services Store := {|
  upload_Get id w := sessions w !! id;
  Finalize up w := (true, w);
  ReadNode spaceID nodeID w :=
    Some {| SpaceID := spaceID; ID := nodeID;
            ParentID := map_get (default ∅ (attrs w !! nodeID)) "parentid" |};
  SetTMTime p w := w;
  Propagate p w := (true, w);
  RemoveStat u rid w := w;
  Cleanup := sim_Cleanup;
  Publish ev w := (true, w);
  RelativePath dir filename := "." ++ dir ++ filename;
  NodeFromResource u ref w :=
    match ResourceID ref with
    | Some rid => Some {| SpaceID := SpaceId rid; ID := OpaqueId rid; ParentID := "" |}
    | None => None
    end;
  ListRevisions u ref w := (default [] (revisions w !! node_of ref), true);
  Delete u ref w := sim_Delete ref w;
  PurgeRecycleItem u ref key path w := sim_Purge key w;
  RestoreRevision u ref key w := sim_RestoreRevision ref key w;
  DeleteRevision u ref key w := sim_DeleteRevision ref key w;
  SetScanData n description scandate w := sim_SetScanData n description w;
|}.

(** The upload [u1] of [a.txt] to the node [n1] of space [s1]. *)
Definition upload_u1 : Upload := {|
  InfoID := "u1";
  InfoStorage := {[ "SpaceRoot" := "s1"; "NodeId" := "n1" ]};
  InfoMetaData := {[ "providerID" := "p"; "dir" := "/"; "filename" := "a.txt" ]};
  upNode := None;
|}.

(** A store with the session [u1] in postprocessing. *)
Definition processing : Store := {|
  sessions := {[ "u1" := upload_u1 ]};
  attrs := {[ "n1" := {[ "parentid" := "root"; "status" := "processing:u1" ]} ]};
  saved := ∅;
  revisions := ∅;
  mtimes := {[ "n1" := 50 ]};
  trash := [];
|}.

(** A store where [n1] has mtime 300 and the prior versions of mtime 100
    and 200. *)
Definition versioned : Store := {|
  sessions := ∅;
  attrs := {[ "n1" := {[ "parentid" := "root" ]} ]};
  saved := ∅;
  revisions := {[ "n1" := [ {| Key := "n1.REV.100"; Mtime := 100 |};
                           {| Key := "n1.REV.200"; Mtime := 200 |} ] ]};
  mtimes := {[ "n1" := 300 ]};
  trash := [];
|}.

(** A store where [n1] has no prior version. *)
Definition unversioned : Store := {|
  sessions := ∅;
  attrs := {[ "n1" := {[ "parentid" := "root" ]} ]};
  saved := ∅;
  revisions := ∅;
  mtimes := {[ "n1" := 300 ]};
  trash := [];
|}.

Definition start (w : Store) : St Store :=
  {| world := w; calls := []; published := []; log := [] |}.

Definition finished (outcome : string) : PostprocessingFinished :=
  {| UploadID := "u1"; Outcome := outcome; ExecutingUser := "alice" |}.

Definition n1 : ResourceId :=
  {| StorageId := "p"; SpaceId := "s1"; OpaqueId := "n1" |}.

(** An on-demand scan of [n1] that asks for deletion. *)
Definition scanned (errorMsg : string) : VirusscanFinished :=
  {| vUploadID := ""; vResourceID := Some n1; vOutcome := PPOutcomeDelete;
     vErrorMsg := errorMsg; vDescription := "infected"; vScandate := 400;
     vExecutingUser := "alice" |}.

End DecomposedfsModel.

Module AppProviderModel.
Import Go AppProvider.

Definition has_put (t : list Call) : bool :=
  existsb (fun c => match c with CHttpPut _ _ => true | _ => false end) t.

Definition container : ResourceId := {| StorageId := "storage"; OpaqueId := "dir1" |}.

(** A gateway with the container [dir1] at [/home]; a file exists once it
    was put. *)
#[export] Instance gateway : Gateway := {|
  GetGatewayServiceClient := true;
  Stat t ref :=
    match ref with
    | ByResourceId id =>
        Some {| StatusCode := CODE_OK; InfoType := RESOURCE_TYPE_CONTAINER;
                InfoPath := "/home"; InfoId := id |}
    | ByPath p =>
        if has_put t
        then Some {| StatusCode := CODE_OK; InfoType := RESOURCE_TYPE_FILE;
                     InfoPath := p;
                     InfoId := {| StorageId := "storage"; OpaqueId := p |} |}
        else Some {| StatusCode := CODE_NOT_FOUND; InfoType := RESOURCE_TYPE_OTHER;
                     InfoPath := ""; InfoId := {| StorageId := ""; OpaqueId := "" |} |}
    end;
  InitiateFileUpload t ref :=
    Some {| uStatusCode := CODE_OK;
            Protocols := [ {| Protocol := "simple";
                              UploadEndpoint := "http://data/upload";
                              Token := "token" |} ] |};
  NewRequest ep := true;
  HttpPut t ep token := Some 200;
  OwnCloudResourceIDUnwrap s := Some {| StorageId := "storage"; OpaqueId := s |};
  OwnCloudResourceIDWrap id := StorageId id ++ "!" ++ OpaqueId id;
  path_Join a b := a ++ "/" ++ b;
  MakeRelativePath p := p;
|}.

Definition request (template filename : string) : Request :=
  {| Query := {[ "template" := template; "parent_container_id" := "dir1";
                 "filename" := filename ]} |}.

End AppProviderModel.

Module ShareJSONModel.
Import ShareJSON.

Definition user_eq (u v : UserId) : bool :=
  String.eqb (Idp u) (Idp v) && String.eqb (uOpaqueId u) (uOpaqueId v).

(** Users and resources are equal when their fields are; a share is
    created by its owner or creator and granted to the grantee user or to
    the members of the grantee group. *)
#[export] Instance helpers : Helpers := {|
  UserEqual := user_eq;
  ResourceIDEqual a b :=
    String.eqb (StorageId a) (StorageId b) && String.eqb (OpaqueId a) (OpaqueId b);
  GranteeEqual a b :=
    match a, b with
    | GranteeUser u, GranteeUser v => user_eq u v
    | GranteeGroup g, GranteeGroup h => String.eqb g h
    | _, _ => false
    end;
  IsCreatedByUser s u := user_eq (Id u) (sOwner s) || user_eq (Id u) (sCreator s);
  IsGrantedToUser s u :=
    match sGrantee s with
    | GranteeUser g => user_eq (Id u) g
    | GranteeGroup g => existsb (String.eqb g) (Groups u)
    end;
  ref_String ref :=
    match ref with
    | RefId id => "id:<opaque_id:" ++ id ++ ">"
    | RefKey key => "key:<" ++ uOpaqueId (kOwner key) ++ ">"
    | RefUnset => ""
    end;
  id_String id := "opaque_id:" ++ id;
  key_String key := uOpaqueId (kOwner key);
|}.

Definition uid (name : string) : UserId := {| Idp := "idp"; uOpaqueId := name |}.

Definition user (name : string) : User := {| Id := uid name; Groups := [] |}.

(** A share of [alice] to [bob]. *)
Definition share1 : Share := {|
  sId := "share1";
  sResourceId := {| StorageId := "storage"; OpaqueId := "file1" |};
  sGrantee := GranteeUser (uid "bob");
  sOwner := uid "alice";
  sCreator := uid "alice";
|}.

End ShareJSONModel.

(** ** Further definitions for the properties of the consumer *)

Module DecomposedfsMore.
Import Go Decomposedfs.

(** The number of [PostprocessingFinished] events among the events of a
    channel. *)
Fixpoint count_finished (ch : list Event) : nat :=
  match ch with
  | [] => 0%nat
  | EvPostprocessingFinished _ :: ch' => S (count_finished ch')
  | _ :: ch' => count_finished ch'
  end.

(** A revision whose mtime is not a key of the map [versions]. *)
Definition unseen (versions : gmap Z string) (v : FileVersion) : bool :=
  match versions !! Mtime v with
  | Some _ => false
  | None => true
  end.

(** A space with the given used size whose quota entry has the given
    decoder and value, on a storage with the given free space. *)
Definition quota_env (decoder value : string) (size free : Z) : QuotaEnv :=
  {| lookup_node := Some {| qExists := true; qID := "n"; qParentID := "p";
                            qName := "x" |};
     permissions := Some true;
     canListAllSpaces := false;
     resource_info :=
       Some {| Size := size;
               Opaque := Some {[ "quota" := {| Decoder := decoder;
                                               Value := value |} ]} |};
     available_size := Some free |}.

End DecomposedfsMore.

(** ** http/services/appprovider: handleList, handleOpen and their helpers *)

Module AppProviderMore.
Import Go AppProvider.

(** Whether a string contains a slash. *)
Fixpoint has_slash (s : string) : bool :=
  match s with
  | EmptyString => false
  | String c s' => Ascii.eqb c "/" || has_slash s'
  end.

(** Whether a protocol is the [simple] one. *)
Definition is_simple (p : FileUploadProtocol) : bool := String.eqb (Protocol p) "simple".

(** A call that is not an upload initiation. *)
Definition not_initiate (c : Call) : Prop :=
  match c with
  | CInitiateFileUpload _ => False
  | _ => True
  end.

(** The five calls of a complete [handleNew]. *)
Definition full_trace (parent file : Reference) (ep token : string) : list Call :=
  [CStat parent; CStat file; CInitiateFileUpload file; CHttpPut ep token; CStat file].

(** [appregistry.ProviderInfo] and [appregistry.MimeTypeInfo]. *)
Record ProviderInfo := {
  Name : string;
  Address : string;
  DesktopOnly : bool;
  Description : string;
  Icon : string;
}.

Record MimeTypeInfo := {
  MimeType : string;
  Ext : string;
  AppProviders : list ProviderInfo;
  AllowCreation : bool;
  DefaultApplication : string;
}.

(** Whether an app may be shown to a user agent. *)
Definition advertised (desktop : bool) (p : ProviderInfo) : bool :=
  negb (String.eqb (Name p) "") && (desktop || negb (DesktopOnly p)).

(** [p.Address = ""]. *)
Definition set_Address (p : ProviderInfo) (a : string) : ProviderInfo :=
  {| Name := Name p; Address := a; DesktopOnly := DesktopOnly p;
     Description := Description p; Icon := Icon p |}.

(** [m.AppProviders = apps]. *)
Definition set_AppProviders (m : MimeTypeInfo) (apps : list ProviderInfo) : MimeTypeInfo :=
  {| MimeType := MimeType m; Ext := Ext m; AppProviders := apps;
     AllowCreation := AllowCreation m; DefaultApplication := DefaultApplication m |}.

Inductive ViewMode :=
| VIEW_MODE_INVALID
| VIEW_MODE_VIEW_ONLY
| VIEW_MODE_READ_ONLY
| VIEW_MODE_READ_WRITE
| VIEW_MODE_PREVIEW.

(** [provider.ResourcePermissions], the two permissions [getViewMode]
    reads. *)
Record PermissionSet := {
  InitiateFileUpload : bool;
  InitiateFileDownload : bool;
}.

Record OpenInAppResponse := {
  oStatusCode : Code;
  oMessage : string;
  AppUrl : string;
}.

(** The calls that leave [handleOpen]. *)
Inductive OpenCall :=
| OStat (ref : Reference)
| OOpenInApp (ref : Reference) (mode : ViewMode) (app : string).

(** What [handleList] writes. *)
Inductive ListResponse :=
| ListError (code : AppError) (msg : string)
| ListJson (mimeTypes : list MimeTypeInfo).

(** The app registry behind the gateway, the user agent parser and
    [utils.GetViewMode]; [None] is an error result. *)
Class Registry := {
  ListSupportedMimeTypes : option (Code * list MimeTypeInfo);
  OpenInApp : Reference -> ViewMode -> string -> option OpenInAppResponse;
  ua_Desktop : string -> bool;
  utils_GetViewMode : string -> ViewMode;
}.

Record ListRequest := {
  UserAgent : string;
}.

Section Handlers.
Context `{Gateway} `{Registry}.

(** The inner loop of [filterAppsByUserAgent]. *)
Definition visible_apps (desktop : bool) (ps : list ProviderInfo) : list ProviderInfo :=
  fold_left
    (fun apps p =>
       (* address is internal only and not needed in the client *)
       let p := set_Address p "" in
       if negb (String.eqb (Name p) "") && (desktop || negb (DesktopOnly p))
       then (apps ++ [p])%list
       else apps)
    ps [].

Definition filterAppsByUserAgent (mimeTypes : list MimeTypeInfo) (userAgent : string)
    : list MimeTypeInfo :=
  let desktop := ua_Desktop userAgent in
  fold_left
    (fun res m =>
       let apps := visible_apps desktop (AppProviders m) in
       if (0 <? length apps)%nat
       then (res ++ [set_AppProviders m apps])%list
       else res)
    mimeTypes [].

Definition handleList (r : ListRequest) : ListResponse :=
  if negb GetGatewayServiceClient
  then ListError appErrorServerError "error getting grpc gateway client"
  else
    match ListSupportedMimeTypes with
    | None => ListError appErrorServerError "error listing supported mime types"
    | Some (code, mimeTypes) =>
        match code with
        | CODE_OK => ListJson (filterAppsByUserAgent mimeTypes (UserAgent r))
        | _ => ListError appErrorServerError "error listing supported mime types"
        end
    end.

Definition getViewMode (res : PermissionSet) (vm : string) : ViewMode :=
  if negb (String.eqb vm "") then utils_GetViewMode vm
  else
    let canEdit := InitiateFileUpload res in
    let canView := InitiateFileDownload res in
    if canEdit && canView then VIEW_MODE_READ_WRITE
    else if canView then VIEW_MODE_READ_ONLY
    else VIEW_MODE_INVALID.

(** [handleOpen]; [permissions ref] is the permission set of the info the
    stat of [ref] answers with. *)
Definition handleOpen (permissions : Reference -> PermissionSet) (r : Request)
    : Response * list OpenCall :=
  if negb GetGatewayServiceClient
  then (Error appErrorServerError
              "Internal error with the gateway, please try again later", [])
  else
    let fileID := map_get (Query r) "file_id" in
    if String.eqb fileID ""
    then (Error appErrorInvalidParameter "missing file ID", [])
    else
      match OwnCloudResourceIDUnwrap fileID with
      | None => (Error appErrorInvalidParameter "invalid file ID", [])
      | Some resourceID =>
          let fileRef := ByResourceId resourceID in
          let t1 := [OStat fileRef] in
          match Stat [] fileRef with
          | None =>
              (Error appErrorServerError
                     "Internal error accessing the file, please try again later", t1)
          | Some statRes =>
              match StatusCode statRes with
              | CODE_NOT_FOUND => (Error appErrorNotFound "file does not exist", t1)
              | CODE_OTHER => (Error appErrorServerError "failed to stat the file", t1)
              | CODE_OK =>
                  match InfoType statRes with
                  | RESOURCE_TYPE_FILE =>
                      let viewMode :=
                        getViewMode (permissions fileRef) (map_get (Query r) "view_mode") in
                      match viewMode with
                      | VIEW_MODE_INVALID =>
                          (Error appErrorInvalidParameter "invalid view mode", t1)
                      | _ =>
                          let app := map_get (Query r) "app_name" in
                          let t2 := (t1 ++ [OOpenInApp fileRef viewMode app])%list in
                          match OpenInApp fileRef viewMode app with
                          | None =>
                              (Error appErrorServerError
                                     "Error contacting the requested application, please use a different one or try again later",
                               t2)
                          | Some openRes =>
                              match oStatusCode openRes with
                              | CODE_OK => (Json (AppUrl openRes), t2)
                              | CODE_NOT_FOUND =>
                                  (Error appErrorNotFound (oMessage openRes), t2)
                              | CODE_OTHER =>
                                  (Error appErrorServerError (oMessage openRes), t2)
                              end
                          end
                      end
                  | _ =>
                      (Error appErrorInvalidParameter
                             "the given file id does not point to a file", t1)
                  end
              end
          end
      end.

End Handlers.

(** The apps and mime types used in the examples. *)
Definition app (name : string) (desktopOnly : bool) : ProviderInfo :=
  {| Name := name; Address := "10.0.0.1:9999"; DesktopOnly := desktopOnly;
     Description := ""; Icon := "" |}.

Definition mime (mimeType : string) (apps : list ProviderInfo) : MimeTypeInfo :=
  {| MimeType := mimeType; Ext := ""; AppProviders := apps;
     AllowCreation := false; DefaultApplication := "" |}.

(** A registry with one text mime type; the user agent [desktop] is a
    desktop, the view mode [write] is read-write. *)
#[export] Instance registry : Registry := {|
  ListSupportedMimeTypes :=
    Some (CODE_OK, [mime "text/plain" [app "editor" false; app "" false];
                    mime "image/png" [app "viewer" true]]);
  OpenInApp ref mode app :=
    Some {| oStatusCode := CODE_OK; oMessage := ""; AppUrl := "https://app/" ++ app |};
  ua_Desktop s := String.eqb s "desktop";
  utils_GetViewMode s :=
    if String.eqb s "write" then VIEW_MODE_READ_WRITE
    else if String.eqb s "read" then VIEW_MODE_READ_ONLY
    else VIEW_MODE_INVALID;
|}.

(** A gateway with the container [dir1]; every other resource id is a
    file, a path exists once it was put, and the data gateway answers a
    PUT with 403. *)
Definition files_gateway : Gateway := {|
  GetGatewayServiceClient := true;
  Stat t ref :=
    match ref with
    | ByResourceId id =>
        Some {| StatusCode := CODE_OK;
                InfoType := if String.eqb (OpaqueId id) "dir1"
                            then RESOURCE_TYPE_CONTAINER else RESOURCE_TYPE_FILE;
                InfoPath := "/home"; InfoId := id |}
    | ByPath p =>
        if AppProviderModel.has_put t
        then Some {| StatusCode := CODE_OK; InfoType := RESOURCE_TYPE_FILE;
                     InfoPath := p;
                     InfoId := {| StorageId := "storage"; OpaqueId := p |} |}
        else Some {| StatusCode := CODE_NOT_FOUND; InfoType := RESOURCE_TYPE_OTHER;
                     InfoPath := ""; InfoId := {| StorageId := ""; OpaqueId := "" |} |}
    end;
  AppProvider.InitiateFileUpload t ref :=
    Some {| uStatusCode := CODE_OK;
            Protocols := [ {| Protocol := "simple";
                              UploadEndpoint := "http://data/upload";
                              Token := "token" |} ] |};
  NewRequest ep := true;
  HttpPut t ep token := Some 403;
  OwnCloudResourceIDUnwrap s := Some {| StorageId := "storage"; OpaqueId := s |};
  OwnCloudResourceIDWrap id := StorageId id ++ "!" ++ OpaqueId id;
  path_Join a b := a ++ "/" ++ b;
  MakeRelativePath p := p;
|}.

Definition open_request (viewMode : string) : Request :=
  {| Query := {[ "file_id" := "f1"; "view_mode" := viewMode; "app_name" := "editor" ]} |}.

Definition read_only : PermissionSet :=
  {| InitiateFileUpload := false; InitiateFileDownload := true |}.

Definition no_access : PermissionSet :=
  {| InitiateFileUpload := true; InitiateFileDownload := false |}.

End AppProviderMore.

(** ** share/manager/json: the other operations of the manager *)

Module ShareJSONMore.
Import Go ShareJSON.

(** [typespb.Timestamp]. *)
Record Timestamp := {
  Seconds : Z;
  Nanos : Z;
}.

Definition to_uint32 (z : Z) : Z := z mod 2 ^ 32.

(** The time stamp built from [time.Now().UnixNano()]. *)
Definition timestamp (now : Z) : Timestamp :=
  {| Seconds := to_uint64 (Z.quot now 1000000000);
     Nanos := to_uint32 (Z.rem now 1000000000) |}.

Inductive ShareState :=
| SHARE_STATE_INVALID
| SHARE_STATE_PENDING
| SHARE_STATE_ACCEPTED
| SHARE_STATE_REJECTED.

Definition ShareState_eqb (a b : ShareState) : bool :=
  match a, b with
  | SHARE_STATE_INVALID, SHARE_STATE_INVALID
  | SHARE_STATE_PENDING, SHARE_STATE_PENDING
  | SHARE_STATE_ACCEPTED, SHARE_STATE_ACCEPTED
  | SHARE_STATE_REJECTED, SHARE_STATE_REJECTED => true
  | _, _ => false
  end.

(** The errors of the operations: those of [errtypes] and [errors.New],
    [errtypes.NotSupported], and the wrapped error of [Save]. *)
Inductive MgrError :=
| Err (e : Error)
| NotSupported (msg : string)
| SaveFailed.

Section Manager.
Context `{Helpers}.
(** The permissions of a share, a mount point and a filter are values the
    manager only stores or hands on. *)
Variables SharePermissions MountPointRef Filter : Type.

(** [collaboration.Share] with the fields [get] does not read. Every
    stored share has an id. *)
Record StoredShare := {
  share : Share;
  Permissions : SharePermissions;
  Ctime : Timestamp;
  Mtime : Timestamp;
}.

(** [shareModel]: the state and the mount point of a share per user id
    and share id, and the shares. *)
Record shareModel := {
  State : gmap string (gmap string ShareState);
  MountPoint : gmap string (gmap string (option MountPointRef));
  Shares : list StoredShare;
}.

Record ReceivedShare := {
  rShare : StoredShare;
  rState : ShareState;
  rMountPoint : option MountPointRef;
}.

(** [user.Id.String()] and [share.MatchesFilters]. *)
Variable userid_String : UserId -> string.
Variable MatchesFilters : StoredShare -> list Filter -> bool.

Definition set_Shares (m : shareModel) (shares : list StoredShare) : shareModel :=
  {| State := State m; MountPoint := MountPoint m; Shares := shares |}.

(** [m.model.Save()] succeeds or not; the model in memory has been
    changed either way. *)
Definition Save {A} (save_ok : bool) (a : A) (m : shareModel)
    : (MgrError + A) * shareModel :=
  if save_ok then (inr a, m) else (inl SaveFailed, m).

Definition Share (m : shareModel) (user : User) (id : string) (now : Z)
    (save_ok : bool) (md_Owner : UserId) (md_Id : ResourceId)
    (g_Grantee : Grantee) (g_Permissions : SharePermissions)
    : (MgrError + StoredShare) * shareModel :=
  let ts := timestamp now in
  (* do not allow share to myself or the owner if share is for a user *)
  if match g_Grantee with
     | GranteeUser grantee => UserEqual grantee (Id user) || UserEqual grantee md_Owner
     | GranteeGroup _ => false
     end
  then (inl (Err (Other "json: owner/creator and grantee are the same")), m)
  else
    (* check if share already exists. *)
    let key := {| kOwner := md_Owner; kResourceId := md_Id; kGrantee := g_Grantee |} in
    match getByKey (map share (Shares m)) key with
    | inr _ => (inl (Err (AlreadyExists (key_String key))), m)
    | inl _ =>
        let s := {| share := {| sId := id; sResourceId := md_Id;
                                sGrantee := g_Grantee; sOwner := md_Owner;
                                sCreator := Id user |};
                    Permissions := g_Permissions;
                    Ctime := ts;
                    Mtime := ts |} in
        Save save_ok s (set_Shares m (Shares m ++ [s]))
    end.

Definition sharesEqual (ref : ShareReference) (s : ShareJSON.Share) : bool :=
  match ref with
  | RefId id => String.eqb id (sId s)
  | RefKey key =>
      (UserEqual (kOwner key) (sOwner s) || UserEqual (kOwner key) (sCreator s))
      && ResourceIDEqual (kResourceId key) (sResourceId s)
      && GranteeEqual (kGrantee key) (sGrantee s)
  | RefUnset => false
  end.

(** The index of the first element a loop over the shares stops at. *)
Fixpoint index_where (f : StoredShare -> bool) (l : list StoredShare) : option nat :=
  match l with
  | [] => None
  | s :: l' => if f s then Some 0%nat else option_map S (index_where f l')
  end.

(** Swapping the element at [i] with the last one and cutting the last
    one off. *)
Definition swap_remove {A} (i : nat) (l : list A) : list A :=
  match last l with
  | Some x => take (length l - 1) (<[i := x]> l)
  | None => l
  end.

Definition Unshare (m : shareModel) (user : User) (ref : ShareReference)
    (save_ok : bool) : (MgrError + unit) * shareModel :=
  match index_where
          (fun s => sharesEqual ref (share s) && IsCreatedByUser (share s) user)
          (Shares m) with
  | Some i => Save save_ok tt (set_Shares m (swap_remove i (Shares m)))
  | None => (inl (Err (NotFound (ref_String ref))), m)
  end.

Definition UpdateShare (m : shareModel) (user : User) (ref : ShareReference)
    (p : SharePermissions) (now : Z) (save_ok : bool)
    : (MgrError + StoredShare) * shareModel :=
  match index_where
          (fun s => sharesEqual ref (share s) && IsCreatedByUser (share s) user)
          (Shares m) with
  | Some i =>
      match Shares m !! i with
      | Some s =>
          let s' := {| share := share s; Permissions := p; Ctime := Ctime s;
                       Mtime := timestamp now |} in
          Save save_ok s' (set_Shares m (<[i := s']> (Shares m)))
      | None => (inl (Err (NotFound (ref_String ref))), m)
      end
  | None => (inl (Err (NotFound (ref_String ref))), m)
  end.

(** [len(filters) == 0], or the filters match. *)
Definition passes (filters : list Filter) (s : StoredShare) : bool :=
  match filters with
  | [] => true
  | _ => MatchesFilters s filters
  end.

Definition ListShares (m : shareModel) (user : User) (filters : list Filter)
    : list StoredShare :=
  List.filter (fun s => IsCreatedByUser (share s) user && passes filters s) (Shares m).

(** [convert]: the state is pending unless the user has one stored. *)
Definition convert (m : shareModel) (user : User) (s : StoredShare) : ReceivedShare :=
  {| rShare := s;
     rState :=
       match State m !! userid_String (Id user) with
       | Some v =>
           match v !! id_String (sId (share s)) with
           | Some state => state
           | None => SHARE_STATE_PENDING
           end
       | None => SHARE_STATE_PENDING
       end;
     rMountPoint :=
       match MountPoint m !! userid_String (Id user) with
       | Some v =>
           match v !! id_String (sId (share s)) with
           | Some mp => mp
           | None => None
           end
       | None => None
       end |}.

Fixpoint first_received (m : shareModel) (user : User) (ref : ShareReference)
    (shares : list StoredShare) : MgrError + ReceivedShare :=
  match shares with
  | [] => inl (Err (NotFound (ref_String ref)))
  | s :: shares' =>
      if sharesEqual ref (share s) && IsGrantedToUser (share s) user
      then inr (convert m user s)
      else first_received m user ref shares'
  end.

Definition getReceived (m : shareModel) (user : User) (ref : ShareReference)
    : MgrError + ReceivedShare :=
  first_received m user ref (Shares m).

Definition GetReceivedShare (m : shareModel) (user : User) (ref : ShareReference)
    : MgrError + ReceivedShare :=
  getReceived m user ref.

(** The loop over [fieldMask.Paths]. *)
Fixpoint apply_paths (receivedShare rs : ReceivedShare) (paths : list string)
    : MgrError + ReceivedShare :=
  match paths with
  | [] => inr rs
  | p :: paths' =>
      if String.eqb p "state"
      then apply_paths receivedShare
             {| rShare := rShare rs; rState := rState receivedShare;
                rMountPoint := rMountPoint rs |} paths'
      else if String.eqb p "mount_point"
      then apply_paths receivedShare
             {| rShare := rShare rs; rState := rState rs;
                rMountPoint := rMountPoint receivedShare |} paths'
      else inl (NotSupported ("updating " ++ p ++ " is not supported"))
  end.

(** Writing a value under a user id and a share id. *)
Definition persist {V} (store : gmap string (gmap string V)) (u k : string) (v : V)
    : gmap string (gmap string V) :=
  match store !! u with
  | Some m => <[u := <[k := v]> m]> store
  | None => <[u := {[ k := v ]}]> store
  end.

Definition UpdateReceivedShare (m : shareModel) (user : User)
    (receivedShare : ReceivedShare) (paths : list string) (save_ok : bool)
    : (MgrError + ReceivedShare) * shareModel :=
  match getReceived m user (RefId (sId (share (rShare receivedShare)))) with
  | inl err => (inl err, m)
  | inr rs =>
      match apply_paths receivedShare rs paths with
      | inl err => (inl err, m)
      | inr rs =>
          let u := userid_String (Id user) in
          let k := id_String (sId (share (rShare rs))) in
          Save save_ok rs
            {| State := persist (State m) u k (rState rs);
               MountPoint := persist (MountPoint m) u k (rMountPoint rs);
               Shares := Shares m |}
      end
  end.

(** The received shares [ListReceivedShares] collects before it removes
    duplicates. *)
Definition received_shares (m : shareModel) (user : User) (filters : list Filter)
    : list ReceivedShare :=
  map (convert m user)
      (List.filter
         (fun s =>
            negb (IsCreatedByUser (share s) user || negb (IsGrantedToUser (share s) user))
            && passes filters s)
         (Shares m)).

Definition is_group (rs : ReceivedShare) : bool :=
  match sGrantee (share (rShare rs)) with
  | GranteeGroup _ => true
  | GranteeUser _ => false
  end.

Definition is_user (rs : ReceivedShare) : bool :=
  match sGrantee (share (rShare rs)) with
  | GranteeUser _ => true
  | GranteeGroup _ => false
  end.

(** The three nested conditions of the loop: [ri] is a group share, [rj]
    a user share of the same resource and in the same state. *)
Definition shadowed_by (ri rj : ReceivedShare) : bool :=
  String.eqb (OpaqueId (sResourceId (share (rShare ri))))
             (OpaqueId (sResourceId (share (rShare rj))))
  && (is_group ri && is_user rj)
  && ShareState_eqb (rState ri) (rState rj).

(** [filtered[i] = filtered[len(filtered)-1]] and the cut; [None] is the
    index out of range panic. *)
Definition remove_at (i : nat) (filtered : list ReceivedShare)
    : option (list ReceivedShare) :=
  if (i <? length filtered)%nat then Some (swap_remove i filtered) else None.

Definition inner_loop (rss : list ReceivedShare) (i : nat) (ri : ReceivedShare)
    (filtered : option (list ReceivedShare)) : option (list ReceivedShare) :=
  fold_left
    (fun acc rj =>
       match acc with
       | None => None
       | Some filtered => if shadowed_by ri rj then remove_at i filtered else Some filtered
       end)
    rss filtered.

(** The two loops over the indices of [rss], from position [i] on. *)
Fixpoint outer_loop (rss : list ReceivedShare) (i : nat) (rest : list ReceivedShare)
    (filtered : option (list ReceivedShare)) : option (list ReceivedShare) :=
  match rest with
  | [] => filtered
  | ri :: rest' => outer_loop rss (S i) rest' (inner_loop rss i ri filtered)
  end.

(** [ListReceivedShares]; [None] is a panic. *)
Definition ListReceivedShares (m : shareModel) (user : User) (filters : list Filter)
    : option (list ReceivedShare) :=
  let rss := received_shares m user filters in
  outer_loop rss 0 rss (Some rss).

End Manager.

Arguments share {_}.
Arguments Permissions {_}.
Arguments Ctime {_}.
Arguments Mtime {_}.
Arguments State {_ _}.
Arguments MountPoint {_ _}.
Arguments Shares {_ _}.
Arguments rShare {_ _}.
Arguments rState {_ _}.
Arguments rMountPoint {_ _}.
Arguments set_Shares {_ _}.
Arguments Save {_ _ _}.
Arguments Share {_ _ _}.
Arguments index_where {_}.
Arguments Unshare {_ _ _}.
Arguments UpdateShare {_ _ _}.
Arguments passes {_ _}.
Arguments ListShares {_ _ _ _}.
Arguments convert {_ _ _}.
Arguments first_received {_ _ _}.
Arguments getReceived {_ _ _}.
Arguments GetReceivedShare {_ _ _}.
Arguments apply_paths {_ _}.
Arguments UpdateReceivedShare {_ _ _}.
Arguments received_shares {_ _ _ _}.
Arguments is_group {_ _}.
Arguments is_user {_ _}.
Arguments shadowed_by {_ _}.
Arguments remove_at {_ _}.
Arguments inner_loop {_ _}.
Arguments outer_loop {_ _}.
Arguments ListReceivedShares {_ _ _ _}.

(** The shares and users of the examples: permissions and mount points
    are strings, there are no filters. *)
Definition stored (s : ShareJSON.Share) : StoredShare string :=
  {| share := s; Permissions := "read"; Ctime := timestamp 0; Mtime := timestamp 0 |}.

Definition group_share (id group : string) : ShareJSON.Share :=
  {| sId := id;
     sResourceId := {| StorageId := "storage"; OpaqueId := "file1" |};
     sGrantee := GranteeGroup group;
     sOwner := ShareJSONModel.uid "alice";
     sCreator := ShareJSONModel.uid "alice" |}.

Definition model (shares : list ShareJSON.Share) : shareModel string string :=
  {| State := ∅; MountPoint := ∅; Shares := map stored shares |}.

(** [bob] is a member of two groups. *)
Definition bob : User :=
  {| Id := ShareJSONModel.uid "bob"; Groups := ["g1"; "g2"] |}.

Definition no_filter (s : StoredShare string) (filters : list unit) : bool := true.

End ShareJSONMore.

(** ** decomposedfs: CreateReference *)

Module References.
Import Go.

(** [strings.Trim(s, "/")]. *)
Fixpoint TrimLeft (s : string) : string :=
  match s with
  | String c s' => if Ascii.eqb c "/" then TrimLeft s' else s
  | EmptyString => EmptyString
  end.

Fixpoint TrimRight (s : string) : string :=
  match s with
  | String c s' =>
      let t := TrimRight s' in
      if String.eqb t "" && Ascii.eqb c "/" then "" else String c t
  | EmptyString => EmptyString
  end.

Definition Trim (s : string) : string := TrimRight (TrimLeft s).

Inductive RefError :=
| PermissionDenied (msg : string)
| InternalError
| AlreadyExists (path : string)
| CreateDirFailed
| SetMetadataFailed.

(** The two nodes the function works on: the share folder and its child
    with the given name. *)
Inductive NodeRef :=
| ShareFolderNode
| ChildNode (name : string).

(** The calls that change the tree, with their outcome; a failing
    [Delete] is only logged. *)
Inductive TreeCall :=
| TCreateDir (n : NodeRef) (ok : bool)
| TSetMetadata (n : NodeRef) (key value : string) (ok : bool)
| TDelete (n : NodeRef).

(** What the lookup and the tree answer: whether the share folder and
    the child exist ([None] is an error of the lookup), and whether
    creating them and setting the attribute succeeds. *)
Record TreeEnv := {
  share_folder_node : option bool;
  create_share_folder : bool;
  child_node : option bool;
  create_child : bool;
  set_reference : bool;
}.

(** The nodes a trace has created, and the nodes it has deleted. *)
Fixpoint created (t : list TreeCall) : list NodeRef :=
  match t with
  | [] => []
  | TCreateDir n true :: t' => n :: created t'
  | _ :: t' => created t'
  end.

Fixpoint deleted (t : list TreeCall) : list NodeRef :=
  match t with
  | [] => []
  | TDelete n :: t' => n :: deleted t'
  | _ :: t' => deleted t'
  end.

Section CreateReference.
(** [fs.o.ShareFolder] and [xattrs.ReferenceAttr]. *)
Variables ShareFolder ReferenceAttr : string.
Variable env : TreeEnv.

(** The deferred function: clean up directories created here on error. *)
Definition clean_up (err : option RefError) (parentCreated childCreated : bool)
    (name : string) : list TreeCall :=
  match err with
  | Some _ =>
      ((if childCreated then [TDelete (ChildNode name)] else [])
       ++ (if parentCreated then [TDelete ShareFolderNode] else []))%list
  | None => []
  end.

(** The body after the deferred function has been registered: the
    error, the calls and [childCreated]. *)
Definition create_child_node (p name targetURI : string)
    : option RefError * list TreeCall * bool :=
  match child_node env with
  | None => (Some InternalError, [], false)
  | Some true => (Some (AlreadyExists p), [], false)
  | Some false =>
      if negb (create_child env)
      then (Some CreateDirFailed, [TCreateDir (ChildNode name) false], false)
      else
        if negb (set_reference env)
        then (Some SetMetadataFailed,
              [TCreateDir (ChildNode name) true;
               TSetMetadata (ChildNode name) ReferenceAttr targetURI false], true)
        else (None,
              [TCreateDir (ChildNode name) true;
               TSetMetadata (ChildNode name) ReferenceAttr targetURI true], true)
  end.

Definition with_clean_up (parentCreated : bool) (t1 : list TreeCall)
    (p name targetURI : string) : option RefError * list TreeCall :=
  let '(err, t2, childCreated) := create_child_node p name targetURI in
  (err, (t1 ++ t2 ++ clean_up err parentCreated childCreated name)%list).

Definition CreateReference (p targetURI : string) : option RefError * list TreeCall :=
  let p := Trim p in
  match Split p "/" with
  | [first; name] =>
      if negb (String.eqb first (Trim ShareFolder))
      then (Some (PermissionDenied
                    ("Decomposedfs: cannot create references outside the share folder: share_folder="
                       ++ ShareFolder ++ " path=" ++ p)), [])
      else
        (* create Shares folder if it does not exist *)
        match share_folder_node env with
        | None => (Some InternalError, [])
        | Some true => with_clean_up false [] p name targetURI
        | Some false =>
            if negb (create_share_folder env)
            then (Some CreateDirFailed, [TCreateDir ShareFolderNode false])
            else with_clean_up true [TCreateDir ShareFolderNode true] p name targetURI
        end
  | _ =>
      (Some (PermissionDenied
               ("Decomposedfs: references must be a child of the share folder: share_folder="
                  ++ ShareFolder ++ " path=" ++ p)), [])
  end.

End CreateReference.

(** A tree without share folder in which setting the attribute fails. *)
Definition failing_tree : TreeEnv :=
  {| share_folder_node := Some false; create_share_folder := true;
     child_node := Some false; create_child := true; set_reference := false |}.

End References.

(** * Properties *)

(** ** upload/store.go *)

Module UploadProofs.
Import Go Upload.

Lemma to_int64_to_uint64 z : is_int64 z -> to_int64 (to_uint64 z) = z.
Proof.
  unfold is_int64, to_int64, to_uint64. intros Hz.
  rewrite Zplus_mod_idemp_l.
  rewrite Z.mod_small by lia. lia.
Qed.

Lemma to_int64_small z : is_int64 z -> to_int64 z = z.
Proof.
  unfold is_int64, to_int64. intros Hz.
  rewrite Z.mod_small by lia. lia.
Qed.

Lemma remove_first_head p l : remove_first p (p :: l) = l.
Proof. simpl. now rewrite String.eqb_refl. Qed.

Lemma existsb_ext {A} (f g : A -> bool) (l : list A) :
  (forall x, f x = g x) -> existsb f l = existsb g l.
Proof. intros Hfg. induction l as [|x l IH]; simpl; [done|]. now rewrite Hfg, IH. Qed.

Section Frame.
Context `{Lookup}.
Variable disableVersioning : bool.
Variable env : Env.

Lemma only_files_refl st : only_files st st.
Proof. now unfold only_files. Qed.

Lemma only_files_trans st1 st2 st3 :
  only_files st1 st2 -> only_files st2 st3 -> only_files st1 st3.
Proof. unfold only_files. intuition congruence. Qed.

Lemma os_Create_only_files p st st' :
  os_Create env p st = Some st' -> only_files st st'.
Proof.
  unfold os_Create. intros Hc.
  repeat case_match; simplify_eq; now unfold only_files.
Qed.

Lemma os_OpenExcl_only_files p st st' :
  os_OpenExcl env p st = Some st' -> only_files st st'.
Proof.
  unfold os_OpenExcl. intros Hc.
  repeat case_match; simplify_eq; now unfold only_files.
Qed.

Lemma os_Chtimes_only_files p t st st' :
  os_Chtimes env p t st = Some st' -> only_files st st'.
Proof.
  unfold os_Chtimes. intros Hc.
  repeat case_match; simplify_eq; now unfold only_files.
Qed.

Lemma CopyMetadata_only_files src dst st st' :
  CopyMetadataWithSourceLock env src dst st = Some st' -> only_files st st'.
Proof.
  unfold CopyMetadataWithSourceLock. intros Hc.
  repeat case_match; simplify_eq; now unfold only_files.
Qed.

Lemma SetXattrs_only_files n attrs st st' :
  SetXattrs env n attrs st = Some st' -> only_files st st'.
Proof.
  unfold SetXattrs. intros Hc.
  repeat case_match; simplify_eq; now unfold only_files.
Qed.

Lemma Persist_only_files st st' :
  Persist env st = Some st' -> only_files st st'.
Proof.
  unfold Persist. intros Hc.
  repeat case_match; simplify_eq; now unfold only_files.
Qed.

Lemma acquire_lock_taken p st st' :
  held st' = held (acquire p st) -> locklog st' = locklog (acquire p st) ->
  lock_taken st (Some p) st'.
Proof. unfold lock_taken. simpl. intuition. Qed.

Lemma initNewNode_lock sess n fsize st unlock err st' :
  initNewNode env sess n fsize st = ((unlock, err), st') ->
  lock_taken st unlock st'.
Proof.
  unfold initNewNode. intros Hi.
  repeat case_match; simplify_eq; try (now unfold lock_taken);
    apply acquire_lock_taken;
    repeat match goal with
           | Hc : os_OpenExcl _ _ _ = Some _ |- _ => apply os_OpenExcl_only_files in Hc
           end;
    unfold only_files in *; simpl in *; intuition congruence.
Qed.

Lemma updateExistingNode_lock sess n spaceID fsize st unlock err st' :
  updateExistingNode disableVersioning env sess n spaceID fsize st = ((unlock, err), st') ->
  lock_taken st unlock st'.
Proof.
  unfold updateExistingNode. intros Hu.
  repeat case_match; simplify_eq; try (now unfold lock_taken);
    apply acquire_lock_taken;
    repeat match goal with
           | Hc : os_Create _ _ _ = Some _ |- _ => apply os_Create_only_files in Hc
           | Hc : CopyMetadataWithSourceLock _ _ _ _ = Some _ |- _ =>
               apply CopyMetadata_only_files in Hc
           | Hc : os_Chtimes _ _ _ _ = Some _ |- _ => apply os_Chtimes_only_files in Hc
           end;
    unfold only_files in *; simpl in *; intuition congruence.
Qed.

Lemma release_after_taken st unlock st1 st2 :
  lock_taken st unlock st1 ->
  held st2 = held st1 -> locklog st2 = locklog st1 ->
  held (run_unlock unlock st2) = held st /\
  (locklog (run_unlock unlock st2) = locklog st \/
   exists p, locklog (run_unlock unlock st2)
             = (locklog st ++ [Acquired p; Released p])%list).
Proof.
  unfold lock_taken, run_unlock. destruct unlock as [p|]; simpl.
  - intros [Hh Hl] Hh2 Hl2. rewrite Hh2, Hh, remove_first_head. split; [done|].
    right. exists p. rewrite Hl2, Hl, <- app_assoc. done.
  - intros [Hh Hl] Hh2 Hl2. split; [congruence|]. left. congruence.
Qed.

Lemma run_unlock_MetaData unlock st : MetaData (run_unlock unlock st) = MetaData st.
Proof. now destruct unlock. Qed.

Lemma initNewNode_sizeDiff sess n fsize st unlock st' :
  initNewNode env sess n fsize st = ((unlock, None), st') ->
  MetaData st' !! "sizeDiff" = Some (FormatInt (to_int64 fsize)).
Proof.
  unfold initNewNode. intros Hi.
  repeat case_match; simplify_eq. simpl. apply lookup_insert_eq.
Qed.

Lemma updateExistingNode_sizeDiff sess n spaceID fsize st unlock st' :
  updateExistingNode disableVersioning env sess n spaceID fsize st = ((unlock, None), st') ->
  MetaData st' !! "sizeDiff"
  = Some (FormatInt (to_int64 (to_int64 fsize - old_Blobsize env))).
Proof.
  unfold updateExistingNode. intros Hu.
  repeat case_match; simplify_eq;
    match goal with
    | Hc : os_Chtimes _ _ _ _ = Some _ |- _ =>
        apply os_Chtimes_only_files in Hc; destruct Hc as (_ & _ & ->)
    end; simpl;
    (rewrite lookup_insert_ne by done); apply lookup_insert_eq.
Qed.

Lemma check_preconditions_violated sess etag mtime :
  precondition_violated sess etag mtime = true ->
  exists msg, check_preconditions sess etag mtime = Some (Aborted msg).
Proof.
  unfold precondition_violated, check_preconditions, check_if_match,
    check_if_none_match, check_if_unmodified_since.
  intros Hv.
  destruct (negb (String.eqb (sHeaderIfMatch sess) "")
            && negb (String.eqb (sHeaderIfMatch sess) etag)) eqn:Him; [eauto|].
  simpl in Hv.
  destruct (String.eqb (sHeaderIfNoneMatch sess) "*") eqn:Hstar.
  { apply String.eqb_eq in Hstar. rewrite Hstar. simpl. eauto. }
  simpl in Hv.
  assert (existsb (fun ifNoneMatchTag => String.eqb ifNoneMatchTag etag)
            (Split (sHeaderIfNoneMatch sess) ",")
          = existsb (String.eqb etag) (Split (sHeaderIfNoneMatch sess) ",")) as ->.
  { apply existsb_ext. intros x. apply String.eqb_sym. }
  destruct (negb (String.eqb (sHeaderIfNoneMatch sess) "")) eqn:Hset; simpl in Hv.
  - destruct (existsb (String.eqb etag) (Split (sHeaderIfNoneMatch sess) ","));
      [eauto|].
    simpl in Hv.
    apply andb_true_iff in Hv as [-> Hp].
    destruct (ParseRFC3339Nano (sHeaderIfUnmodifiedSince sess)); [|done].
    rewrite Hp. eauto.
  - apply andb_true_iff in Hv as [-> Hp].
    destruct (ParseRFC3339Nano (sHeaderIfUnmodifiedSince sess)); [|done].
    rewrite Hp. eauto.
Qed.

(** C7. Every metadata lock that [CreateNodeForUpload] acquires, through
    [initNewNode] or through [updateExistingNode], is released before the
    call returns, whatever it returns and whichever collaborator fails:
    the set of held locks is the one before the call, and the lock history
    grew by nothing or by one acquisition followed by its release. *)
Theorem CreateNodeForUpload_releases_lock sess initAttrs st :
  let st' := snd (CreateNodeForUpload disableVersioning env sess initAttrs st) in
  held st' = held st /\
  (locklog st' = locklog st \/
   exists p, locklog st' = (locklog st ++ [Acquired p; Released p])%list).
Proof.
  unfold CreateNodeForUpload.
  destruct (fails env OpReadSpaceRoot); [simpl; auto|].
  destruct (fails env OpCheckLock); [simpl; auto|].
  destruct (if sNodeExists sess then _ else _) as [[unlock err] st1] eqn:Hlock.
  assert (lock_taken st unlock st1) as Htaken.
  { destruct (sNodeExists sess).
    - eapply updateExistingNode_lock; eauto.
    - eapply initNewNode_lock; eauto. }
  destruct err as [e|]; simpl.
  { eapply release_after_taken; eauto. }
  destruct (SetXattrs env _ _ st1) as [st2|] eqn:Hset; simpl.
  2: { eapply release_after_taken; eauto. }
  apply SetXattrs_only_files in Hset as (Hh2 & Hl2 & _).
  destruct (Persist env st2) as [st3|] eqn:Hper; simpl.
  2: { eapply release_after_taken; eauto. }
  apply Persist_only_files in Hper as (Hh3 & Hl3 & _).
  eapply release_after_taken; eauto; congruence.
Qed.

(** C6. When [CreateNodeForUpload] completes, the session metadata key
    [sizeDiff] holds the declared size minus the previous blob size for a
    target that existed, and the declared size for a new target (sizes
    are byte counts: not negative, below 2^63). *)
Theorem sizeDiff_recorded sess initAttrs st n :
  0 <= sSize sess < 2 ^ 63 ->
  0 <= old_Blobsize env < 2 ^ 63 ->
  fst (CreateNodeForUpload disableVersioning env sess initAttrs st) = inr n ->
  MetaData (snd (CreateNodeForUpload disableVersioning env sess initAttrs st))
    !! "sizeDiff"
  = Some (FormatInt (if sNodeExists sess
                     then sSize sess - old_Blobsize env
                     else sSize sess)).
Proof.
  intros Hsize Hold. unfold CreateNodeForUpload.
  destruct (fails env OpReadSpaceRoot); [done|].
  destruct (fails env OpCheckLock); [done|].
  destruct (if sNodeExists sess then _ else _) as [[unlock err] st1] eqn:Hlock.
  destruct err as [e|]; [done|].
  destruct (SetXattrs env _ _ st1) as [st2|] eqn:Hset; [|done].
  destruct (Persist env st2) as [st3|] eqn:Hper; [|done].
  simpl. intros _. rewrite run_unlock_MetaData.
  apply SetXattrs_only_files in Hset as (_ & _ & Hm2).
  apply Persist_only_files in Hper as (_ & _ & Hm3).
  rewrite Hm3, Hm2.
  destruct (sNodeExists sess).
  - apply updateExistingNode_sizeDiff in Hlock. rewrite Hlock.
    rewrite to_int64_to_uint64 by (unfold is_int64; lia).
    rewrite to_int64_small by (unfold is_int64; lia). done.
  - apply initNewNode_sizeDiff in Hlock. rewrite Hlock.
    rewrite to_int64_to_uint64 by (unfold is_int64; lia). done.
Qed.


(** With versioning enabled, an upload to an existing target whose session
    metadata has no [versionsPath] yet cannot complete, and no file is
    created or changed. *)
Lemma fresh_session_cannot_version sess initAttrs st :
  disableVersioning = false ->
  sNodeExists sess = true ->
  MetaData st !! "versionsPath" = None ->
  (forall n, fst (CreateNodeForUpload disableVersioning env sess initAttrs st) <> inr n) /\
  files (snd (CreateNodeForUpload disableVersioning env sess initAttrs st)) = files st.
Proof.
  intros -> Hex Hfresh.
  unfold CreateNodeForUpload, updateExistingNode, os_Create, map_get.
  rewrite Hex. simpl. rewrite Hfresh. simpl.
  split; [intros n|];
    repeat (case_match; simplify_eq; simpl in * ); try done.
Qed.

End Frame.

Import UploadModel.



Lemma sizeDiff_recorded_witness :
  MetaData (snd (CreateNodeForUpload true UploadModel.quiet
                   (UploadModel.session true "" "" "") ∅ UploadModel.existing))
    !! "sizeDiff" = Some (FormatInt (8 - 5))
  /\
  MetaData (snd (CreateNodeForUpload false UploadModel.quiet
                   (UploadModel.session false "" "" "") ∅ UploadModel.empty))
    !! "sizeDiff" = Some (FormatInt 8).
Proof.
  split.
  - apply (sizeDiff_recorded true UploadModel.quiet
             (UploadModel.session true "" "" "") ∅ UploadModel.existing
             (new_node (UploadModel.session true "" "" ""))).
    + simpl; lia.
    + simpl; lia.
    + vm_compute; reflexivity.
  - apply (sizeDiff_recorded false UploadModel.quiet
             (UploadModel.session false "" "" "") ∅ UploadModel.empty
             (new_node (UploadModel.session false "" "" ""))).
    + simpl; lia.
    + simpl; lia.
    + vm_compute; reflexivity.
Defined.

(** C1, at a failing input. Versioning is enabled, the target [n1] exists
    with mtime 1000, the session is fresh and every check passes. The
    version node is opened at [session.info.MetaData["versionsPath"]],
    which is only assigned after the versioning block: the path is empty,
    the call fails, and no node exists at the version path
    [n1.REV.1000]. *)
Theorem version_node_not_created :
  let r := CreateNodeForUpload false UploadModel.quiet
             (UploadModel.session true "" "" "") ∅ UploadModel.existing in
  fst r = inl (Failed OpCreate) /\
  files (snd r) !! InternalPath "s1" ("n1" ++ RevisionIDDelimiter ++ FormatRFC3339Nano 1000)
  = None /\
  files (snd r) = files UploadModel.existing.
Proof. vm_compute. repeat split; reflexivity. Qed.

End UploadProofs.

(** ** decomposedfs: the postprocessing consumer *)

Module ConsumerProofs.
Import Go Decomposedfs.

Section Generic.
Context {W : Type} `{Services W}.

Lemma same_effects_refl (st : St W) : same_effects st st.
Proof. now unfold same_effects. Qed.

Lemma same_effects_logf msg (st st' : St W) :
  same_effects st st' -> same_effects (logf msg st) st'.
Proof. now unfold same_effects. Qed.

Lemma conclude_same_effects ev ev' up failed keepUpload (st st' : St W) :
  UploadID ev = UploadID ev' -> ExecutingUser ev = ExecutingUser ev' ->
  same_effects st st' ->
  same_effects (conclude ev up failed keepUpload st)
               (conclude ev' up failed keepUpload st').
Proof.
  intros Hid Hu (Hw & Hc & Hp). unfold conclude, upload_ready.
  rewrite Hw, Hid, Hu.
  repeat (case_match; simplify_eq; simpl in * );
    unfold same_effects; simpl; repeat split; congruence.
Qed.

(** What [conclude] publishes: nothing, or the one event of the upload
    with the flag it was given. *)
Lemma conclude_published ev up failed keepUpload st :
  published (conclude ev up failed keepUpload st) = published st \/
  exists n,
    published (conclude ev up failed keepUpload st)
    = (published st ++ [upload_ready ev (with_Node up n) failed])%list.
Proof.
  unfold conclude.
  repeat (case_match; simplify_eq; simpl in * ); eauto.
Qed.

Lemma outcome_flags_published ev up st failed keepUpload st' :
  outcome_flags ev up st = (failed, keepUpload, st') ->
  published st' = published st.
Proof.
  unfold outcome_flags. intros Ho.
  repeat (case_match; simplify_eq; simpl in * ); done.
Qed.

Lemma postprocessingFinished_published ev st :
  published (postprocessingFinished ev st) = published st \/
  exists ready,
    rUploadID ready = UploadID ev /\
    published (postprocessingFinished ev st) = (published st ++ [ready])%list.
Proof.
  unfold postprocessingFinished.
  destruct (upload_Get (UploadID ev) (world st)) as [up|]; [|now left].
  destruct (outcome_flags ev up st) as [[failed keepUpload] st1] eqn:Ho.
  apply outcome_flags_published in Ho.
  destruct (conclude_published ev up failed keepUpload st1) as [Hp | [n Hp]];
    rewrite Hp, Ho; [now left|].
  right. exists (upload_ready ev (with_Node up n) failed). now split.
Qed.

Lemma outcome_flags_unknown ev up (st : St W) :
  Outcome ev <> PPOutcomeContinue ->
  Outcome ev <> PPOutcomeAbort ->
  Outcome ev <> PPOutcomeDelete ->
  outcome_flags ev up st
  = (true, true, logf "unknown postprocessing outcome - aborting" st).
Proof.
  intros Hc Ha Hd. unfold outcome_flags.
  apply String.eqb_neq in Hc, Ha, Hd. now rewrite Ha, Hc, Hd.
Qed.

(** C4. A [PostprocessingFinished] event whose outcome is none of
    continue, abort and delete is treated as an abort. The switch sets
    [failed] and [keepUpload]; the consumer changes the storage, issues
    the calls and publishes the events it does for the same event with the
    outcome abort (only the error log has one more line); an [UploadReady]
    event it publishes for the upload carries [failed = true]. When the
    upload can be retrieved and its node can be read, the consumer does
    not finalize: after an optional propagation it removes the cache
    entry, calls [Cleanup] with [failed = true] and [keepUpload = true]
    (the upload is marked failed and kept) and hands the [UploadReady]
    event with [failed = true] to the stream, which is published when the
    stream accepts it. *)
Theorem unknown_outcome_is_abort ev (st : St W) :
  Outcome ev <> PPOutcomeContinue ->
  Outcome ev <> PPOutcomeAbort ->
  Outcome ev <> PPOutcomeDelete ->
  (forall up, exists st',
      outcome_flags ev up st = (true, true, st') /\ same_effects st' st) /\
  same_effects (postprocessingFinished ev st)
               (postprocessingFinished (as_abort ev) st) /\
  (published (postprocessingFinished ev st) = published st \/
   exists ready,
     rUploadID ready = UploadID ev /\ rFailed ready = true /\
     published (postprocessingFinished ev st) = (published st ++ [ready])%list) /\
  (forall up n,
      upload_Get (UploadID ev) (world st) = Some up ->
      ReadNode (map_get (InfoStorage up) "SpaceRoot")
               (map_get (InfoStorage up) "NodeId") (world st) = Some n ->
      let rid := {| StorageId := ""; SpaceId := SpaceID n; OpaqueId := ID n |} in
      let ready := upload_ready ev (with_Node up n) true in
      exists pre w,
        ((pre = [] /\ w = world st) \/
         exists p, pre = [CPropagate p] /\
                   w = snd (Propagate p (SetTMTime p (world st)))) /\
        calls (postprocessingFinished ev st)
        = (calls st ++ pre ++
           [CRemoveStat (ExecutingUser ev) rid;
            CCleanup (UploadID ev) true true;
            CPublish ready])%list /\
        world (postprocessingFinished ev st)
        = snd (Publish ready
                 (Cleanup (with_Node up n) true true
                    (RemoveStat (ExecutingUser ev) rid w))) /\
        rUploadID ready = UploadID ev /\
        rFailed ready = true /\
        published (postprocessingFinished ev st)
        = if fst (Publish ready
                    (Cleanup (with_Node up n) true true
                       (RemoveStat (ExecutingUser ev) rid w)))
          then (published st ++ [ready])%list
          else published st).
Proof.
  intros Hc Ha Hd. split; [|split; [|split]].
  - intros up. eexists. split; [now apply outcome_flags_unknown|].
    apply same_effects_logf, same_effects_refl.
  - unfold postprocessingFinished. simpl.
    destruct (upload_Get (UploadID ev) (world st)) as [up|];
      [|apply same_effects_refl].
    rewrite outcome_flags_unknown by done.
    unfold outcome_flags, as_abort; simpl.
    apply conclude_same_effects; [done|done|].
    apply same_effects_logf, same_effects_refl.
  - unfold postprocessingFinished.
    destruct (upload_Get (UploadID ev) (world st)) as [up|]; [|now left].
    rewrite outcome_flags_unknown by done.
    destruct (conclude_published ev up true true
                (logf "unknown postprocessing outcome - aborting" st))
      as [Hp | [n Hp]]; rewrite Hp; [now left|].
    right. exists (upload_ready ev (with_Node up n) true). now repeat split.
  - intros up n Hget Hread rid ready.
    unfold postprocessingFinished. rewrite Hget.
    rewrite outcome_flags_unknown by done.
    unfold conclude. simpl. rewrite Hread. simpl.
    destruct (ReadNode (map_get (InfoStorage up) "SpaceRoot") (ParentID n) (world st))
      as [p|].
    + exists [CPropagate p], (snd (Propagate p (SetTMTime p (world st)))).
      split; [right; eauto|].
      destruct (Propagate p (SetTMTime p (world st))) as [okp wp]. simpl.
      fold rid. fold ready.
      destruct okp; simpl;
        destruct (Publish ready
                    (Cleanup (with_Node up n) true true
                       (RemoveStat (ExecutingUser ev) rid wp))) as [ok w'];
        destruct ok; simpl; rewrite <- ?app_assoc; simpl; split_and!; reflexivity.
    + exists [], (world st). split; [left; eauto|]. simpl.
      fold rid. fold ready.
      destruct (Publish ready
                  (Cleanup (with_Node up n) true true
                     (RemoveStat (ExecutingUser ev) rid (world st)))) as [ok w'];
        destruct ok; simpl; rewrite <- ?app_assoc; simpl; split_and!; reflexivity.
Qed.

Lemma conclude_publishes ev up failed keepUpload (st : St W) :
  (forall ready w, fst (Publish ready w) = true) ->
  (forall spaceID nodeID w, is_Some (ReadNode spaceID nodeID w)) ->
  exists n,
    published (conclude ev up failed keepUpload st)
    = (published st ++ [upload_ready ev (with_Node up n) failed])%list.
Proof.
  intros Hpub Hread. unfold conclude.
  destruct (Hread (map_get (InfoStorage up) "SpaceRoot")
              (map_get (InfoStorage up) "NodeId") (world st)) as [n ->].
  exists n.
  match goal with
  | |- context [Publish ?r ?w] =>
      specialize (Hpub r w); destruct (Publish r w) as [ok w']
  end.
  simpl in Hpub. subst ok. simpl.
  repeat (case_match; simplify_eq; simpl in * ); done.
Qed.

(** What a replay does for every implementation of the packages the
    consumer calls: one processing publishes at most one event, a replay
    after the session was removed does nothing, and a replay of a kept
    upload publishes again. *)
Lemma replay_effects ev (st : St W) :
  (length (published (postprocessingFinished ev st))
   <= S (length (published st)))%nat /\
  (upload_Get (UploadID ev) (world (postprocessingFinished ev st)) = None ->
   same_effects (postprocessingFinished ev (postprocessingFinished ev st))
                (postprocessingFinished ev st)) /\
  ((forall ready w, fst (Publish ready w) = true) ->
   (forall spaceID nodeID w, is_Some (ReadNode spaceID nodeID w)) ->
   is_Some (upload_Get (UploadID ev) (world st)) ->
   exists ready,
     rUploadID ready = UploadID ev /\
     published (postprocessingFinished ev st) = (published st ++ [ready])%list).
Proof.
  split; [|split].
  - destruct (postprocessingFinished_published ev st) as [Hp | (ready & _ & Hp)];
      rewrite Hp; [lia|].
    rewrite length_app. simpl. lia.
  - intros Hget.
    unfold postprocessingFinished at 1. rewrite Hget.
    apply same_effects_logf, same_effects_refl.
  - intros Hpub Hread [up Hget]. unfold postprocessingFinished. rewrite Hget.
    destruct (outcome_flags ev up st) as [[failed keepUpload] st1] eqn:Ho.
    apply outcome_flags_published in Ho.
    destruct (conclude_publishes ev up failed keepUpload st1 Hpub Hread) as [n Hp].
    exists (upload_ready ev (with_Node up n) failed). split; [done|].
    now rewrite Hp, Ho.
Qed.

(** *** The on-demand virus scan *)

Lemma remembered_step seen acc v :
  remembered seen acc -> remembered (seen ++ [v]) (remember_step acc v).
Proof.
  destruct acc as [versions nv]. intros (Hk & Hs & Hle & Hnv). simpl in *.
  repeat split; simpl.
  - intros m k Hm. destruct (decide (Mtime v = m)) as [<-|Hne].
    + rewrite lookup_insert_eq in Hm. simplify_eq.
      exists v. rewrite in_app_iff. simpl. auto.
    + rewrite lookup_insert_ne in Hm by done.
      destruct (Hk m k Hm) as (v' & Hin & Hmv & Hkv).
      exists v'. rewrite in_app_iff. auto.
  - intros v' Hin. apply in_app_iff in Hin as [Hin | [<- | []]].
    + destruct (decide (Mtime v = Mtime v')) as [->|Hne].
      * rewrite lookup_insert_eq. eauto.
      * rewrite lookup_insert_ne by done. auto.
    + rewrite lookup_insert_eq. eauto.
  - intros v' Hin. apply in_app_iff in Hin as [Hin | [<- | []]].
    + specialize (Hle v' Hin). destruct (Z.ltb_spec nv (Mtime v)); lia.
    + destruct (Z.ltb_spec nv (Mtime v)); lia.
  - destruct (Z.ltb_spec nv (Mtime v)).
    + right. exists v. rewrite in_app_iff. simpl. auto.
    + destruct Hnv as [-> | (v' & Hin & Hv')]; [now left|].
      right. exists v'. rewrite in_app_iff. auto.
Qed.

Lemma remembered_fold revs : forall seen acc,
  remembered seen acc ->
  remembered (seen ++ revs) (fold_left remember_step revs acc).
Proof.
  induction revs as [|v revs IH]; intros seen acc Hacc; simpl.
  - now rewrite app_nil_r.
  - replace (seen ++ v :: revs)%list with ((seen ++ [v]) ++ revs)%list
      by now rewrite <- app_assoc.
    apply IH. now apply remembered_step.
Qed.

(** The key the consumer restores belongs to a revision of the greatest
    mtime, and the map holds exactly the mtimes of the revisions. *)
Lemma remember_newest revs versions nv :
  revs <> [] ->
  Forall (fun v => 0 <= Mtime v) revs ->
  remember revs = (versions, nv) ->
  (exists newest,
      In newest revs /\ Key newest = version_key versions nv /\
      forall v, In v revs -> Mtime v <= Mtime newest) /\
  (forall m, versions !! m = None <-> forall v, In v revs -> Mtime v <> m).
Proof.
  intros Hne Hpos Hrem. unfold remember in Hrem.
  assert (remembered ([] ++ revs) (fold_left remember_step revs (∅, 0))) as Hr.
  { apply remembered_fold. unfold remembered. simpl. split_and!.
    - intros m k Hm. now rewrite lookup_empty in Hm.
    - intros v [].
    - intros v [].
    - now left. }
  rewrite Hrem in Hr. simpl in Hr. destruct Hr as (Hk & Hs & Hle & Hnv).
  simpl in *. split.
  - assert (exists v, In v revs /\ Mtime v = nv) as (v & Hin & Hv).
    { destruct Hnv as [-> | Hnv]; [|done].
      destruct revs as [|v0 revs]; [done|]. exists v0. split; [now left|].
      apply Forall_cons in Hpos as [Hpos _].
      specialize (Hle v0 (or_introl eq_refl)). lia. }
    destruct (Hs v Hin) as [k Hkv]. rewrite Hv in Hkv.
    destruct (Hk nv k Hkv) as (newest & Hin' & Hm & Hkey).
    exists newest. split; [done|]. split.
    + unfold version_key. now rewrite Hkv.
    + intros v' Hv'. rewrite Hm. auto.
  - intros m. split.
    + intros Hnone v Hin Hm. destruct (Hs v Hin) as [k Hkv]. congruence.
    + intros Hall. destruct (versions !! m) as [k|] eqn:Hm; [|done].
      destruct (Hk m k Hm) as (v & Hin & Hmv & _). now destruct (Hall v Hin).
Qed.

Lemma delete_new_calls u ref versions revs : forall st : St W,
  exists rest,
    calls (delete_new u ref versions revs st) = (calls st ++ rest)%list /\
    forall v, In v revs -> versions !! Mtime v = None ->
              In (CDeleteRevision ref (Key v)) rest.
Proof.
  unfold delete_new.
  induction revs as [|v revs IH]; intros st; simpl.
  - exists []. split; [now rewrite app_nil_r|]. intros v [].
  - destruct (versions !! Mtime v) as [k|] eqn:Hv.
    + destruct (IH st) as (rest & Hc & Hin). exists rest. split; [done|].
      intros v' [<- | Hv'] Hnone; [congruence|]. auto.
    + destruct (DeleteRevision u ref (Key v) (world st)) as [ok w] eqn:Hd.
      match goal with
      | |- context [fold_left _ revs ?s] => destruct (IH s) as (rest & Hc & Hin)
      end.
      exists (CDeleteRevision ref (Key v) :: rest). split.
      * rewrite Hc. destruct ok; simpl; now rewrite <- app_assoc.
      * intros v' [<- | Hv'] Hnone; [now left|]. right. auto.
Qed.

(** C5, as the code has it. For a [VirusscanFinished] event without an
    error message, with an empty upload id and the outcome delete, whose
    resource resolves to a node: if the resource has no prior version the
    consumer trashes it with [Delete] and, when that succeeds, purges it
    from the recycle bin; if it has prior versions the consumer restores
    one of the greatest mtime and, when that succeeds, deletes every
    revision listed afterwards whose mtime none of the prior versions
    has. *)
Theorem on_demand_delete ev (st : St W) n revs ok :
  let u := vExecutingUser ev in
  let ref := {| ResourceID := vResourceID ev; Path := "" |} in
  let spaceRef :=
    {| ResourceID := Some {| StorageId := ""; SpaceId := SpaceID n;
                             OpaqueId := SpaceID n |};
       Path := "" |} in
  let rid := {| StorageId := ""; SpaceId := SpaceID n; OpaqueId := ID n |} in
  vErrorMsg ev = "" ->
  vUploadID ev = "" ->
  vOutcome ev = PPOutcomeDelete ->
  NodeFromResource u ref (world st) = Some n ->
  ListRevisions u ref (world st) = (revs, ok) ->
  Forall (fun v => 0 <= Mtime v) revs ->
  (revs = [] ->
   exists rest,
     calls (virusscanFinished ev st) = (calls st ++ CDelete ref :: rest)%list /\
     (fst (Delete u ref (world st)) = true ->
      rest = [CPurgeRecycleItem spaceRef (ID n) "/"; CRemoveStat u rid])) /\
  (revs <> [] ->
   exists newest rest,
     In newest revs /\
     (forall v, In v revs -> Mtime v <= Mtime newest) /\
     calls (virusscanFinished ev st)
     = (calls st ++ CRestoreRevision ref (Key newest) :: rest)%list /\
     (fst (RestoreRevision u ref (Key newest) (world st)) = true ->
      forall v,
        In v (fst (ListRevisions u ref
                     (snd (RestoreRevision u ref (Key newest) (world st))))) ->
        (forall v0, In v0 revs -> Mtime v0 <> Mtime v) ->
        In (CDeleteRevision ref (Key v)) rest)).
Proof.
  intros u ref spaceRef rid Herr Hup Hout Hnode Hlist Hpos.
  unfold virusscanFinished. rewrite Herr, Hup, Hout. simpl.
  fold u ref. rewrite Hnode. unfold delete_infected. fold u. rewrite Hlist.
  split.
  - intros ->. simpl.
    assert (world (if ok then st
                   else logf "Failed to list revisions. Fallback to delete file" st)
            = world st) as Hw by now destruct ok.
    assert (calls (if ok then st
                   else logf "Failed to list revisions. Fallback to delete file" st)
            = calls st) as Hc by now destruct ok.
    rewrite Hw. destruct (Delete u ref (world st)) as [okd w1]. simpl.
    destruct okd; simpl.
    + destruct (PurgeRecycleItem u _ (ID n) "/" w1) as [okp w2]. simpl.
      exists [CPurgeRecycleItem spaceRef (ID n) "/"; CRemoveStat u rid].
      split; [|done]. destruct okp; simpl; rewrite Hc, <- !app_assoc; done.
    + exists []. split; [now rewrite Hc|done].
  - intros Hne.
    destruct revs as [|v0 revs']; [done|].
    change (length (v0 :: revs') =? 0)%nat with false. cbv iota.
    destruct (remember (v0 :: revs')) as [versions nv] eqn:Hrem.
    destruct (remember_newest _ _ _ Hne Hpos Hrem) as [(newest & Hin & Hkey & Hmax) Hnone].
    rewrite <- Hkey. exists newest.
    destruct (RestoreRevision u ref (Key newest) (world st)) as [okr w1]. simpl.
    destruct okr; simpl.
    + destruct (ListRevisions u ref w1) as [revs2 ok2]. simpl.
      match goal with
      | |- context [delete_new u ref versions revs2 ?s] =>
          destruct (delete_new_calls u ref versions revs2 s) as (rest & Hc & Hdel);
          assert (calls s = (calls st ++ [CRestoreRevision ref (Key newest)])%list)
            as Hs by now destruct ok2
      end.
      exists (rest ++ [CRemoveStat u rid])%list. repeat split; try done.
      * rewrite Hc, Hs, <- !app_assoc. done.
      * intros _ v Hv Hnew. apply in_app_iff. left.
        apply Hdel; [done|]. apply Hnone. intros v1 Hv1. auto.
    + exists []. repeat split; done.
Qed.

End Generic.

Import DecomposedfsModel.

Lemma unknown_outcome_is_abort_witness :
  same_effects
    (postprocessingFinished (finished "retry") (start processing))
    (postprocessingFinished (as_abort (finished "retry")) (start processing)) /\
  exists ready,
    rUploadID ready = "u1" /\ rFailed ready = true /\
    In (CCleanup "u1" true true)
       (calls (postprocessingFinished (finished "retry") (start processing))) /\
    published (postprocessingFinished (finished "retry") (start processing)) = [ready].
Proof.
  destruct (unknown_outcome_is_abort (finished "retry") (start processing))
    as (_ & Hsame & _ & Hdone).
  - vm_compute. discriminate.
  - vm_compute. discriminate.
  - vm_compute. discriminate.
  - split; [exact Hsame|].
    destruct (Hdone upload_u1 {| SpaceID := "s1"; ID := "n1"; ParentID := "root" |})
      as (pre & w & _ & Hcalls & _ & Hid & Hfailed & Hpub).
    + reflexivity.
    + reflexivity.
    + exists (upload_ready (finished "retry")
                (with_Node upload_u1 {| SpaceID := "s1"; ID := "n1"; ParentID := "root" |})
                true).
      split; [exact Hid|]. split; [exact Hfailed|]. split.
      * rewrite Hcalls. apply in_or_app. right. apply in_or_app. right.
        right. left. reflexivity.
      * rewrite Hpub. reflexivity.
Defined.


Lemma sim_Cleanup_with_Node up n failed keepUpload w :
  sim_Cleanup (with_Node up n) failed keepUpload w = sim_Cleanup up failed keepUpload w.
Proof. reflexivity. Qed.

Lemma revert_twice (old a : gmap string string) :
  delete "status" (old ∪ delete "status" (old ∪ a)) = delete "status" (old ∪ a).
Proof.
  apply map_eq. intros k.
  destruct (decide (k = "status")) as [->|Hk].
  - now rewrite !lookup_delete_eq.
  - rewrite !lookup_delete_ne by done.
    rewrite !lookup_union. rewrite lookup_delete_ne by done. rewrite lookup_union.
    destruct (old !! k), (a !! k); reflexivity.
Qed.

Lemma delete_twice (a : gmap string string) :
  delete "status" (delete "status" a) = delete "status" a.
Proof.
  apply map_eq. intros j. destruct (decide (j = "status")) as [->|Hj].
  - now rewrite !lookup_delete_eq.
  - now rewrite !lookup_delete_ne by done.
Qed.

Lemma sim_Cleanup_twice up failed keepUpload w :
  sim_Cleanup up failed keepUpload (sim_Cleanup up failed keepUpload w)
  = sim_Cleanup up failed keepUpload w.
Proof.
  unfold sim_Cleanup. simpl.
  set (nid := map_get (InfoStorage up) "NodeId").
  f_equal.
  - destruct keepUpload; [reflexivity|]. apply map_eq. intros k.
    destruct (decide (k = InfoID up)) as [->|Hk].
    + now rewrite !lookup_delete_eq.
    + now rewrite !lookup_delete_ne by done.
  - destruct failed; [destruct (saved w !! nid) as [old|] eqn:Hsaved|].
    + apply map_eq. intros k. destruct (decide (k = nid)) as [->|Hk].
      * rewrite !lookup_alter_eq. rewrite !lookup_insert_eq. simpl.
        now rewrite revert_twice.
      * rewrite !lookup_alter_ne by done. rewrite !lookup_insert_ne by done.
        rewrite lookup_alter_ne by done. now rewrite lookup_insert_ne by done.
    + apply map_eq. intros k. destruct (decide (k = nid)) as [->|Hk].
      * rewrite !lookup_alter_eq. destruct (attrs w !! nid) as [a|]; simpl; [|done].
        now rewrite delete_twice.
      * now rewrite !lookup_alter_ne by done.
    + apply map_eq. intros k. destruct (decide (k = nid)) as [->|Hk].
      * rewrite !lookup_alter_eq. destruct (attrs w !! nid) as [a|]; simpl; [|done].
        now rewrite delete_twice.
      * now rewrite !lookup_alter_ne by done.
Qed.

Lemma sim_Cleanup_sessions up failed keepUpload w id up' :
  sessions (sim_Cleanup up failed keepUpload w) !! id = Some up' ->
  sessions w !! id = Some up'.
Proof.
  unfold sim_Cleanup. simpl. destruct keepUpload; [done|].
  intros Hl. apply lookup_delete_Some in Hl. apply Hl.
Qed.

(** On the modelled store one processing is one cleanup of the session,
    with flags that the outcome alone decides. *)
Lemma processing_is_cleanup ev :
  exists failed keepUpload, forall st : St Store,
    world (postprocessingFinished ev st)
    = match sessions (world st) !! UploadID ev with
      | Some up => sim_Cleanup up failed keepUpload (world st)
      | None => world st
      end.
Proof.
  destruct (String.eqb (Outcome ev) PPOutcomeAbort) eqn:Ha;
    [|destruct (String.eqb (Outcome ev) PPOutcomeContinue) eqn:Hc;
      [|destruct (String.eqb (Outcome ev) PPOutcomeDelete) eqn:Hd]].
  - exists true, true. intros st.
    unfold postprocessingFinished, outcome_flags. rewrite Ha. simpl.
    destruct (sessions (world st) !! UploadID ev) as [up|]; reflexivity.
  - exists false, false. intros st.
    unfold postprocessingFinished, outcome_flags. rewrite Ha, Hc. simpl.
    destruct (sessions (world st) !! UploadID ev) as [up|]; reflexivity.
  - exists true, false. intros st.
    unfold postprocessingFinished, outcome_flags. rewrite Ha, Hc, Hd. simpl.
    destruct (sessions (world st) !! UploadID ev) as [up|]; reflexivity.
  - exists true, true. intros st.
    unfold postprocessingFinished, outcome_flags. rewrite Ha, Hc, Hd. simpl.
    destruct (sessions (world st) !! UploadID ev) as [up|]; reflexivity.
Qed.



(** C5, counterexample. The node [n1] has two prior versions; the scan
    event asks for deletion but carries an error message, and the consumer
    does nothing: no revision is restored, nothing is deleted. *)
Lemma failed_scan_is_ignored :
  let ev := scanned "scan failed" in
  let ref := {| ResourceID := vResourceID ev; Path := "" |} in
  vUploadID ev = "" /\
  vOutcome ev = PPOutcomeDelete /\
  length (fst (ListRevisions (vExecutingUser ev) ref versioned)) = 2%nat /\
  handle (EvVirusscanFinished ev) (start versioned) = start versioned.
Proof. vm_compute. repeat split; reflexivity. Qed.

Lemma on_demand_delete_witness :
  (exists rest,
     calls (virusscanFinished (scanned "") (start unversioned))
     = ([] ++ CDelete {| ResourceID := Some n1; Path := "" |} :: rest)%list) /\
  (exists newest rest,
     Mtime newest = 200 /\
     calls (virusscanFinished (scanned "") (start versioned))
     = ([] ++ CRestoreRevision {| ResourceID := Some n1; Path := "" |} (Key newest)
           :: rest)%list /\
     In (CDeleteRevision {| ResourceID := Some n1; Path := "" |} "n1.REV.300") rest).
Proof.
  split.
  - destruct (on_demand_delete (scanned "") (start unversioned)
                {| SpaceID := "s1"; ID := "n1"; ParentID := "" |} [] true)
      as [Hnone _].
    + reflexivity.
    + reflexivity.
    + reflexivity.
    + reflexivity.
    + reflexivity.
    + constructor.
    + destruct (Hnone eq_refl) as (rest & Hcalls & _). exists rest. exact Hcalls.
  - destruct (on_demand_delete (scanned "") (start versioned)
                {| SpaceID := "s1"; ID := "n1"; ParentID := "" |}
                [ {| Key := "n1.REV.100"; Mtime := 100 |};
                  {| Key := "n1.REV.200"; Mtime := 200 |} ] true)
      as [_ Hsome].
    + reflexivity.
    + reflexivity.
    + reflexivity.
    + reflexivity.
    + reflexivity.
    + repeat constructor; simpl; lia.
    + assert ([ {| Key := "n1.REV.100"; Mtime := 100 |};
                {| Key := "n1.REV.200"; Mtime := 200 |} ] <> []) as Hne by discriminate.
      destruct (Hsome Hne) as (newest & rest & Hin & Hmax & Hcalls & Hdel).
      assert (newest = {| Key := "n1.REV.200"; Mtime := 200 |}) as ->.
      { destruct Hin as [<- | [<- | []]]; [|reflexivity].
        specialize (Hmax {| Key := "n1.REV.200"; Mtime := 200 |}
                      (or_intror (or_introl eq_refl))).
        simpl in Hmax. lia. }
      exists {| Key := "n1.REV.200"; Mtime := 200 |}, rest.
      split; [reflexivity|]. split; [exact Hcalls|].
      apply (Hdel eq_refl {| Key := "n1.REV.300"; Mtime := 300 |}).
      * vm_compute. auto.
      * intros v0 [<- | [<- | []]]; simpl; lia.
Defined.

End ConsumerProofs.

(** ** decomposedfs: GetQuota *)

Module QuotaProofs.
Import Go Decomposedfs.

Lemma digit_of_range c d : digit_of c = Some d -> 0 <= d <= 9.
Proof.
  unfold digit_of. intros Hd.
  destruct (_ && _) eqn:Hrange; [|done].
  apply andb_true_iff in Hrange as [Hlo Hhi].
  simplify_eq. lia.
Qed.

Lemma parse_digits_range s : forall acc v,
  0 <= acc < 2 ^ 64 -> parse_digits acc s = Some v -> 0 <= v < 2 ^ 64.
Proof.
  induction s as [|c s IH]; intros acc v Hacc Hp; simpl in Hp.
  - now simplify_eq.
  - destruct (digit_of c) as [d|] eqn:Hd; [|done].
    apply digit_of_range in Hd.
    destruct (Z.ltb_spec (acc * 10 + d) (2 ^ 64)); [|done].
    apply (IH (acc * 10 + d)); [lia|done].
Qed.

Lemma ParseUint_range s v : ParseUint s = Some v -> is_uint64 v.
Proof.
  unfold ParseUint, is_uint64. destruct s; [done|].
  apply parse_digits_range. lia.
Qed.

Section Quota.
Variables QuotaUncalculated QuotaUnknown QuotaUnlimited : string.
Variable filepath_Join : string -> string -> string.

(** C8. Whenever the space carries a numeric quota (the quota string is
    none of the three special values and parses) that is at most the free
    space, the remaining value [GetQuota] returns is the total minus the
    used size when the used size is below the total, and 0 otherwise: no
    wrapped subtraction reaches the caller, and remaining is at most
    total. *)
Theorem GetQuota_remaining env ref ri free quota total used remaining :
  resource_info env = Some ri ->
  available_size env = Some free ->
  is_uint64 (Size ri) ->
  quota_string QuotaUnknown ri <> QuotaUncalculated ->
  quota_string QuotaUnknown ri <> QuotaUnknown ->
  quota_string QuotaUnknown ri <> QuotaUnlimited ->
  ParseUint (quota_string QuotaUnknown ri) = Some quota ->
  quota <= free ->
  GetQuota QuotaUncalculated QuotaUnknown QuotaUnlimited filepath_Join env ref
  = inr (total, used, remaining) ->
  total = quota /\ used = Size ri /\
  remaining = (if Size ri <? total then total - Size ri else 0) /\
  0 <= remaining <= total.
Proof.
  intros Hri Hfree Hsize Hn1 Hn2 Hn3 Hparse Hle.
  pose proof (ParseUint_range _ _ Hparse) as Hquota.
  unfold is_uint64 in *.
  unfold GetQuota. rewrite Hri, Hfree.
  apply String.eqb_neq in Hn1, Hn2, Hn3. rewrite Hn1, Hn2, Hn3, Hparse. simpl.
  destruct (Z.leb_spec quota free); [|lia].
  intros Hres.
  repeat case_match; simplify_eq;
    repeat match goal with
           | Hb : (_ <=? _) = true |- _ => apply Z.leb_le in Hb
           | Hb : (_ <=? _) = false |- _ => apply Z.leb_gt in Hb
           | Hb : (_ <? _) = true |- _ => apply Z.ltb_lt in Hb
           | Hb : (_ <? _) = false |- _ => apply Z.ltb_ge in Hb
           end;
    unfold to_uint64; try (rewrite Z.mod_small by lia); lia.
Qed.

End Quota.

Lemma GetQuota_remaining_witness :
  let env := {| lookup_node := Some {| qExists := true; qID := "n"; qParentID := "p";
                                       qName := "x" |};
                permissions := Some true;
                canListAllSpaces := false;
                resource_info :=
                  Some {| Size := 30;
                          Opaque := Some {[ "quota" := {| Decoder := "plain";
                                                          Value := "100" |} ]} |};
                available_size := Some 1000 |} in
  GetQuota "-1" "-2" "0" (fun a b => a ++ "/" ++ b) env
           (Some {| ResourceID := None; Path := "" |})
  = inr (100, 30, 70) /\
  70 = (if 30 <? 100 then 100 - 30 else 0).
Proof.
  intros env. split; [reflexivity|].
  destruct (GetQuota_remaining "-1" "-2" "0" (fun a b => a ++ "/" ++ b) env
              (Some {| ResourceID := None; Path := "" |})
              {| Size := 30;
                 Opaque := Some {[ "quota" := {| Decoder := "plain";
                                                 Value := "100" |} ]} |}
              1000 100 100 30 70) as (_ & _ & Hrem & _).
  - reflexivity.
  - reflexivity.
  - unfold is_uint64. simpl. lia.
  - vm_compute. discriminate.
  - vm_compute. discriminate.
  - vm_compute. discriminate.
  - reflexivity.
  - lia.
  - reflexivity.
  - exact Hrem.
Defined.

End QuotaProofs.

(** ** appprovider: handleNew *)

Module AppProviderProofs.
Import Go AppProvider.

(** C9, as the code has it. A request whose filename contains a path
    segment (the directory part [path.Split] gives is not empty, or the
    base name differs from the whole value) is answered with an error and
    without any stat, upload initiation or data transfer call; the error
    is the invalid parameter error whenever the gateway client is there
    and the request has no template parameter. *)
Theorem handleNew_rejects_path_segments `{Gateway} r :
  let filename := map_get (Query r) "filename" in
  fst (path_Split filename) <> "" \/ snd (path_Split filename) <> filename ->
  (exists code msg, handleNew r = (Error code msg, [])) /\
  (GetGatewayServiceClient = true ->
   map_get (Query r) "template" = "" ->
   exists msg, handleNew r = (Error appErrorInvalidParameter msg, [])).
Proof.
  intros filename Hseg.
  assert (let '(dirPart, filePart) := path_Split filename in
          negb (String.eqb dirPart "") || negb (String.eqb filePart filename) = true)
    as Hcheck.
  { destruct (path_Split filename) as [d f]. simpl in Hseg.
    destruct Hseg as [Hd | Hf].
    - apply String.eqb_neq in Hd. now rewrite Hd.
    - apply String.eqb_neq in Hf. rewrite Hf. apply orb_true_r. }
  unfold handleNew. fold filename.
  destruct (path_Split filename) as [d f].
  split.
  - repeat case_match; simplify_eq; eauto; congruence.
  - intros -> ->. simpl.
    repeat case_match; simplify_eq; eauto; congruence.
Qed.

Import AppProviderModel.

(** C9, counterexample. The filename [a/b.txt] contains a path segment and
    the request names a template: the answer is the unimplemented error,
    not the invalid parameter error. *)
Lemma template_answered_first :
  let r := request "t" "a/b.txt" in
  fst (path_Split (map_get (Query r) "filename")) = "a/" /\
  handleNew r = (Error appErrorUnimplemented "template is not implemented", []).
Proof. vm_compute. split; reflexivity. Qed.

Lemma handleNew_rejects_path_segments_witness :
  exists msg, handleNew (request "" "a/b.txt") = (Error appErrorInvalidParameter msg, []).
Proof.
  apply (handleNew_rejects_path_segments (request "" "a/b.txt")).
  - left. vm_compute. discriminate.
  - reflexivity.
  - reflexivity.
Defined.

End AppProviderProofs.

(** ** share/manager/json *)

Module ShareJSONProofs.
Import ShareJSON.

Section Manager.
Context `{Helpers}.

Lemma getByID_error shares id e :
  getByID shares id = inl e -> e = NotFound (id_String id).
Proof.
  induction shares as [|s shares IH]; simpl; [congruence|].
  destruct (String.eqb (sId s) id); [done|auto].
Qed.

Lemma getByKey_error shares key e :
  getByKey shares key = inl e -> e = NotFound (key_String key).
Proof.
  induction shares as [|s shares IH]; simpl; [congruence|].
  destruct (_ && _); [done|auto].
Qed.

Lemma getByID_In shares id s : getByID shares id = inr s -> In s shares.
Proof.
  induction shares as [|s' shares IH]; simpl; [done|].
  destruct (String.eqb (sId s') id); [|auto].
  intros [= ->]. now left.
Qed.

Lemma getByKey_In shares key s : getByKey shares key = inr s -> In s shares.
Proof.
  induction shares as [|s' shares IH]; simpl; [done|].
  destruct (_ && _); [|auto].
  intros [= ->]. now left.
Qed.

Lemma resolve_error shares ref e :
  resolve shares ref = inl e -> exists msg, e = NotFound msg.
Proof.
  destruct ref as [id|key|]; simpl; intros Hr.
  - apply getByID_error in Hr. eauto.
  - apply getByKey_error in Hr. eauto.
  - simplify_eq. eauto.
Qed.

Lemma resolve_In shares ref s : resolve shares ref = inr s -> In s shares.
Proof.
  destruct ref as [id|key|]; simpl; [apply getByID_In|apply getByKey_In|done].
Qed.


End Manager.

Import ShareJSONModel.



End ShareJSONProofs.

(** ** upload/store.go: further properties *)

Module UploadMore.
Import Go Upload.

Section Store.
Context `{Lookup}.
Variable disableVersioning : bool.
Variable env : Env.

Lemma run_unlock_files unlock st : files (run_unlock unlock st) = files st.
Proof. now destruct unlock. Qed.

Lemma run_unlock_persisted unlock st : persisted (run_unlock unlock st) = persisted st.
Proof. now destruct unlock. Qed.

(** The preconditions pass exactly when none of them is violated and the
    if-unmodified-since header, when it is set, can be parsed. *)
Theorem check_preconditions_passes_iff sess etag mtime :
  check_preconditions sess etag mtime = None <->
  precondition_violated sess etag mtime = false /\
  (sHeaderIfUnmodifiedSince sess = "" \/
   is_Some (ParseRFC3339Nano (sHeaderIfUnmodifiedSince sess))).
Proof.
  unfold check_preconditions, check_if_match, check_if_none_match,
    check_if_unmodified_since, precondition_violated.
  rewrite (UploadProofs.existsb_ext
             (fun ifNoneMatchTag => String.eqb ifNoneMatchTag etag)
             (String.eqb etag))
    by (intros x; apply String.eqb_sym).
  destruct (String.eqb_spec (sHeaderIfMatch sess) "") as [Him|Him];
    destruct (String.eqb_spec (sHeaderIfMatch sess) etag) as [Het|Het];
    destruct (String.eqb_spec (sHeaderIfNoneMatch sess) "") as [Hinm|Hinm];
    destruct (String.eqb_spec (sHeaderIfNoneMatch sess) "*") as [Hstar|Hstar];
    destruct (existsb (String.eqb etag) (Split (sHeaderIfNoneMatch sess) ","));
    destruct (String.eqb_spec (sHeaderIfUnmodifiedSince sess) "") as [Hius|Hius];
    destruct (ParseRFC3339Nano (sHeaderIfUnmodifiedSince sess)) as [t|];
    try destruct (Z.ltb_spec t mtime);
    simpl; split; try (intros [? ?]); try intros ?;
    try discriminate; try congruence;
    repeat split; eauto;
    repeat match goal with
           | Hor : _ \/ _ |- _ => destruct Hor
           | Hs : is_Some None |- _ => destruct Hs
           end;
    try congruence; try discriminate.
Qed.

(** An upload that violates a client precondition writes nothing: the
    node files, the session metadata and the persisted session record are
    the ones before the call. *)
Theorem violated_precondition_writes_nothing sess initAttrs st etag mtime :
  sNodeExists sess = true ->
  old_MTime env = Some mtime ->
  CalculateEtag (old_ID env) mtime = Some etag ->
  precondition_violated sess etag mtime = true ->
  files (snd (CreateNodeForUpload disableVersioning env sess initAttrs st)) = files st /\
  MetaData (snd (CreateNodeForUpload disableVersioning env sess initAttrs st))
  = MetaData st /\
  persisted (snd (CreateNodeForUpload disableVersioning env sess initAttrs st))
  = persisted st.
Proof.
  intros Hex Hmt Het Hv.
  apply UploadProofs.check_preconditions_violated in Hv as [msg Hv].
  unfold CreateNodeForUpload, updateExistingNode. rewrite Hex, Hmt, Het, Hv.
  repeat case_match; simplify_eq; simpl; done.
Qed.

(** A completed call leaves the node marked as being processed by this
    session, whatever attributes the caller handed in: the node file
    exists, its status attribute is the processing status followed by the
    session id, the node returned is the one composed from the session,
    and the session record written is the final session metadata. *)
Theorem completed_upload_marks_processing sess initAttrs st n :
  fst (CreateNodeForUpload disableVersioning env sess initAttrs st) = inr n ->
  n = new_node sess /\
  (exists f,
      files (snd (CreateNodeForUpload disableVersioning env sess initAttrs st))
        !! InternalPath (sSpaceID sess) (sNodeID sess) = Some f /\
      xattrs f !! StatusPrefix = Some (ProcessingStatus ++ sID sess)) /\
  persisted (snd (CreateNodeForUpload disableVersioning env sess initAttrs st))
  = Some (MetaData (snd (CreateNodeForUpload disableVersioning env sess initAttrs st))).
Proof.
  unfold CreateNodeForUpload.
  destruct (fails env OpReadSpaceRoot); [done|].
  destruct (fails env OpCheckLock); [done|].
  destruct (if sNodeExists sess then _ else _) as [[unlock err] st1].
  destruct err as [e|]; [done|].
  destruct (SetXattrs env _ _ st1) as [st2|] eqn:Hset; [|done].
  destruct (Persist env st2) as [st3|] eqn:Hper; [|done].
  simpl. intros [= <-].
  rewrite run_unlock_files, run_unlock_persisted, UploadProofs.run_unlock_MetaData.
  unfold Persist in Hper. destruct (fails env OpPersist); [done|]. simplify_eq.
  simpl. unfold SetXattrs in Hset.
  destruct (fails env OpSetXattrs); [done|].
  destruct (files st1 !! n_InternalPath (new_node sess)) as [f|]; [|done].
  simplify_eq. simpl. repeat split.
  eexists. split.
  - unfold n_InternalPath. simpl. apply lookup_insert_eq.
  - simpl. apply lookup_union_Some_l. unfold technical_attrs.
    apply lookup_insert_eq.
Qed.

(** With versioning disabled, a completed overwrite creates no file: the
    set of node files is the one before the call, the session records the
    internal path of the node itself as [versionsPath], and the file of
    the node carries the mtime the node had before. *)
Theorem overwrite_without_versioning sess initAttrs st n :
  disableVersioning = true ->
  sNodeExists sess = true ->
  fst (CreateNodeForUpload disableVersioning env sess initAttrs st) = inr n ->
  dom (files (snd (CreateNodeForUpload disableVersioning env sess initAttrs st)))
  = dom (files st) /\
  MetaData (snd (CreateNodeForUpload disableVersioning env sess initAttrs st))
    !! "versionsPath" = Some (InternalPath (sSpaceID sess) (sNodeID sess)) /\
  exists f,
    files (snd (CreateNodeForUpload disableVersioning env sess initAttrs st))
      !! InternalPath (sSpaceID sess) (sNodeID sess) = Some f /\
    Some (modtime f) = old_MTime env.
Proof.
  intros Hdis Hex. subst disableVersioning.
  unfold CreateNodeForUpload, updateExistingNode. rewrite Hex. simpl.
  destruct (fails env OpReadSpaceRoot); [done|].
  destruct (fails env OpCheckLock); [done|].
  destruct (fails env OpOpenLockfile); [done|].
  destruct (negb (quota_ok env true _ _)); [done|].
  destruct (old_MTime env) as [oldNodeMtime|]; [|done].
  destruct (CalculateEtag (old_ID env) oldNodeMtime) as [oldNodeEtag|]; [|done].
  destruct (check_preconditions sess oldNodeEtag oldNodeMtime); [done|].
  assert (files st !! InternalPath (sSpaceID sess) (sNodeID sess) = None \/
          exists f0, files st !! InternalPath (sSpaceID sess) (sNodeID sess) = Some f0)
    as [Hf0 | [f0 Hf0]]
    by (destruct (files st !! InternalPath (sSpaceID sess) (sNodeID sess)); eauto).
  { unfold os_Chtimes, map_get, n_InternalPath. simpl.
    rewrite lookup_insert_eq. simpl. rewrite Hf0.
    destruct (fails env OpChtimes); done. }
  unfold os_Chtimes, map_get, n_InternalPath, SetXattrs, n_InternalPath, Persist.
  simpl. rewrite lookup_insert_eq. simpl. rewrite Hf0.
  destruct (fails env OpChtimes); [done|]. simpl.
  destruct (fails env OpSetXattrs); [done|]. simpl.
  rewrite lookup_insert_eq.
  destruct (fails env OpPersist); [done|].
  simpl. intros _. split; [|split].
  - rewrite dom_insert_lookup_L by (rewrite lookup_insert_eq; eauto).
    rewrite dom_insert_lookup_L by eauto. done.
  - apply lookup_insert_eq.
  - eexists. split; [apply lookup_insert_eq|]. reflexivity.
Qed.

(** The path for a new target never replaces a node file that is already
    there: the call fails and every node file is as before. *)
Theorem new_target_keeps_existing_file sess initAttrs st :
  sNodeExists sess = false ->
  is_Some (files st !! InternalPath (sSpaceID sess) (sNodeID sess)) ->
  (forall n, fst (CreateNodeForUpload disableVersioning env sess initAttrs st) <> inr n) /\
  files (snd (CreateNodeForUpload disableVersioning env sess initAttrs st)) = files st.
Proof.
  intros Hnew [f Hf].
  unfold CreateNodeForUpload, initNewNode, os_OpenExcl. rewrite Hnew.
  unfold n_InternalPath. simpl. rewrite Hf.
  split; [intros n|]; repeat case_match; simplify_eq; simpl; done.
Qed.

(** A new target that the quota check rejects leaves behind the empty node
    file the call had created before the check: the call fails with the
    error of the quota check and the file is there, without attributes. *)
Theorem rejected_new_target_leaves_file sess initAttrs st :
  sNodeExists sess = false ->
  fails env OpReadSpaceRoot = false ->
  fails env OpCheckLock = false ->
  fails env OpMkdirAll = false ->
  fails env OpMetadataLock = false ->
  fails env OpOpenExcl = false ->
  files st !! InternalPath (sSpaceID sess) (sNodeID sess) = None ->
  quota_ok env false 0 (to_uint64 (sSize sess)) = false ->
  fst (CreateNodeForUpload disableVersioning env sess initAttrs st)
  = inl (Failed OpCheckQuota) /\
  files (snd (CreateNodeForUpload disableVersioning env sess initAttrs st))
  = <[InternalPath (sSpaceID sess) (sNodeID sess)
      := {| xattrs := ∅; modtime := now env |}]> (files st).
Proof.
  intros Hnew Hroot Hlock Hmk Hml Hexcl Hnone Hquota.
  unfold CreateNodeForUpload, initNewNode, os_OpenExcl.
  rewrite Hnew, Hroot, Hlock, Hmk, Hml, Hexcl.
  unfold n_InternalPath. simpl. rewrite Hnone, Hquota. simpl. done.
Qed.

(** The mtime attribute of a completed upload is the mtime the client
    asked for, and the current time when it asked for none (the names of
    the attributes written after it being different from its name). *)
Theorem completed_upload_mtime sess initAttrs st n :
  MTimeAttr <> TypeAttr -> MTimeAttr <> ParentidAttr -> MTimeAttr <> NameAttr ->
  MTimeAttr <> BlobIDAttr -> MTimeAttr <> BlobsizeAttr -> MTimeAttr <> StatusPrefix ->
  fst (CreateNodeForUpload disableVersioning env sess initAttrs st) = inr n ->
  exists f,
    files (snd (CreateNodeForUpload disableVersioning env sess initAttrs st))
      !! InternalPath (sSpaceID sess) (sNodeID sess) = Some f /\
    xattrs f !! MTimeAttr
    = Some (FormatRFC3339Nano (default (now env) (sMTime sess))).
Proof.
  intros H1 H2 H3 H4 H5 H6.
  unfold CreateNodeForUpload.
  destruct (fails env OpReadSpaceRoot); [done|].
  destruct (fails env OpCheckLock); [done|].
  destruct (if sNodeExists sess then _ else _) as [[unlock err] st1].
  destruct err as [e|]; [done|].
  destruct (SetXattrs env _ _ st1) as [st2|] eqn:Hset; [|done].
  destruct (Persist env st2) as [st3|] eqn:Hper; [|done].
  simpl. intros _. rewrite run_unlock_files.
  unfold Persist in Hper. destruct (fails env OpPersist); [done|]. simplify_eq.
  simpl. unfold SetXattrs in Hset.
  destruct (fails env OpSetXattrs); [done|].
  destruct (files st1 !! n_InternalPath (new_node sess)) as [f|]; [|done].
  simplify_eq. simpl.
  eexists. split.
  - unfold n_InternalPath. simpl. apply lookup_insert_eq.
  - simpl. apply lookup_union_Some_l. unfold technical_attrs.
    rewrite !lookup_insert_ne by congruence.
    rewrite lookup_insert_eq. now destruct (sMTime sess).
Qed.

End Store.

Import UploadModel.

Lemma violated_precondition_writes_nothing_witness :
  files (snd (CreateNodeForUpload true quiet (session true "stale" "" "") ∅ existing))
  = files existing.
Proof.
  apply (violated_precondition_writes_nothing true quiet (session true "stale" "" "")
           ∅ existing "n1:1000" 1000); reflexivity.
Defined.

Lemma completed_upload_marks_processing_witness :
  new_node (session false "" "" "") = new_node (session false "" "" "") /\
  exists f,
    files (snd (CreateNodeForUpload false quiet (session false "" "" "") ∅ empty))
      !! InternalPath "s1" "n1" = Some f /\
    xattrs f !! StatusPrefix = Some (ProcessingStatus ++ "u1").
Proof.
  destruct (completed_upload_marks_processing false quiet (session false "" "" "")
              ∅ empty (new_node (session false "" "" ""))) as (Hn & Hf & _).
  - vm_compute. reflexivity.
  - split; [exact Hn|exact Hf].
Defined.

Lemma overwrite_without_versioning_witness :
  MetaData (snd (CreateNodeForUpload true quiet (session true "" "" "") ∅ existing))
    !! "versionsPath" = Some (InternalPath "s1" "n1").
Proof.
  destruct (overwrite_without_versioning true quiet (session true "" "" "") ∅ existing
              (new_node (session true "" "" ""))) as (_ & Hpath & _).
  - reflexivity.
  - reflexivity.
  - vm_compute. reflexivity.
  - exact Hpath.
Defined.

Lemma new_target_keeps_existing_file_witness :
  files (snd (CreateNodeForUpload false quiet (session false "" "" "") ∅ existing))
  = files existing.
Proof.
  apply (new_target_keeps_existing_file false quiet (session false "" "" "") ∅ existing).
  - reflexivity.
  - vm_compute. eauto.
Defined.

Lemma rejected_new_target_leaves_file_witness :
  fst (CreateNodeForUpload false quota_exceeded (session false "" "" "") ∅ empty)
  = inl (Failed OpCheckQuota).
Proof.
  apply (rejected_new_target_leaves_file false quota_exceeded (session false "" "" "")
           ∅ empty); reflexivity.
Defined.

Lemma completed_upload_mtime_witness :
  exists f,
    files (snd (CreateNodeForUpload false quiet (session false "" "" "") ∅ empty))
      !! InternalPath "s1" "n1" = Some f /\
    xattrs f !! MTimeAttr = Some (FormatRFC3339Nano 2000).
Proof.
  apply (completed_upload_mtime false quiet (session false "" "" "") ∅ empty
           (new_node (session false "" "" ""))); try (vm_compute; discriminate).
  vm_compute. reflexivity.
Defined.

End UploadMore.

(** ** decomposedfs: further properties of the consumer *)

Module ConsumerMore.
Import Go Decomposedfs DecomposedfsMore.

Section Generic.
Context {W : Type} `{Services W}.

Lemma outcome_flags_effect ev up (st : St W) :
  (String.eqb (Outcome ev) PPOutcomeContinue = true /\
   outcome_flags ev up st
   = (negb (fst (Finalize up (world st))),
      negb (fst (Finalize up (world st))),
      (if fst (Finalize up (world st))
       then step (CFinalize (UploadID ev)) (snd (Finalize up (world st))) st
       else logf "could not finalize upload"
              (step (CFinalize (UploadID ev)) (snd (Finalize up (world st))) st)))) \/
  (String.eqb (Outcome ev) PPOutcomeContinue = false /\
   exists keepUpload st',
     outcome_flags ev up st = (true, keepUpload, st') /\
     world st' = world st /\ calls st' = calls st /\ published st' = published st).
Proof.
  unfold outcome_flags.
  destruct (String.eqb_spec (Outcome ev) PPOutcomeAbort) as [Ha|Ha].
  { right. rewrite Ha. split; [reflexivity|]. eauto 10. }
  destruct (String.eqb (Outcome ev) PPOutcomeContinue).
  - left. split; [done|].
    destruct (Finalize up (world st)) as [ok w]. now destruct ok.
  - right. split; [done|].
    destruct (String.eqb (Outcome ev) PPOutcomeDelete); eauto 10.
Qed.

(** The calls of the part behind the outcome switch: none when the node
    cannot be read, else an optional propagation followed by the removal
    of the cache entry, the cleanup and the publication. *)
Lemma conclude_calls ev up failed keepUpload (st : St W) :
  calls (conclude ev up failed keepUpload st) = calls st \/
  exists pre n,
    (pre = [] \/ exists p, pre = [CPropagate p]) /\
    calls (conclude ev up failed keepUpload st)
    = (calls st ++ pre ++
       [CRemoveStat (ExecutingUser ev)
          {| StorageId := ""; SpaceId := SpaceID n; OpaqueId := ID n |};
        CCleanup (UploadID ev) failed keepUpload;
        CPublish (upload_ready ev (with_Node up n) failed)])%list.
Proof.
  unfold conclude.
  destruct (ReadNode _ _ (world st)) as [n|]; [|now left].
  right.
  destruct (ReadNode (map_get (InfoStorage (with_Node up n)) "SpaceRoot")
              (ParentID n) (world st)) as [p|].
  - exists [CPropagate p], n. split; [eauto|].
    repeat (case_match; simplify_eq; simpl in * ); rewrite <- !app_assoc; done.
  - exists [], n. split; [eauto|].
    repeat (case_match; simplify_eq; simpl in * ); rewrite <- !app_assoc; done.
Qed.

Lemma conclude_published_flag ev up failed keepUpload (st : St W) :
  published (conclude ev up failed keepUpload st) = published st \/
  exists ready,
    rFailed ready = failed /\ rUploadID ready = UploadID ev /\
    rExecutingUser ready = ExecutingUser ev /\
    published (conclude ev up failed keepUpload st) = (published st ++ [ready])%list.
Proof.
  unfold conclude.
  repeat (case_match; simplify_eq; simpl in * ); try (now left);
    match goal with
    | |- context [upload_ready ev ?u ?f] =>
        right; exists (upload_ready ev u f); now repeat split
    end.
Qed.

(** The [failed] flag of the [UploadReady] event: an event published for
    an upload reports success exactly when the outcome was continue and
    [Finalize] returned no error. *)
Theorem upload_ready_reports_finalize ev (st : St W) up :
  upload_Get (UploadID ev) (world st) = Some up ->
  published (postprocessingFinished ev st) = published st \/
  exists ready,
    published (postprocessingFinished ev st) = (published st ++ [ready])%list /\
    rUploadID ready = UploadID ev /\
    rExecutingUser ready = ExecutingUser ev /\
    rFailed ready
    = negb (String.eqb (Outcome ev) PPOutcomeContinue
            && fst (Finalize up (world st))).
Proof.
  intros Hget. unfold postprocessingFinished. rewrite Hget.
  destruct (outcome_flags_effect ev up st)
    as [[Hc Ho] | [Hc (keepUpload & st' & Ho & Hw & Hcalls & Hp)]]; rewrite Ho, Hc.
  - match goal with
    | |- context [conclude ev up ?f ?k ?s] =>
        destruct (conclude_published_flag ev up f k s)
          as [Hpub | (ready & Hf & Hid & Hu & Hpub)];
        assert (published s = published st) as Hs
          by (destruct (fst (Finalize up (world st))); reflexivity)
    end.
    + left. now rewrite Hpub.
    + right. exists ready. rewrite Hpub, Hs. repeat split; try done.
  - destruct (conclude_published_flag ev up true keepUpload st')
      as [Hpub | (ready & Hf & Hid & Hu & Hpub)].
    + left. now rewrite Hpub.
    + right. exists ready. rewrite Hpub, Hp. repeat split; done.
Qed.

(** [Finalize] is called for the outcome continue only, and a cleanup is
    always the last but one call of a processing, behind the removal of
    the cache entry of the node and in front of the publication. *)
Theorem cleanup_between_cache_and_publication ev (st : St W) :
  exists ext,
    calls (postprocessingFinished ev st) = (calls st ++ ext)%list /\
    (forall id, In (CFinalize id) ext -> Outcome ev = PPOutcomeContinue) /\
    (forall id failed keepUpload,
        In (CCleanup id failed keepUpload) ext ->
        exists pre rid ready,
          ext = (pre ++ [CRemoveStat (ExecutingUser ev) rid;
                         CCleanup id failed keepUpload;
                         CPublish ready])%list /\
          rFailed ready = failed).
Proof.
  unfold postprocessingFinished.
  destruct (upload_Get (UploadID ev) (world st)) as [up|].
  2: { exists []. rewrite app_nil_r. repeat split; [|intros ? ? ? []]. intros ? []. }
  assert (forall fin failed keepUpload (st1 : St W),
             calls st1 = (calls st ++ fin)%list ->
             (fin = [] \/ (fin = [CFinalize (UploadID ev)] /\
                           Outcome ev = PPOutcomeContinue)) ->
             exists ext,
               calls (conclude ev up failed keepUpload st1) = (calls st ++ ext)%list /\
               (forall id, In (CFinalize id) ext -> Outcome ev = PPOutcomeContinue) /\
               (forall id failed' keepUpload',
                   In (CCleanup id failed' keepUpload') ext ->
                   exists pre rid ready,
                     ext = (pre ++ [CRemoveStat (ExecutingUser ev) rid;
                                    CCleanup id failed' keepUpload';
                                    CPublish ready])%list /\
                     rFailed ready = failed')) as Hshape.
  { intros fin failed keepUpload st1 Hst1 Hfin.
    destruct (conclude_calls ev up failed keepUpload st1)
      as [Hc | (pre & n & Hpre & Hc)]; rewrite Hc, Hst1.
    - exists fin. split; [done|]. split.
      + intros id Hin. destruct Hfin as [-> | [-> Ho]]; [destruct Hin|done].
      + intros id f k Hin.
        destruct Hfin as [-> | [-> Ho]]; [destruct Hin|].
        destruct Hin as [Hin | []]. discriminate.
    - eexists. split; [now rewrite <- app_assoc|]. split.
      + intros id Hin. apply in_app_iff in Hin as [Hin | Hin].
        * destruct Hfin as [-> | [-> Ho]]; [destruct Hin|done].
        * exfalso. apply in_app_iff in Hin as [Hin | Hin].
          -- destruct Hpre as [-> | [p ->]]; [destruct Hin|].
             destruct Hin as [Hin | []]. discriminate.
          -- simpl in Hin. intuition discriminate.
      + intros id f k Hin.
        assert (CCleanup id f k = CCleanup (UploadID ev) failed keepUpload) as Heq.
        { apply in_app_iff in Hin as [Hin | Hin].
          - exfalso. destruct Hfin as [-> | [-> Ho]]; [destruct Hin|].
            destruct Hin as [Hin | []]. discriminate.
          - apply in_app_iff in Hin as [Hin | Hin].
            + exfalso. destruct Hpre as [-> | [p ->]]; [destruct Hin|].
              destruct Hin as [Hin | []]. discriminate.
            + simpl in Hin. destruct Hin as [Hin | [Hin | [Hin | []]]];
                try discriminate. now symmetry. }
        injection Heq as -> -> ->.
        exists (fin ++ pre)%list. eexists _, _.
        split; [now rewrite <- app_assoc|]. reflexivity. }
  destruct (outcome_flags_effect ev up st)
    as [[Hc Ho] | [Hc (keepUpload & st' & Ho & Hw & Hcalls & Hp)]]; rewrite Ho.
  - apply (Hshape [CFinalize (UploadID ev)]).
    + now destruct (fst (Finalize up (world st))).
    + right. split; [done|]. now apply String.eqb_eq.
  - apply (Hshape []); [now rewrite app_nil_r|now left].
Qed.

(** *** The virus scan *)

Lemma delete_new_shape u ref versions revs : forall st : St W,
  calls (delete_new u ref versions revs st)
  = (calls st ++ map (fun v => CDeleteRevision ref (Key v))
                     (List.filter (unseen versions) revs))%list /\
  published (delete_new u ref versions revs st) = published st.
Proof.
  unfold delete_new, unseen.
  induction revs as [|v revs IH]; intros st; simpl.
  - now rewrite app_nil_r.
  - destruct (versions !! Mtime v) as [k|]; [apply IH|].
    destruct (DeleteRevision u ref (Key v) (world st)) as [ok w].
    match goal with
    | |- context [fold_left _ revs ?s] => destruct (IH s) as [Hc Hp]
    end.
    rewrite Hc, Hp. destruct ok; simpl; now rewrite <- app_assoc.
Qed.

Lemma remember_unseen revs versions nv v :
  remember revs = (versions, nv) ->
  unseen versions v = true <-> forall v0, In v0 revs -> Mtime v0 <> Mtime v.
Proof.
  intros Hrem. unfold remember in Hrem.
  assert (remembered ([] ++ revs) (fold_left remember_step revs (∅, 0))) as Hr.
  { apply ConsumerProofs.remembered_fold. unfold remembered. simpl. split_and!.
    - intros m k Hm. now rewrite lookup_empty in Hm.
    - intros v0 [].
    - intros v0 [].
    - now left. }
  rewrite Hrem in Hr. simpl in Hr. destruct Hr as (Hk & Hs & _ & _). simpl in *.
  unfold unseen. split.
  - intros Hu v0 Hin Hm. destruct (Hs v0 Hin) as [k Hkv].
    rewrite Hm in Hkv. now rewrite Hkv in Hu.
  - intros Hall. destruct (versions !! Mtime v) as [k|] eqn:Hm; [|done].
    destruct (Hk _ k Hm) as (v0 & Hin & Hmv & _). now destruct (Hall v0 Hin).
Qed.

(** The calls of the deletion of an infected resource, case by case. *)
Lemma delete_infected_shape ev ref n (st : St W) :
  let u := vExecutingUser ev in
  let rid := {| StorageId := ""; SpaceId := SpaceID n; OpaqueId := ID n |} in
  let spaceRef :=
    {| ResourceID := Some {| StorageId := ""; SpaceId := SpaceID n;
                             OpaqueId := SpaceID n |};
       Path := "" |} in
  let revs := fst (ListRevisions u ref (world st)) in
  let key := version_key (fst (remember revs)) (snd (remember revs)) in
  published (delete_infected ev ref n st) = published st /\
  exists ext,
    calls (delete_infected ev ref n st) = (calls st ++ ext)%list /\
    ((revs = [] /\ fst (Delete u ref (world st)) = false /\ ext = [CDelete ref]) \/
     (revs = [] /\ fst (Delete u ref (world st)) = true /\
      ext = [CDelete ref; CPurgeRecycleItem spaceRef (ID n) "/"; CRemoveStat u rid]) \/
     (revs <> [] /\ fst (RestoreRevision u ref key (world st)) = false /\
      ext = [CRestoreRevision ref key]) \/
     (revs <> [] /\ fst (RestoreRevision u ref key (world st)) = true /\
      ext = (CRestoreRevision ref key
             :: map (fun v => CDeleteRevision ref (Key v))
                    (List.filter (unseen (fst (remember revs)))
                       (fst (ListRevisions u ref
                               (snd (RestoreRevision u ref key (world st))))))
             ++ [CRemoveStat u rid])%list)).
Proof.
  intros u rid spaceRef revs key. unfold delete_infected. fold u.
  subst key revs.
  destruct (ListRevisions u ref (world st)) as [revs ok]. simpl.
  destruct revs as [|v0 revs'].
  - simpl.
    assert (world (if ok then st
                   else logf "Failed to list revisions. Fallback to delete file" st)
            = world st) as Hw by now destruct ok.
    assert (calls (if ok then st
                   else logf "Failed to list revisions. Fallback to delete file" st)
            = calls st) as Hc by now destruct ok.
    assert (published (if ok then st
                       else logf "Failed to list revisions. Fallback to delete file" st)
            = published st) as Hp by now destruct ok.
    rewrite Hw. destruct (Delete u ref (world st)) as [okd w1]. simpl.
    destruct okd; simpl.
    + destruct (PurgeRecycleItem u _ (ID n) "/" w1) as [okp w2]. simpl.
      split; [now destruct okp|].
      eexists. split; [|right; left; repeat split].
      destruct okp; simpl; rewrite Hc, <- !app_assoc; done.
    + split; [done|]. eexists. split; [|left; repeat split]. now rewrite Hc.
  - change (length (v0 :: revs') =? 0)%nat with false. cbv iota.
    destruct (remember (v0 :: revs')) as [versions nv]. simpl.
    destruct (RestoreRevision u ref (version_key versions nv) (world st))
      as [okr w1]. simpl.
    destruct okr; simpl.
    + destruct (ListRevisions u ref w1) as [revs2 ok2]. simpl.
      match goal with
      | |- context [delete_new u ref versions revs2 ?s] =>
          destruct (delete_new_shape u ref versions revs2 s) as [Hc Hp];
          assert (calls s = (calls st ++ [CRestoreRevision ref (version_key versions nv)])%list)
            as Hs by (now destruct ok2);
          assert (published s = published st) as Hsp by (now destruct ok2)
      end.
      split; [now rewrite Hp|].
      eexists. split; [|right; right; right; repeat split; done].
      rewrite Hc, Hs, <- !app_assoc. done.
    + split; [done|]. eexists. split; [|right; right; left; repeat split; done].
      done.
Qed.

Lemma set_scan_data_shape ev n (st : St W) :
  published (set_scan_data ev n st) = published st /\
  exists ext,
    calls (set_scan_data ev n st) = (calls st ++ ext)%list /\
    forall c, In c ext ->
              (exists n' d t, c = CSetScanData n' d t) \/
              (exists u rid, c = CRemoveStat u rid).
Proof.
  unfold set_scan_data, remove_stat.
  destruct (SetScanData n (vDescription ev) (vScandate ev) (world st)) as [ok w].
  destruct ok; simpl; (split; [done|]).
  - eexists. split; [now rewrite <- app_assoc|].
    intros c [<- | [<- | []]]; eauto 10.
  - eexists. split; [done|]. intros c [<- | []]; eauto 10.
Qed.

Lemma virusscanFinished_published ev (st : St W) :
  published (virusscanFinished ev st) = published st.
Proof.
  unfold virusscanFinished.
  repeat case_match; simpl; try done;
    try apply set_scan_data_shape; apply delete_infected_shape.
Qed.

(** A scan of an upload (the event names an upload id) only stores the
    scan result: whatever its outcome, the consumer issues no call but
    [SetScanData] and the removal of the cache entry; it deletes, purges
    and restores nothing. *)
Theorem upload_scan_only_stores_result ev (st : St W) :
  vUploadID ev <> "" ->
  exists ext,
    calls (virusscanFinished ev st) = (calls st ++ ext)%list /\
    forall c, In c ext ->
              (exists n d t, c = CSetScanData n d t) \/
              (exists u rid, c = CRemoveStat u rid).
Proof.
  intros Hup. apply String.eqb_neq in Hup.
  unfold virusscanFinished. rewrite Hup.
  destruct (negb (String.eqb (vErrorMsg ev) "")).
  { exists []. split; [now rewrite app_nil_r|]. intros c []. }
  destruct (upload_Get (vUploadID ev) (world st)) as [up|].
  2: { exists []. split; [now rewrite app_nil_r|]. intros c []. }
  destruct (ReadNode _ _ (world st)) as [n|].
  2: { exists []. split; [now rewrite app_nil_r|]. intros c []. }
  apply set_scan_data_shape.
Qed.

(** The consumer purges the recycle bin only behind a [Delete] of the
    scanned resource that succeeded, and deletes revisions only behind a
    [RestoreRevision] that succeeded. *)
Theorem scan_deletes_only_after_success ev (st : St W) :
  let u := vExecutingUser ev in
  let ref := {| ResourceID := vResourceID ev; Path := "" |} in
  exists ext,
    calls (virusscanFinished ev st) = (calls st ++ ext)%list /\
    (forall spaceRef key path,
        In (CPurgeRecycleItem spaceRef key path) ext ->
        In (CDelete ref) ext /\ fst (Delete u ref (world st)) = true) /\
    (forall r key,
        In (CDeleteRevision r key) ext ->
        exists restored,
          In (CRestoreRevision ref restored) ext /\
          fst (RestoreRevision u ref restored (world st)) = true).
Proof.
  intros u ref.
  assert (forall ext0,
             (forall c, In c ext0 ->
                        (exists n d t, c = CSetScanData n d t) \/
                        (exists u rid, c = CRemoveStat u rid)) ->
             (forall spaceRef key path,
                 In (CPurgeRecycleItem spaceRef key path) ext0 ->
                 In (CDelete ref) ext0 /\ fst (Delete u ref (world st)) = true) /\
             (forall r key,
                 In (CDeleteRevision r key) ext0 ->
                 exists restored,
                   In (CRestoreRevision ref restored) ext0 /\
                   fst (RestoreRevision u ref restored (world st)) = true)) as Hnone.
  { intros ext0 Hext0. split.
    - intros sr k pth Hin.
      destruct (Hext0 _ Hin) as [(? & ? & ? & ?) | (? & ? & ?)]; discriminate.
    - intros r k Hin.
      destruct (Hext0 _ Hin) as [(? & ? & ? & ?) | (? & ? & ?)]; discriminate. }
  assert (forall c : Call, In c [] -> (exists n d t, c = CSetScanData n d t) \/
                                      (exists u rid, c = CRemoveStat u rid)) as Hnil
    by (intros c []).
  unfold virusscanFinished.
  destruct (negb (String.eqb (vErrorMsg ev) "")).
  { exists []. split; [now rewrite app_nil_r|]. now apply Hnone. }
  destruct (String.eqb (vUploadID ev) "").
  - fold u ref.
    destruct (NodeFromResource u ref (world st)) as [n|].
    2: { exists []. split; [now rewrite app_nil_r|]. now apply Hnone. }
    destruct (String.eqb (vOutcome ev) PPOutcomeDelete).
    + destruct (delete_infected_shape ev ref n st) as [_ (ext & Hc & Hcase)].
      fold u in Hcase. exists ext. split; [done|].
      destruct Hcase as [(_ & Hd & ->) | [(_ & Hd & ->) | [(_ & Hr & ->) | (_ & Hr & ->)]]].
      * split.
        -- intros sr k pth [Hin | []]. discriminate.
        -- intros r k [Hin | []]. discriminate.
      * split.
        -- intros sr k pth _. split; [now left|done].
        -- intros r k Hin. simpl in Hin. intuition discriminate.
      * split.
        -- intros sr k pth [Hin | []]. discriminate.
        -- intros r k [Hin | []]. discriminate.
      * split.
        -- intros sr k pth [Hin | Hin]; [discriminate|].
           apply in_app_iff in Hin as [Hin | [Hin | []]]; [|discriminate].
           apply in_map_iff in Hin as (v & Hv & _). discriminate.
        -- intros r k _. eexists. split; [now left|done].
    + destruct (set_scan_data_shape ev n st) as [_ (ext & Hc & Hext)].
      exists ext. split; [done|]. now apply Hnone.
  - destruct (upload_Get (vUploadID ev) (world st)) as [up|].
    2: { exists []. split; [now rewrite app_nil_r|]. now apply Hnone. }
    destruct (ReadNode _ _ (world st)) as [n|].
    2: { exists []. split; [now rewrite app_nil_r|]. now apply Hnone. }
    destruct (set_scan_data_shape ev n st) as [_ (ext & Hc & Hext)].
    exists ext. split; [done|]. now apply Hnone.
Qed.

(** The consumer never deletes a revision that carries the mtime of one
    of the versions the resource had before the scan: every revision it
    deletes is listed after the restore with an mtime none of the prior
    versions has. *)
Theorem prior_versions_are_kept ev (st : St W) :
  let u := vExecutingUser ev in
  let ref := {| ResourceID := vResourceID ev; Path := "" |} in
  exists ext,
    calls (virusscanFinished ev st) = (calls st ++ ext)%list /\
    forall r key,
      In (CDeleteRevision r key) ext ->
      r = ref /\
      exists restored v,
        In v (fst (ListRevisions u ref
                     (snd (RestoreRevision u ref restored (world st))))) /\
        Key v = key /\
        forall v0, In v0 (fst (ListRevisions u ref (world st))) ->
                   Mtime v0 <> Mtime v.
Proof.
  intros u ref.
  assert (forall ext0 (P : Reference -> string -> Prop),
             (forall c, In c ext0 ->
                        (exists n d t, c = CSetScanData n d t) \/
                        (exists u rid, c = CRemoveStat u rid)) ->
             forall r key, In (CDeleteRevision r key) ext0 -> P r key) as Hnone.
  { intros ext0 P Hext0 r k Hin.
    destruct (Hext0 _ Hin) as [(? & ? & ? & ?) | (? & ? & ?)]; discriminate. }
  assert (forall c : Call, In c [] -> (exists n d t, c = CSetScanData n d t) \/
                                      (exists u rid, c = CRemoveStat u rid)) as Hnil
    by (intros c []).
  unfold virusscanFinished.
  destruct (negb (String.eqb (vErrorMsg ev) "")).
  { exists []. split; [now rewrite app_nil_r|]. now apply Hnone. }
  destruct (String.eqb (vUploadID ev) "").
  - fold u ref.
    destruct (NodeFromResource u ref (world st)) as [n|].
    2: { exists []. split; [now rewrite app_nil_r|]. now apply Hnone. }
    destruct (String.eqb (vOutcome ev) PPOutcomeDelete).
    + destruct (delete_infected_shape ev ref n st) as [_ (ext & Hc & Hcase)].
      fold u in Hcase. exists ext. split; [done|].
      destruct Hcase as [(_ & Hd & ->) | [(_ & Hd & ->) | [(_ & Hr & ->) | (_ & Hr & ->)]]].
      * intros r k [Hin | []]. discriminate.
      * intros r k Hin. simpl in Hin. intuition discriminate.
      * intros r k [Hin | []]. discriminate.
      * intros r k [Hin | Hin]; [discriminate|].
        apply in_app_iff in Hin as [Hin | [Hin | []]]; [|discriminate].
        apply in_map_iff in Hin as (v & Hv & Hin). injection Hv as <- <-.
        apply filter_In in Hin as [Hin Hunseen].
        split; [done|]. eexists _, v. split; [exact Hin|]. split; [done|].
        eapply remember_unseen; [|exact Hunseen]. apply surjective_pairing.
    + destruct (set_scan_data_shape ev n st) as [_ (ext & Hc & Hext)].
      exists ext. split; [done|]. now apply Hnone.
  - destruct (upload_Get (vUploadID ev) (world st)) as [up|].
    2: { exists []. split; [now rewrite app_nil_r|]. now apply Hnone. }
    destruct (ReadNode _ _ (world st)) as [n|].
    2: { exists []. split; [now rewrite app_nil_r|]. now apply Hnone. }
    destruct (set_scan_data_shape ev n st) as [_ (ext & Hc & Hext)].
    exists ext. split; [done|]. now apply Hnone.
Qed.

(** *** The loop over the channel *)

Lemma handle_published event (st : St W) :
  (length (published (handle event st))
   <= length (published st) + count_finished [event])%nat.
Proof.
  destruct event as [ev|ev|]; simpl.
  - destruct (ConsumerProofs.postprocessingFinished_published ev st)
      as [Hp | (ready & _ & Hp)]; rewrite Hp; [lia|].
    rewrite length_app. simpl. lia.
  - rewrite virusscanFinished_published. lia.
  - lia.
Qed.

(** The consumer publishes at most one [UploadReady] event for each
    [PostprocessingFinished] event of the channel; scan events and
    unknown events publish nothing. *)
Theorem at_most_one_ready_per_finished_event ch : forall st : St W,
  (length (published (Postprocessing ch st))
   <= length (published st) + count_finished ch)%nat.
Proof.
  unfold Postprocessing.
  induction ch as [|event ch IH]; intros st; simpl; [lia|].
  specialize (IH (handle event st)).
  pose proof (handle_published event st) as Hh.
  destruct event; simpl in *; lia.
Qed.

End Generic.

Import DecomposedfsModel.

Lemma upload_ready_reports_finalize_witness :
  exists ready,
    published (postprocessingFinished (finished PPOutcomeContinue) (start processing))
    = ([] ++ [ready])%list /\
    rFailed ready = false.
Proof.
  destruct (upload_ready_reports_finalize (finished PPOutcomeContinue)
              (start processing) upload_u1) as [Hp | (ready & Hp & _ & _ & Hf)].
  - reflexivity.
  - vm_compute in Hp. discriminate.
  - exists ready. split; [exact Hp|exact Hf].
Defined.

Lemma upload_scan_only_stores_result_witness :
  exists ext,
    calls (virusscanFinished
             {| vUploadID := "u1"; vResourceID := None; vOutcome := PPOutcomeDelete;
                vErrorMsg := ""; vDescription := "infected"; vScandate := 400;
                vExecutingUser := "alice" |} (start processing))
    = ([] ++ ext)%list /\
    forall c, In c ext ->
              (exists n d t, c = CSetScanData n d t) \/
              (exists u rid, c = CRemoveStat u rid).
Proof.
  apply (upload_scan_only_stores_result
           {| vUploadID := "u1"; vResourceID := None; vOutcome := PPOutcomeDelete;
              vErrorMsg := ""; vDescription := "infected"; vScandate := 400;
              vExecutingUser := "alice" |} (start processing)).
  simpl. discriminate.
Defined.

End ConsumerMore.

(** ** decomposedfs: further properties of GetQuota *)

Module QuotaMore.
Import Go Decomposedfs DecomposedfsMore.

Section Quota.
Variables QuotaUncalculated QuotaUnknown QuotaUnlimited : string.
Variable filepath_Join : string -> string -> string.

(** The remaining value [GetQuota] returns never exceeds the free space
    of the storage, and it is the free space whenever the quota parsed
    from the quota string is larger than the free space. *)
Theorem GetQuota_remaining_within_free_space env ref ri free total used remaining :
  resource_info env = Some ri ->
  available_size env = Some free ->
  is_uint64 (Size ri) ->
  0 <= free ->
  GetQuota QuotaUncalculated QuotaUnknown QuotaUnlimited filepath_Join env ref
  = inr (total, used, remaining) ->
  0 <= remaining <= free /\
  (free < total -> remaining = free).
Proof.
  intros Hri Hfree Hsize Hpos.
  unfold is_uint64 in *. unfold GetQuota. rewrite Hri, Hfree.
  intros Hres.
  repeat case_match; simplify_eq;
    repeat match goal with
           | Hb : (_ <=? _) = true |- _ => apply Z.leb_le in Hb
           | Hb : (_ <=? _) = false |- _ => apply Z.leb_gt in Hb
           | Hp : ParseUint _ = Some _ |- _ =>
               apply QuotaProofs.ParseUint_range in Hp; unfold is_uint64 in Hp
           end;
    unfold to_uint64; try (rewrite Z.mod_small by lia); lia.
Qed.

End Quota.

Lemma GetQuota_remaining_within_free_space_witness :
  0 <= 50 <= 50 /\ (50 < 100 -> 50 = 50).
Proof.
  apply (GetQuota_remaining_within_free_space "-1" "-2" "0" (fun a b => a ++ "/" ++ b)
           (quota_env "plain" "100" 30 50)
           (Some {| ResourceID := None; Path := "" |})
           {| Size := 30;
              Opaque := Some {[ "quota" := {| Decoder := "plain"; Value := "100" |} ]} |}
           50 100 30 50).
  - reflexivity.
  - reflexivity.
  - unfold is_uint64. simpl. lia.
  - lia.
  - reflexivity.
Defined.

End QuotaMore.

(** ** http/services/appprovider: further properties *)

Module AppProviderMoreProofs.
Import Go AppProvider AppProviderMore.

Lemma path_Split_slash p :
  if has_slash p then fst (path_Split p) <> "" else path_Split p = ("", p).
Proof.
  induction p as [|c p IH]; simpl; [reflexivity|].
  destruct (path_Split p) as [d f].
  destruct (has_slash p); simpl in *.
  - rewrite orb_true_r. apply String.eqb_neq in IH. rewrite IH. simpl. discriminate.
  - injection IH as -> ->. simpl.
    destruct (Ascii.eqb c "/"); simpl; [discriminate|reflexivity].
Qed.

Section Handler.
Context `{Gateway}.

Lemma upload_empty_trace fileRef createRes t3 :
  exists tail, snd (upload_empty fileRef createRes t3) = (t3 ++ tail)%list /\
               Forall not_initiate tail.
Proof.
  unfold upload_empty.
  destruct (simple_endpoint (Protocols createRes)) as [ep token].
  repeat case_match; simpl;
    first [ exists []; split; [now rewrite app_nil_r | constructor]
          | exists [CHttpPut ep token]; split; [reflexivity | repeat constructor]
          | exists [CHttpPut ep token; CStat fileRef]; split;
            [now rewrite <- app_assoc | repeat constructor] ].
Qed.

(** For a request with a usable parent container id and a filename,
    [handleNew] reaches the gateway exactly when the filename contains no
    slash: with a slash it answers the invalid parameter error without any
    call, without one its first call is the stat of the parent
    container. *)
Theorem handleNew_reaches_gateway_iff_no_slash r id :
  let filename := map_get (Query r) "filename" in
  GetGatewayServiceClient = true ->
  map_get (Query r) "template" = "" ->
  map_get (Query r) "parent_container_id" <> "" ->
  OwnCloudResourceIDUnwrap (map_get (Query r) "parent_container_id") = Some id ->
  filename <> "" ->
  if has_slash filename
  then handleNew r = (Error appErrorInvalidParameter
                            "the filename must not contain a path segment", [])
  else exists rest, snd (handleNew r) = CStat (ByResourceId id) :: rest.
Proof.
  intros filename Hc Ht Hp Hid Hf.
  apply String.eqb_neq in Hp, Hf.
  pose proof (path_Split_slash filename) as Hs.
  unfold handleNew. fold filename. rewrite Hc, Ht, Hp, Hid, Hf. simpl.
  destruct (has_slash filename).
  - destruct (path_Split filename) as [d f]. simpl in Hs.
    apply String.eqb_neq in Hs. now rewrite Hs.
  - rewrite Hs. rewrite String.eqb_refl. simpl.
    repeat case_match;
      try match goal with
          | |- context [upload_empty ?f ?c ?t] =>
              destruct (upload_empty_trace f c t) as (tail & -> & _)
          end;
      simpl; eauto.
    rewrite String.eqb_refl in *. discriminate.
Qed.

Lemma upload_empty_Json fileRef createRes t3 fid :
  fst (upload_empty fileRef createRes t3) = Json fid ->
  exists ep token status created,
    snd (upload_empty fileRef createRes t3)
    = (t3 ++ [CHttpPut ep token; CStat fileRef])%list /\
    HttpPut t3 ep token = Some status /\
    (status = StatusOK \/ status = StatusForbidden) /\
    Stat (t3 ++ [CHttpPut ep token]) fileRef = Some created /\
    StatusCode created = CODE_OK /\
    InfoType created = RESOURCE_TYPE_FILE /\
    fid = OwnCloudResourceIDWrap (InfoId created).
Proof.
  unfold upload_empty.
  destruct (simple_endpoint (Protocols createRes)) as [ep token].
  repeat case_match; simpl; try discriminate.
  intros [= <-].
  exists ep, token, z, s. rewrite <- app_assoc. simpl.
  split_and!; try done.
  destruct (Z.eqb_spec z StatusForbidden); [now right|].
  destruct (Z.eqb_spec z StatusOK); [now left|]. done.
Qed.

(** [handleNew] initiates an upload only for a path the gateway has just
    reported as not found, inside a parent the gateway reported as an
    existing container: an existing file is never written over. *)
Theorem handleNew_uploads_only_missing_files r ref :
  In (CInitiateFileUpload ref) (snd (handleNew r)) ->
  exists id parent resp,
    Stat [] (ByResourceId id) = Some parent /\
    StatusCode parent = CODE_OK /\
    InfoType parent = RESOURCE_TYPE_CONTAINER /\
    ref = ByPath (path_Join (InfoPath parent)
                            (MakeRelativePath (map_get (Query r) "filename"))) /\
    Stat [CStat (ByResourceId id)] ref = Some resp /\
    StatusCode resp = CODE_NOT_FOUND.
Proof.
  unfold handleNew.
  repeat case_match;
    try match goal with
        | |- context [upload_empty ?f ?c ?t] =>
            destruct (upload_empty_trace f c t) as (rest & -> & Hrest)
        end;
    simpl; intros Hin;
    repeat match goal with
           | Hor : _ \/ _ |- _ => destruct Hor
           | Hf : False |- _ => destruct Hf
           end;
    simplify_eq;
    try match goal with
        | Hr : Forall not_initiate ?l, Hi : In _ ?l |- _ =>
            apply (proj1 (List.Forall_forall _ _) Hr) in Hi; destruct Hi
        end;
    eauto 10.
Qed.

(** [handleNew] answers with a file id only after all five calls: the two
    stats, the upload initiation, a PUT that the data gateway answered
    with 200 or 403, and a final stat that found a file, whose id is the
    one in the answer. *)
Theorem handleNew_answers_id_after_five_calls r fid :
  fst (handleNew r) = Json fid ->
  exists parent file ep token status created,
    snd (handleNew r) = full_trace parent file ep token /\
    HttpPut [CStat parent; CStat file; CInitiateFileUpload file] ep token
    = Some status /\
    (status = StatusOK \/ status = StatusForbidden) /\
    Stat [CStat parent; CStat file; CInitiateFileUpload file; CHttpPut ep token] file
    = Some created /\
    StatusCode created = CODE_OK /\
    InfoType created = RESOURCE_TYPE_FILE /\
    fid = OwnCloudResourceIDWrap (InfoId created).
Proof.
  unfold handleNew.
  repeat case_match; simpl; try discriminate.
  intros Hjson.
  apply upload_empty_Json in Hjson
    as (ep & token & status & created & -> & Hput & Hst & Hstat & Hok & Hty & ->).
  simpl in *. unfold full_trace. eauto 15.
Qed.

(** The endpoint and token [handleNew] uploads to are those of the last
    protocol named [simple] in the answer to the upload initiation, and
    the empty endpoint with an empty token when there is none. *)
Theorem simple_endpoint_is_last_simple ps :
  simple_endpoint ps =
  match find is_simple (rev ps) with
  | Some p => (UploadEndpoint p, Token p)
  | None => ("", "")
  end.
Proof.
  unfold simple_endpoint. rewrite <- fold_left_rev_right.
  induction (rev ps) as [|p l IH]; simpl; [reflexivity|].
  unfold is_simple at 1.
  destruct (fold_right _ _ l) as [ep token].
  destruct (String.eqb (Protocol p) "simple"); [reflexivity|]. exact IH.
Qed.

End Handler.

Section Handlers.
Context `{Gateway} `{Registry}.

Lemma fold_left_collect {A B} (c : A -> bool) (g : A -> B) l acc :
  fold_left (fun acc x => if c x then (acc ++ [g x])%list else acc) l acc
  = (acc ++ map g (List.filter c l))%list.
Proof.
  revert acc. induction l as [|x l IH]; intros acc; simpl.
  - now rewrite app_nil_r.
  - rewrite IH. destruct (c x); [|reflexivity].
    now rewrite <- app_assoc.
Qed.

Lemma visible_apps_filter desktop ps :
  visible_apps desktop ps
  = map (fun p => set_Address p "") (List.filter (advertised desktop) ps).
Proof.
  unfold visible_apps.
  apply (fold_left_collect (advertised desktop) (fun p => set_Address p "") ps []).
Qed.

Lemma filterAppsByUserAgent_filter ms userAgent :
  filterAppsByUserAgent ms userAgent
  = map (fun m => set_AppProviders m
                    (visible_apps (ua_Desktop userAgent) (AppProviders m)))
        (List.filter
           (fun m => (0 <? length (visible_apps (ua_Desktop userAgent)
                                                (AppProviders m)))%nat)
           ms).
Proof.
  unfold filterAppsByUserAgent.
  apply (fold_left_collect
           (fun m => (0 <? length (visible_apps (ua_Desktop userAgent)
                                                (AppProviders m)))%nat)
           (fun m => set_AppProviders m
                       (visible_apps (ua_Desktop userAgent) (AppProviders m)))
           ms []).
Qed.

Lemma visible_apps_idem desktop ps :
  visible_apps desktop (visible_apps desktop ps) = visible_apps desktop ps.
Proof.
  rewrite !visible_apps_filter.
  induction ps as [|p ps IH]; simpl; [reflexivity|].
  destruct (advertised desktop p) eqn:Hp; simpl; [|exact IH].
  unfold advertised in *. simpl. rewrite Hp. simpl. now rewrite IH.
Qed.

(** Whatever the registry answers, every mime type [handleList] lists has
    at least one app, and every app listed has a name, carries no
    address, and is a desktop-only app only if the user agent is a
    desktop. *)
Theorem handleList_advertises_callable_apps r ms m :
  handleList r = ListJson ms ->
  In m ms ->
  AppProviders m <> [] /\
  forall p, In p (AppProviders m) ->
    Name p <> "" /\ Address p = "" /\
    (DesktopOnly p = true -> ua_Desktop (UserAgent r) = true).
Proof.
  unfold handleList. intros Hres Hm.
  repeat case_match; simplify_eq.
  rewrite filterAppsByUserAgent_filter in Hm.
  apply in_map_iff in Hm as (m0 & <- & Hm0).
  apply filter_In in Hm0 as [_ Hlen]. simpl.
  split.
  - destruct (visible_apps _ _); [discriminate|discriminate].
  - intros p Hp. rewrite visible_apps_filter in Hp.
    apply in_map_iff in Hp as (p0 & <- & Hp0).
    apply filter_In in Hp0 as [_ Hadv]. unfold advertised in Hadv.
    apply andb_true_iff in Hadv as [Hname Hdesk]. simpl.
    split_and!.
    + apply String.eqb_neq. now apply negb_true_iff.
    + reflexivity.
    + intros Hd. rewrite Hd in Hdesk. simpl in Hdesk.
      now rewrite orb_false_r in Hdesk.
Qed.

(** [filterAppsByUserAgent] loses nothing it should keep: an app with a
    name that is not desktop-only, or any named app for a desktop user
    agent, is in the result under the mime type it was registered for,
    with only its address blanked. *)
Theorem filterAppsByUserAgent_keeps_allowed_apps ms userAgent m p :
  In m ms ->
  In p (AppProviders m) ->
  Name p <> "" ->
  DesktopOnly p = false \/ ua_Desktop userAgent = true ->
  exists m',
    In m' (filterAppsByUserAgent ms userAgent) /\
    MimeType m' = MimeType m /\
    In (set_Address p "") (AppProviders m').
Proof.
  intros Hm Hp Hname Hdesk.
  assert (In (set_Address p "")
             (visible_apps (ua_Desktop userAgent) (AppProviders m))) as Hvis.
  { rewrite visible_apps_filter. apply (in_map (fun p => set_Address p "")).
    apply filter_In. split; [exact Hp|].
    unfold advertised. apply String.eqb_neq in Hname. rewrite Hname. simpl.
    destruct Hdesk as [-> | ->]; [apply orb_true_r | reflexivity]. }
  exists (set_AppProviders m (visible_apps (ua_Desktop userAgent) (AppProviders m))).
  split_and!; [|reflexivity|exact Hvis].
  rewrite filterAppsByUserAgent_filter.
  apply (in_map (fun m => set_AppProviders m
                            (visible_apps (ua_Desktop userAgent) (AppProviders m)))).
  apply filter_In. split; [exact Hm|].
  destruct (visible_apps _ _); [destruct Hvis | reflexivity].
Qed.

(** Filtering is idempotent: a list that went through
    [filterAppsByUserAgent] is not changed by filtering it again for the
    same user agent. *)
Theorem filterAppsByUserAgent_idempotent ms userAgent :
  filterAppsByUserAgent (filterAppsByUserAgent ms userAgent) userAgent
  = filterAppsByUserAgent ms userAgent.
Proof.
  rewrite !filterAppsByUserAgent_filter.
  induction ms as [|m ms IH]; simpl; [reflexivity|].
  destruct (0 <? length (visible_apps _ (AppProviders m)))%nat eqn:Hm; simpl;
    [|exact IH].
  rewrite visible_apps_idem, Hm. simpl. rewrite IH.
  f_equal. unfold set_AppProviders. simpl. now rewrite visible_apps_idem.
Qed.

(** [handleOpen] asks the gateway to open an app only for the resource
    the file id names, after a stat that found it and reported a file,
    with a view mode that is not the invalid one and the app name of the
    request. *)
Theorem handleOpen_opens_only_files permissions r ref mode app :
  In (OOpenInApp ref mode app) (snd (handleOpen permissions r)) ->
  exists id statRes,
    OwnCloudResourceIDUnwrap (map_get (Query r) "file_id") = Some id /\
    ref = ByResourceId id /\
    Stat [] ref = Some statRes /\
    StatusCode statRes = CODE_OK /\
    InfoType statRes = RESOURCE_TYPE_FILE /\
    mode <> VIEW_MODE_INVALID /\
    app = map_get (Query r) "app_name".
Proof.
  unfold handleOpen.
  repeat case_match; simpl; intros Hin;
    repeat match goal with
           | Hor : _ \/ _ |- _ => destruct Hor
           | Hf : False |- _ => destruct Hf
           end;
    simplify_eq;
    eexists _, _; split_and!; eauto; congruence.
Qed.

(** A view mode given in the request is used without looking at the
    permissions of the user on the file: the answer and the calls of
    [handleOpen] are the same for any two permission sets. *)
Theorem explicit_view_mode_ignores_permissions permissions1 permissions2 r :
  map_get (Query r) "view_mode" <> "" ->
  handleOpen permissions1 r = handleOpen permissions2 r.
Proof.
  intros Hvm. apply String.eqb_neq in Hvm.
  unfold handleOpen, getViewMode. rewrite Hvm. reflexivity.
Qed.

(** Without a view mode in the request, [handleOpen] opens an app only
    for a user who may download the file, read-write if the user may also
    upload and read-only otherwise. *)
Theorem default_view_mode_follows_permissions permissions r ref mode app :
  map_get (Query r) "view_mode" = "" ->
  In (OOpenInApp ref mode app) (snd (handleOpen permissions r)) ->
  InitiateFileDownload (permissions ref) = true /\
  mode = (if InitiateFileUpload (permissions ref)
          then VIEW_MODE_READ_WRITE else VIEW_MODE_READ_ONLY).
Proof.
  intros Hvm. unfold handleOpen, getViewMode. rewrite Hvm. simpl.
  repeat case_match; simpl; intros Hin;
    repeat match goal with
           | Hor : _ \/ _ |- _ => destruct Hor
           | Hf : False |- _ => destruct Hf
           end;
    simplify_eq;
    repeat match goal with
           | Hb : _ && _ = true |- _ => apply andb_true_iff in Hb as [? ?]
           | Hb : _ && _ = false |- _ => apply andb_false_iff in Hb as [? | ?]
           end;
    split; congruence.
Qed.

End Handlers.

Import AppProviderModel.

Lemma handleNew_reaches_gateway_iff_no_slash_witness :
  exists rest, snd (handleNew (request "" "b.txt")) = CStat (ByResourceId container) :: rest.
Proof.
  apply (handleNew_reaches_gateway_iff_no_slash (request "" "b.txt") container).
  - reflexivity.
  - reflexivity.
  - vm_compute. discriminate.
  - reflexivity.
  - vm_compute. discriminate.
Defined.

Lemma handleNew_uploads_only_missing_files_witness :
  exists id parent resp,
    Stat [] (ByResourceId id) = Some parent /\
    StatusCode parent = CODE_OK /\
    InfoType parent = RESOURCE_TYPE_CONTAINER /\
    ByPath "/home/b.txt"
    = ByPath (path_Join (InfoPath parent)
                        (MakeRelativePath (map_get (Query (request "" "b.txt")) "filename"))) /\
    Stat [CStat (ByResourceId id)] (ByPath "/home/b.txt") = Some resp /\
    StatusCode resp = CODE_NOT_FOUND.
Proof.
  apply (handleNew_uploads_only_missing_files (request "" "b.txt") (ByPath "/home/b.txt")).
  vm_compute. auto.
Defined.

Lemma handleNew_answers_id_after_five_calls_witness :
  exists parent file ep token status created,
    snd (@handleNew files_gateway (request "" "b.txt")) = full_trace parent file ep token /\
    @HttpPut files_gateway [CStat parent; CStat file; CInitiateFileUpload file] ep token
    = Some status /\
    (status = StatusOK \/ status = StatusForbidden) /\
    @Stat files_gateway
          [CStat parent; CStat file; CInitiateFileUpload file; CHttpPut ep token] file
    = Some created /\
    StatusCode created = CODE_OK /\
    InfoType created = RESOURCE_TYPE_FILE /\
    "storage!/home/b.txt" = @OwnCloudResourceIDWrap files_gateway (InfoId created).
Proof.
  apply (@handleNew_answers_id_after_five_calls files_gateway (request "" "b.txt")
           "storage!/home/b.txt").
  reflexivity.
Defined.

Lemma handleList_advertises_callable_apps_witness :
  AppProviders (mime "text/plain" [set_Address (app "editor" false) ""]) <> [] /\
  forall p, In p (AppProviders (mime "text/plain" [set_Address (app "editor" false) ""])) ->
    Name p <> "" /\ Address p = "" /\
    (DesktopOnly p = true -> ua_Desktop (UserAgent {| UserAgent := "phone" |}) = true).
Proof.
  apply (handleList_advertises_callable_apps {| UserAgent := "phone" |}
           [mime "text/plain" [set_Address (app "editor" false) ""]]).
  - reflexivity.
  - left. reflexivity.
Defined.

Lemma filterAppsByUserAgent_keeps_allowed_apps_witness :
  exists m',
    In m' (filterAppsByUserAgent
             [mime "image/png" [app "viewer" true; app "" false]] "desktop") /\
    MimeType m' = "image/png" /\
    In (set_Address (app "viewer" true) "") (AppProviders m').
Proof.
  apply (filterAppsByUserAgent_keeps_allowed_apps
           [mime "image/png" [app "viewer" true; app "" false]] "desktop"
           (mime "image/png" [app "viewer" true; app "" false]) (app "viewer" true)).
  - left. reflexivity.
  - left. reflexivity.
  - discriminate.
  - right. reflexivity.
Defined.

Lemma handleOpen_opens_only_files_witness :
  exists id statRes,
    @OwnCloudResourceIDUnwrap files_gateway (map_get (Query (open_request "")) "file_id")
    = Some id /\
    ByResourceId {| StorageId := "storage"; OpaqueId := "f1" |} = ByResourceId id /\
    @Stat files_gateway [] (ByResourceId {| StorageId := "storage"; OpaqueId := "f1" |})
    = Some statRes /\
    StatusCode statRes = CODE_OK /\
    InfoType statRes = RESOURCE_TYPE_FILE /\
    VIEW_MODE_READ_ONLY <> VIEW_MODE_INVALID /\
    "editor" = map_get (Query (open_request "")) "app_name".
Proof.
  apply (@handleOpen_opens_only_files files_gateway registry (fun _ => read_only)
           (open_request "")).
  vm_compute. auto.
Defined.

Lemma explicit_view_mode_ignores_permissions_witness :
  @handleOpen files_gateway registry (fun _ => read_only) (open_request "write")
  = @handleOpen files_gateway registry (fun _ => no_access) (open_request "write").
Proof.
  apply (@explicit_view_mode_ignores_permissions files_gateway registry).
  vm_compute. discriminate.
Defined.

Lemma default_view_mode_follows_permissions_witness :
  InitiateFileDownload read_only = true /\
  VIEW_MODE_READ_ONLY
  = (if InitiateFileUpload read_only then VIEW_MODE_READ_WRITE else VIEW_MODE_READ_ONLY).
Proof.
  apply (@default_view_mode_follows_permissions files_gateway registry (fun _ => read_only)
           (open_request "")
           (ByResourceId {| StorageId := "storage"; OpaqueId := "f1" |})
           VIEW_MODE_READ_ONLY "editor").
  - reflexivity.
  - vm_compute. auto.
Defined.

End AppProviderMoreProofs.

(** ** share/manager/json: further properties *)

Module ShareJSONMoreProofs.
Import Go ShareJSON ShareJSONMore.

Section Manager.
Context `{Helpers}.
Context {SharePermissions MountPointRef Filter : Type}.
Variable userid_String : UserId -> string.
Variable MatchesFilters : StoredShare SharePermissions -> list Filter -> bool.

Lemma getByKey_app_miss shares1 shares2 key e :
  getByKey shares1 key = inl e ->
  getByKey (shares1 ++ shares2) key = getByKey shares2 key.
Proof.
  induction shares1 as [|s l IH]; simpl; [reflexivity|].
  destruct (_ && _); [discriminate|exact IH].
Qed.

Lemma Save_snd {A} save_ok (a : A) (m : shareModel SharePermissions MountPointRef) :
  snd (Save save_ok a m) = m.
Proof. unfold Save. now destruct save_ok. Qed.

Lemma Save_fst {A} save_ok (a b : A) (m : shareModel SharePermissions MountPointRef) :
  fst (Save save_ok a m) = inr b -> a = b.
Proof. unfold Save. destruct save_ok; simpl; congruence. Qed.

(** Once [Share] has got past its two checks, the new share is the last
    of the model, also when saving failed, and sharing the same resource
    with the same grantee again is answered with [AlreadyExists] and
    leaves the model as it is. The equalities of package [utils] are
    assumed reflexive on the owner, the resource id and the grantee. *)
Theorem Share_twice_already_exists (m : shareModel SharePermissions MountPointRef)
    user id now save_ok owner rid g p id2 now2 save_ok2 p2 :
  UserEqual owner owner = true ->
  ResourceIDEqual rid rid = true ->
  GranteeEqual g g = true ->
  (forall e, fst (Share m user id now save_ok owner rid g p) <> inl (Err e)) ->
  let m' := snd (Share m user id now save_ok owner rid g p) in
  Shares m' = (Shares m ++
               [{| share := {| sId := id; sResourceId := rid; sGrantee := g;
                               sOwner := owner; sCreator := Id user |};
                   Permissions := p; Ctime := timestamp now;
                   Mtime := timestamp now |}])%list /\
  Share m' user id2 now2 save_ok2 owner rid g p2
  = (inl (Err (AlreadyExists
                 (key_String {| kOwner := owner; kResourceId := rid;
                                kGrantee := g |}))), m').
Proof.
  intros Hu Hr Hg Hpass. unfold Share in *.
  destruct (match g with GranteeUser _ => _ | GranteeGroup _ => _ end) eqn:Hself.
  { exfalso. eapply Hpass. reflexivity. }
  destruct (getByKey _ _) as [e|s] eqn:Hkey.
  2:{ exfalso. eapply Hpass. reflexivity. }
  simpl. rewrite Save_snd. simpl. split; [reflexivity|].
  rewrite map_app. rewrite (getByKey_app_miss _ _ _ _ Hkey). simpl.
  rewrite Hu, Hr, Hg. reflexivity.
Qed.

Lemma index_where_lookup (f : StoredShare SharePermissions -> bool) l i :
  index_where f l = Some i ->
  exists s, l !! i = Some s /\ f s = true.
Proof.
  revert i. induction l as [|s l IH]; intros i; simpl; [discriminate|].
  destruct (f s) eqn:Hf.
  - intros [= <-]. eauto.
  - destruct (index_where f l) as [j|]; simpl; [|discriminate].
    intros [= <-]. simpl. apply IH. reflexivity.
Qed.

Lemma swap_remove_length {A} i (l : list A) :
  (i < length l)%nat -> length (swap_remove i l) = (length l - 1)%nat.
Proof.
  intros Hi. unfold swap_remove.
  destruct (last l) as [x|] eqn:Hlast.
  - rewrite length_take, length_insert. lia.
  - apply last_None in Hlast. subst. simpl in Hi. lia.
Qed.

Lemma swap_remove_snoc {A} (a b : list A) s x :
  swap_remove (length a) (a ++ s :: b ++ [x]) = (a ++ x :: b)%list.
Proof.
  unfold swap_remove.
  replace (a ++ s :: b ++ [x])%list with ((a ++ s :: b) ++ [x])%list
    by now rewrite <- app_assoc.
  rewrite last_snoc. rewrite length_app. simpl.
  replace (length (a ++ s :: b) + 1 - 1)%nat with (length (a ++ s :: b)) by lia.
  rewrite insert_app_l by (rewrite length_app; simpl; lia).
  rewrite take_app_length' by now rewrite length_insert.
  rewrite insert_app_r_alt by lia. rewrite Nat.sub_diag. reflexivity.
Qed.

Lemma swap_remove_last {A} (a : list A) s :
  swap_remove (length a) (a ++ [s]) = a.
Proof.
  unfold swap_remove. rewrite last_snoc. rewrite length_app. simpl.
  replace (length a + 1 - 1)%nat with (length a) by lia.
  rewrite insert_app_r_alt by lia. rewrite Nat.sub_diag. simpl.
  apply take_app_length.
Qed.

Lemma swap_remove_Permutation {A} i (l : list A) s :
  l !! i = Some s -> Permutation l (s :: swap_remove i l).
Proof.
  intros Hi. apply list_elem_of_split_length in Hi as (a & b & -> & ->).
  destruct b as [|y b] using rev_ind.
  - rewrite swap_remove_last. symmetry. apply Permutation_cons_append.
  - clear IHb. rewrite swap_remove_snoc.
    rewrite <- Permutation_middle. apply perm_skip.
    apply Permutation_app_head. symmetry. apply Permutation_cons_append.
Qed.

(** Unless [Unshare] answers with an error of its own, it removes exactly
    one share, one that matches the reference and was created by the
    user: the shares before are a permutation of that share and the
    shares after, also when saving failed. The states and mount points
    stay as they are. *)
Theorem Unshare_removes_one_share (m : shareModel SharePermissions MountPointRef)
    user ref save_ok :
  (forall e, fst (Unshare m user ref save_ok) <> inl (Err e)) ->
  let m' := snd (Unshare m user ref save_ok) in
  exists s,
    sharesEqual ref (share s) = true /\
    IsCreatedByUser (share s) user = true /\
    Permutation (Shares m) (s :: Shares m') /\
    State m' = State m /\
    MountPoint m' = MountPoint m.
Proof.
  intros Hpass. unfold Unshare in *.
  destruct (index_where _ _) as [i|] eqn:Hidx.
  2:{ exfalso. eapply Hpass. reflexivity. }
  apply index_where_lookup in Hidx as (s & Hs & Hf).
  apply andb_true_iff in Hf as [Heq Hcreated].
  simpl. rewrite Save_snd. simpl.
  exists s. split_and!; try done.
  now apply swap_remove_Permutation.
Qed.

Lemma getByID_fresh shares id :
  ~ In id (map sId shares) -> getByID shares id = inl (NotFound (id_String id)).
Proof.
  induction shares as [|s l IH]; simpl; [reflexivity|].
  intros Hnot. destruct (String.eqb_spec (sId s) id) as [Heq|Hne].
  - exfalso. apply Hnot. now left.
  - apply IH. intros Hin. apply Hnot. now right.
Qed.

(** When no two shares have the same id, a share removed by [Unshare]
    through its id is gone for everybody: [GetShare] with that id answers
    not found. *)
Theorem Unshare_then_GetShare_not_found (m : shareModel SharePermissions MountPointRef)
    user id save_ok user' :
  List.NoDup (map (fun s => sId (share s)) (Shares m)) ->
  fst (Unshare m user (RefId id) save_ok) = inr tt ->
  GetShare (map share (Shares (snd (Unshare m user (RefId id) save_ok)))) user' (RefId id)
  = inl (NotFound (id_String id)).
Proof.
  intros Hnodup Hok. unfold Unshare in *.
  destruct (index_where _ _) as [i|] eqn:Hidx; [|discriminate].
  apply index_where_lookup in Hidx as (s & Hs & Hf).
  apply andb_true_iff in Hf as [Heq _]. simpl in Heq.
  apply String.eqb_eq in Heq.
  rewrite Save_snd. simpl.
  pose proof (swap_remove_Permutation i (Shares m) s Hs) as Hperm.
  apply (Permutation_map (fun s => sId (share s))) in Hperm.
  eapply Permutation_NoDup in Hnodup; [|exact Hperm].
  simpl in Hnodup. apply List.NoDup_cons_iff in Hnodup as [Hnot _].
  rewrite <- Heq in Hnot.
  unfold GetShare, get, resolve.
  rewrite getByID_fresh; [reflexivity|].
  now rewrite map_map.
Qed.

Lemma index_where_Some_lookup (f : StoredShare SharePermissions -> bool) l i :
  index_where f l = Some i -> is_Some (l !! i).
Proof. intros Hi. apply index_where_lookup in Hi as (s & -> & _). eauto. Qed.

(** [UpdateShare] changes nothing but the permissions and the
    modification time of one share. Either no share matches the reference
    and was created by the user: the answer is not found and the model is
    as before. Or the model after the call is the model before with one
    share, which matches the reference and was created by the user,
    replaced by the same share with the new permissions and the new
    modification time: every other share, the identity and creation time
    of the updated share, the order, the states and the mount points
    stay, also when saving failed; the updated share is what a successful
    call returns. *)
Theorem UpdateShare_keeps_identities (m : shareModel SharePermissions MountPointRef)
    user ref p now save_ok :
  let m' := snd (UpdateShare m user ref p now save_ok) in
  State m' = State m /\
  MountPoint m' = MountPoint m /\
  ((m' = m /\
    fst (UpdateShare m user ref p now save_ok) = inl (Err (NotFound (ref_String ref)))) \/
   exists i s,
     Shares m !! i = Some s /\
     sharesEqual ref (share s) = true /\
     IsCreatedByUser (share s) user = true /\
     Shares m'
     = <[i := {| share := share s; Permissions := p; Ctime := Ctime s;
                 Mtime := timestamp now |}]> (Shares m) /\
     (forall j, j <> i -> Shares m' !! j = Shares m !! j) /\
     map share (Shares m') = map share (Shares m) /\
     fst (UpdateShare m user ref p now save_ok)
     = if save_ok
       then inr {| share := share s; Permissions := p; Ctime := Ctime s;
                   Mtime := timestamp now |}
       else inl SaveFailed).
Proof.
  unfold UpdateShare.
  destruct (index_where _ _) as [i|] eqn:Hidx; simpl;
    [|split_and!; try done; now left].
  apply index_where_lookup in Hidx as (s & Hs & Hf).
  apply andb_true_iff in Hf as [Heq Hcreated].
  rewrite Hs. rewrite Save_snd. simpl.
  split_and!; try done.
  right. exists i, s. split_and!; try done.
  - intros j Hj. now apply list_lookup_insert_ne.
  - rewrite list_fmap_insert. simpl.
    apply list_insert_id. rewrite list_lookup_fmap, Hs. reflexivity.
  - unfold Save. now destruct save_ok.
Qed.

Lemma first_received_convert (m : shareModel SharePermissions MountPointRef)
    user ref l r :
  first_received userid_String m user ref l = inr r ->
  exists s,
    r = convert userid_String m user s /\
    forall m2 : shareModel SharePermissions MountPointRef,
      first_received userid_String m2 user ref l = inr (convert userid_String m2 user s).
Proof.
  induction l as [|s l IH]; simpl; [discriminate|].
  destruct (_ && _).
  - intros [= <-]. eauto.
  - exact IH.
Qed.

Lemma apply_paths_rShare (received rs0 rs : ReceivedShare SharePermissions MountPointRef)
    paths :
  apply_paths received rs0 paths = inr rs -> rShare rs = rShare rs0.
Proof.
  revert rs0. induction paths as [|p paths IH]; intros rs0; simpl.
  - now intros [= <-].
  - repeat case_match; try discriminate; intros Hres; apply IH in Hres; exact Hres.
Qed.

Lemma persist_lookup {V} (store : gmap string (gmap string V)) u k v :
  exists inner, persist store u k v !! u = Some inner /\ inner !! k = Some v.
Proof.
  unfold persist. destruct (store !! u) as [inner|].
  - exists (<[k := v]> inner). now rewrite !lookup_insert_eq.
  - exists {[ k := v ]}. rewrite lookup_insert_eq. split; [reflexivity|].
    apply lookup_singleton_eq.
Qed.

(** What [UpdateReceivedShare] returns is what the user reads back: after
    a successful update, [GetReceivedShare] with the id of the share
    answers with the very received share the update returned. *)
Theorem UpdateReceivedShare_read_back (m : shareModel SharePermissions MountPointRef)
    user receivedShare paths save_ok rs :
  fst (UpdateReceivedShare userid_String m user receivedShare paths save_ok) = inr rs ->
  GetReceivedShare userid_String
    (snd (UpdateReceivedShare userid_String m user receivedShare paths save_ok))
    user (RefId (sId (share (rShare receivedShare))))
  = inr rs.
Proof.
  unfold UpdateReceivedShare, GetReceivedShare, getReceived.
  destruct (first_received _ _ _ _ _) as [e|rs0] eqn:Hfirst; [discriminate|].
  apply first_received_convert in Hfirst as (s & -> & Hany).
  destruct (apply_paths _ _ _) as [e|rs1] eqn:Hpaths; [discriminate|].
  intros Hres. apply Save_fst in Hres. subst rs1.
  rewrite Save_snd. simpl.
  apply apply_paths_rShare in Hpaths. simpl in Hpaths.
  rewrite Hany. f_equal. unfold convert. simpl. rewrite Hpaths.
  destruct (persist_lookup (State m) (userid_String (Id user))
              (id_String (sId (share s))) (rState rs)) as (st & -> & ->).
  destruct (persist_lookup (MountPoint m) (userid_String (Id user))
              (id_String (sId (share s))) (rMountPoint rs)) as (mp & -> & ->).
  destruct rs. simpl in *. now subst.
Qed.

Lemma inner_loop_None (rss : list (ReceivedShare SharePermissions MountPointRef)) i ri :
  inner_loop rss i ri None = None.
Proof. unfold inner_loop. induction rss as [|rj rss IH]; simpl; [reflexivity|exact IH]. Qed.

Lemma outer_loop_None (rss rest : list (ReceivedShare SharePermissions MountPointRef)) i :
  outer_loop rss i rest None = None.
Proof.
  revert i. induction rest as [|ri rest IH]; intros i; simpl; [reflexivity|].
  rewrite inner_loop_None. apply IH.
Qed.

Lemma inner_loop_same (l : list (ReceivedShare SharePermissions MountPointRef)) i ri acc :
  (forall rj, In rj l -> shadowed_by ri rj = false) ->
  inner_loop l i ri acc = acc.
Proof.
  unfold inner_loop. revert acc. induction l as [|rj l IH]; intros acc Hno; simpl;
    [reflexivity|].
  rewrite IH by (intros; apply Hno; now right).
  destruct acc; [|reflexivity]. rewrite Hno by now left. reflexivity.
Qed.

Lemma outer_loop_same (rss rest : list (ReceivedShare SharePermissions MountPointRef))
    i acc :
  (forall ri rj, In ri rest -> In rj rss -> shadowed_by ri rj = false) ->
  outer_loop rss i rest acc = acc.
Proof.
  revert i acc. induction rest as [|ri rest IH]; intros i acc Hno; simpl; [reflexivity|].
  rewrite inner_loop_same by (intros; apply Hno; [now left|assumption]).
  apply IH. intros; apply Hno; [now right|assumption].
Qed.

(** When no received group share stands beside a received user share of
    the same resource in the same state, [ListReceivedShares] answers
    with all shares that are granted to the user, not created by the
    user and pass the filters, in the order of the model. *)
Theorem ListReceivedShares_without_duplicates
    (m : shareModel SharePermissions MountPointRef) user filters :
  (forall ri rj,
     In ri (received_shares userid_String MatchesFilters m user filters) ->
     In rj (received_shares userid_String MatchesFilters m user filters) ->
     shadowed_by ri rj = false) ->
  ListReceivedShares userid_String MatchesFilters m user filters
  = Some (received_shares userid_String MatchesFilters m user filters) /\
  forall rs, In rs (received_shares userid_String MatchesFilters m user filters) ->
    In (rShare rs) (Shares m) /\
    IsGrantedToUser (share (rShare rs)) user = true /\
    IsCreatedByUser (share (rShare rs)) user = false.
Proof.
  intros Hno. split.
  - unfold ListReceivedShares. now apply outer_loop_same.
  - intros rs Hrs. unfold received_shares in Hrs.
    apply in_map_iff in Hrs as (s & <- & Hs).
    apply filter_In in Hs as [Hin Hcond]. simpl.
    apply andb_true_iff in Hcond as [Hcond _].
    apply negb_true_iff, orb_false_iff in Hcond as [Hc Hg].
    apply negb_false_iff in Hg. auto.
Qed.

Lemma inner_loop_cons (l : list (ReceivedShare SharePermissions MountPointRef))
    i ri rj f :
  inner_loop (rj :: l) i ri (Some f)
  = inner_loop l i ri (if shadowed_by ri rj then remove_at i f else Some f).
Proof. reflexivity. Qed.

Lemma remove_at_length (f f' : list (ReceivedShare SharePermissions MountPointRef)) i :
  remove_at i f = Some f' -> (i < length f)%nat /\ (length f' < length f)%nat.
Proof.
  unfold remove_at. destruct (Nat.ltb_spec i (length f)) as [Hlt|Hge]; [|discriminate].
  intros [= <-]. rewrite swap_remove_length by exact Hlt. lia.
Qed.

Lemma inner_loop_length (l : list (ReceivedShare SharePermissions MountPointRef))
    i ri f f' :
  inner_loop l i ri (Some f) = Some f' -> (length f' <= length f)%nat.
Proof.
  revert f. induction l as [|rj l IH]; intros f.
  - intros [= <-]. lia.
  - rewrite inner_loop_cons. destruct (shadowed_by ri rj); [|apply IH].
    destruct (remove_at i f) as [f1|] eqn:Hrm.
    + apply remove_at_length in Hrm as [_ Hlt].
      intros Hres. apply IH in Hres. lia.
    + rewrite inner_loop_None. discriminate.
Qed.

Lemma inner_loop_app (l1 l2 : list (ReceivedShare SharePermissions MountPointRef))
    i ri acc :
  inner_loop (l1 ++ l2) i ri acc = inner_loop l2 i ri (inner_loop l1 i ri acc).
Proof. unfold inner_loop. apply fold_left_app. Qed.

Lemma inner_loop_shrinks (l : list (ReceivedShare SharePermissions MountPointRef))
    i ri rj f f' :
  In rj l -> shadowed_by ri rj = true ->
  inner_loop l i ri (Some f) = Some f' -> (length f' < length f)%nat.
Proof.
  intros Hin Hsh. apply in_split in Hin as (l1 & l2 & ->).
  rewrite inner_loop_app.
  destruct (inner_loop l1 i ri (Some f)) as [f1|] eqn:H1.
  2:{ rewrite inner_loop_None. discriminate. }
  apply inner_loop_length in H1.
  rewrite inner_loop_cons, Hsh.
  destruct (remove_at i f1) as [f2|] eqn:Hrm.
  - apply remove_at_length in Hrm as [_ Hlt].
    intros Hres. apply inner_loop_length in Hres. lia.
  - rewrite inner_loop_None. discriminate.
Qed.

Lemma inner_loop_panics (l : list (ReceivedShare SharePermissions MountPointRef))
    i ri rj f :
  In rj l -> shadowed_by ri rj = true -> (length f <= i)%nat ->
  inner_loop l i ri (Some f) = None.
Proof.
  intros Hin Hsh Hlen. apply in_split in Hin as (l1 & l2 & ->).
  rewrite inner_loop_app.
  destruct (inner_loop l1 i ri (Some f)) as [f1|] eqn:H1.
  2:{ apply inner_loop_None. }
  apply inner_loop_length in H1.
  rewrite inner_loop_cons, Hsh.
  destruct (remove_at i f1) as [f2|] eqn:Hrm.
  - apply remove_at_length in Hrm as [Hlt _]. lia.
  - apply inner_loop_None.
Qed.

Lemma outer_loop_length (rss rest : list (ReceivedShare SharePermissions MountPointRef))
    i f f' :
  outer_loop rss i rest (Some f) = Some f' -> (length f' <= length f)%nat.
Proof.
  revert i f. induction rest as [|ri rest IH]; intros i f; simpl.
  - intros [= <-]. lia.
  - destruct (inner_loop rss i ri (Some f)) as [f1|] eqn:H1.
    + intros Hres. apply IH in Hres. apply inner_loop_length in H1. lia.
    + rewrite outer_loop_None. discriminate.
Qed.

Lemma outer_loop_app (rss l1 l2 : list (ReceivedShare SharePermissions MountPointRef))
    i acc :
  outer_loop rss i (l1 ++ l2) acc
  = outer_loop rss (i + length l1) l2 (outer_loop rss i l1 acc).
Proof.
  revert i acc. induction l1 as [|r l1 IH]; intros i acc; simpl.
  - now rewrite Nat.add_0_r.
  - rewrite IH. f_equal. lia.
Qed.

(** [ListReceivedShares] panics when the last received share and an
    earlier one are group shares and both stand beside a received user
    share of the same resource in the same state: by the time the loop
    reaches the last index, the slice it writes to has become shorter. *)
Theorem ListReceivedShares_panics
    (m : shareModel SharePermissions MountPointRef) user filters l1 g1 l2 g2 u :
  received_shares userid_String MatchesFilters m user filters
  = (l1 ++ g1 :: l2 ++ [g2])%list ->
  In u (l1 ++ g1 :: l2 ++ [g2]) ->
  shadowed_by g1 u = true ->
  shadowed_by g2 u = true ->
  ListReceivedShares userid_String MatchesFilters m user filters = None.
Proof.
  intros Hrss Hu H1 H2. unfold ListReceivedShares. rewrite Hrss.
  set (rss := (l1 ++ g1 :: l2 ++ [g2])%list) in *.
  unfold rss at 2.
  rewrite outer_loop_app. simpl.
  destruct (outer_loop rss 0 l1 (Some rss)) as [f1|] eqn:Hl1.
  2:{ rewrite inner_loop_None. apply outer_loop_None. }
  apply outer_loop_length in Hl1.
  destruct (inner_loop rss (length l1) g1 (Some f1)) as [f2|] eqn:Hg1.
  2:{ apply outer_loop_None. }
  apply (inner_loop_shrinks rss _ _ u _ _ Hu H1) in Hg1.
  rewrite outer_loop_app. simpl.
  destruct (outer_loop rss _ l2 (Some f2)) as [f3|] eqn:Hl2.
  2:{ apply inner_loop_None. }
  apply outer_loop_length in Hl2.
  apply (inner_loop_panics rss _ _ u _ Hu H2).
  assert (length rss = (length l1 + S (length l2 + 1))%nat) as Hlen.
  { unfold rss. rewrite length_app. simpl. rewrite length_app. simpl. lia. }
  lia.
Qed.

End Manager.

Import ShareJSONModel.

Lemma Share_twice_already_exists_witness :
  let m' := snd (Share (model []) (user "alice") "s1" 0 true (uid "alice")
                       (sResourceId share1) (GranteeUser (uid "bob")) "read") in
  Shares m' = ([] ++
               [{| share := {| sId := "s1"; sResourceId := sResourceId share1;
                               sGrantee := GranteeUser (uid "bob");
                               sOwner := uid "alice"; sCreator := Id (user "alice") |};
                   Permissions := "read"; Ctime := timestamp 0;
                   Mtime := timestamp 0 |}])%list /\
  Share m' (user "alice") "s2" 1 true (uid "alice") (sResourceId share1)
        (GranteeUser (uid "bob")) "write"
  = (inl (Err (AlreadyExists
                 (key_String {| kOwner := uid "alice";
                                kResourceId := sResourceId share1;
                                kGrantee := GranteeUser (uid "bob") |}))), m').
Proof.
  apply (Share_twice_already_exists (model []) (user "alice") "s1" 0 true (uid "alice")
           (sResourceId share1) (GranteeUser (uid "bob")) "read" "s2" 1 true "write").
  - reflexivity.
  - reflexivity.
  - reflexivity.
  - intros e. vm_compute. discriminate.
Defined.

Lemma UpdateShare_keeps_identities_witness :
  exists i s,
    Shares (model [share1; group_share "s2" "g1"]) !! i = Some s /\
    Shares (snd (UpdateShare (model [share1; group_share "s2" "g1"])
                             (user "alice") (RefId "s2") "write" 5 true))
    = [stored share1;
       {| share := group_share "s2" "g1"; Permissions := "write";
          Ctime := timestamp 0; Mtime := timestamp 5 |}].
Proof.
  destruct (UpdateShare_keeps_identities (model [share1; group_share "s2" "g1"])
              (user "alice") (RefId "s2") "write" 5 true)
    as (_ & _ & [[_ Hnone] | (i & s & Hs & _ & _ & _ & _ & _ & _)]).
  - vm_compute in Hnone. discriminate.
  - exists i, s. split; [exact Hs|]. reflexivity.
Defined.

Lemma Unshare_removes_one_share_witness :
  let m' := snd (Unshare (model [share1; group_share "s2" "g1"]) (user "alice")
                         (RefId "share1") true) in
  exists s,
    sharesEqual (RefId "share1") (share s) = true /\
    IsCreatedByUser (share s) (user "alice") = true /\
    Permutation (Shares (model [share1; group_share "s2" "g1"])) (s :: Shares m') /\
    State m' = State (model [share1; group_share "s2" "g1"]) /\
    MountPoint m' = MountPoint (model [share1; group_share "s2" "g1"]).
Proof.
  apply (Unshare_removes_one_share (model [share1; group_share "s2" "g1"])
           (user "alice") (RefId "share1") true).
  intros e. vm_compute. discriminate.
Defined.

Lemma Unshare_then_GetShare_not_found_witness :
  GetShare
    (map share
       (Shares (snd (Unshare (model [share1; group_share "s2" "g1"]) (user "alice")
                             (RefId "share1") true))))
    (user "bob") (RefId "share1")
  = inl (NotFound (id_String "share1")).
Proof.
  apply (Unshare_then_GetShare_not_found (model [share1; group_share "s2" "g1"])
           (user "alice") "share1" true (user "bob")).
  - simpl. apply List.NoDup_cons.
    + simpl. intros [Heq|[]]. discriminate.
    + apply List.NoDup_cons; [intros []|apply List.NoDup_nil].
  - reflexivity.
Defined.

Lemma UpdateReceivedShare_read_back_witness :
  GetReceivedShare uOpaqueId
    (snd (UpdateReceivedShare uOpaqueId (model [share1]) bob
            {| rShare := stored share1; rState := SHARE_STATE_ACCEPTED;
               rMountPoint := None |}
            ["state"] true))
    bob (RefId "share1")
  = inr {| rShare := stored share1; rState := SHARE_STATE_ACCEPTED;
           rMountPoint := None |}.
Proof.
  apply (UpdateReceivedShare_read_back uOpaqueId (model [share1]) bob
           {| rShare := stored share1; rState := SHARE_STATE_ACCEPTED;
              rMountPoint := None |}
           ["state"] true).
  reflexivity.
Defined.

Lemma ListReceivedShares_without_duplicates_witness :
  ListReceivedShares uOpaqueId no_filter (model [share1]) bob []
  = Some (received_shares uOpaqueId no_filter (model [share1]) bob []) /\
  forall rs, In rs (received_shares uOpaqueId no_filter (model [share1]) bob []) ->
    In (rShare rs) (Shares (model [share1])) /\
    IsGrantedToUser (share (rShare rs)) bob = true /\
    IsCreatedByUser (share (rShare rs)) bob = false.
Proof.
  apply (ListReceivedShares_without_duplicates uOpaqueId no_filter (model [share1]) bob []).
  intros ri rj [<-|[]] [<-|[]]. reflexivity.
Defined.

Lemma ListReceivedShares_panics_witness :
  ListReceivedShares uOpaqueId no_filter
    (model [share1; group_share "s2" "g1"; group_share "s3" "g2"]) bob []
  = None.
Proof.
  apply (ListReceivedShares_panics uOpaqueId no_filter
           (model [share1; group_share "s2" "g1"; group_share "s3" "g2"]) bob []
           [convert uOpaqueId
              (model [share1; group_share "s2" "g1"; group_share "s3" "g2"]) bob
              (stored share1)]
           (convert uOpaqueId
              (model [share1; group_share "s2" "g1"; group_share "s3" "g2"]) bob
              (stored (group_share "s2" "g1")))
           []
           (convert uOpaqueId
              (model [share1; group_share "s2" "g1"; group_share "s3" "g2"]) bob
              (stored (group_share "s3" "g2")))
           (convert uOpaqueId
              (model [share1; group_share "s2" "g1"; group_share "s3" "g2"]) bob
              (stored share1))).
  - reflexivity.
  - left. reflexivity.
  - reflexivity.
  - reflexivity.
Defined.

End ShareJSONMoreProofs.

(** ** decomposedfs: CreateReference *)

Module ReferencesProofs.
Import Go References.

(** [CreateReference] leaves no half-made reference behind. When it
    returns an error, the directories this call created are deleted
    again, the child before the share folder; when it succeeds it deletes
    nothing, the path is a name directly below the share folder, and the
    last two calls created the child and stored the target on it. *)
Theorem CreateReference_cleans_up ShareFolder ReferenceAttr env p targetURI :
  let err := fst (CreateReference ShareFolder ReferenceAttr env p targetURI) in
  let trace := snd (CreateReference ShareFolder ReferenceAttr env p targetURI) in
  match err with
  | Some _ => deleted trace = rev (created trace)
  | None =>
      deleted trace = [] /\
      exists name before,
        Split (Trim p) "/" = [Trim ShareFolder; name] /\
        trace = (before ++
                 [TCreateDir (ChildNode name) true;
                  TSetMetadata (ChildNode name) ReferenceAttr targetURI true])%list
  end.
Proof.
  unfold CreateReference, with_clean_up, create_child_node.
  destruct (Split (Trim p) "/") as [|first [|name [|more parts]]]; simpl; try reflexivity.
  destruct (String.eqb_spec first (Trim ShareFolder)) as [->|Hne]; simpl; [|reflexivity].
  destruct env as [sf csf cn cc sr]; simpl.
  destruct sf as [[|]|], csf, cn as [[|]|], cc, sr; simpl; try reflexivity;
    (split; [reflexivity|]); exists name;
    first [ exists []; split; reflexivity
          | exists [TCreateDir ShareFolderNode true]; split; reflexivity ].
Qed.

Lemma CreateReference_cleans_up_witness :
  deleted (snd (CreateReference "/Shares" "user.ocis.cs3.ref" failing_tree
                                "/Shares/photos" "cs3:storage/file"))
  = rev (created (snd (CreateReference "/Shares" "user.ocis.cs3.ref" failing_tree
                                       "/Shares/photos" "cs3:storage/file"))).
Proof.
  exact (CreateReference_cleans_up "/Shares" "user.ocis.cs3.ref" failing_tree
           "/Shares/photos" "cs3:storage/file").
Defined.

End ReferencesProofs.
